(** * The timeline edit engine of the editor store, and the text compositor

    A shallow embedding of [src/stores/editorStore.ts] (tracks, clips, the
    edit operations, the clipboard, selection and the undo/redo history; the
    view, text and media actions and the getters that read them) and of
    [animateTexts], [updateTextVisibility] and [getCanvasArea] from the canvas
    component.

    Conventions of the embedding.
    - A JavaScript [number] that holds a time, a coordinate or a factor is a
      rational [Q]; arithmetic is exact.  The one division whose divisor can
      be zero (the snap threshold) goes through [JsNum], which keeps
      [Infinity] and [NaN] apart from the finite values.
    - Objects are records.  A deep copy ([JSON.parse(JSON.stringify x)] or a
      spread of an array) is the identity on values: the one thing the JSON
      copy changes, a property that holds [undefined] and is dropped, reads
      as [undefined] before and after.  In-place mutation of an object found
      by a search is an update at the position the search finds.
    - [generateId] reads the clock and the random generator; the store state
      carries that entropy as a function [entropy] and the number of draws
      made so far.
    - A clip id has type [string] in the source but holds [undefined] after an
      object spread that carries [id: undefined]; ids are [option string].
    - The properties of a clip are known by name.  Those the interface of
      the clip declares are always present ([addClip] writes each of them);
      those of another interface that a spread or [Object.assign] adds to
      the object are kept beside them.  A clip keeps the [type] it is built
      with: no call of the repository passes a [type] other than the one of
      its target. *)

From Stdlib Require Import QArith ZArith List String Bool Lia Lqa.
From Stdlib Require Import Qminmax Qabs Qround DecimalString.
From Stdlib Require Import Permutation.
Import ListNotations.
Open Scope Q_scope.

(** ** Small JavaScript helpers *)

Definition Qlt_bool (a b : Q) : bool := negb (Qle_bool b a).

(** [a || d] where [a] is a number or missing: [undefined] and [0] are falsy. *)
Definition orNum (a : option Q) (d : Q) : Q :=
  match a with
  | Some q => if Qeq_bool q 0 then d else q
  | None => d
  end.

(** [a || d] where [a] is a string or missing: the empty string is falsy. *)
Definition orStr (a : option string) (d : string) : string :=
  match a with
  | Some s => if String.eqb s EmptyString then d else s
  | None => d
  end.

(** One property of an object spread [{...defaults, ...data}]: the value of
    [data] when [data] owns the property. *)
Definition spread {A : Type} (data : option A) (dflt : A) : A :=
  match data with
  | Some a => a
  | None => dflt
  end.

(** The result of a division of two finite numbers. *)
Inductive JsNum : Type :=
| Fin (q : Q)
| PosInf
| NegInf
| NaN.

Definition jsDiv (a b : Q) : JsNum :=
  if Qeq_bool b 0 then
    (if Qeq_bool a 0 then NaN else if Qlt_bool 0 a then PosInf else NegInf)
  else Fin (a / b).

(** [d < thr] for a finite [d]. *)
Definition ltJs (d : Q) (thr : JsNum) : bool :=
  match thr with
  | Fin t => Qlt_bool d t
  | PosInf => true
  | NegInf => false
  | NaN => false
  end.

(** [array[i]]: [None] is [undefined]. *)
Definition jsIndex {A : Type} (l : list A) (i : Z) : option A :=
  if (i <? 0)%Z then None else nth_error l (Z.to_nat i).

(** [array.slice(0, e)]; a negative [e] counts from the end. *)
Definition slice0 {A : Type} (e : Z) (l : list A) : list A :=
  if (e <? 0)%Z then firstn (Z.to_nat (Z.of_nat (List.length l) + e)) l
  else firstn (Z.to_nat e) l.

(** Replace the first element that satisfies [p] by the elements [f] gives
    for it: [splice] at the index [findIndex] returns. *)
Fixpoint substFirst {A : Type} (p : A -> bool) (f : A -> list A) (l : list A) : list A :=
  match l with
  | [] => []
  | a :: l' => if p a then f a ++ l' else a :: substFirst p f l'
  end.

Definition mapFirst {A : Type} (p : A -> bool) (f : A -> A) (l : list A) : list A :=
  substFirst p (fun a => [f a]) l.

Definition removeFirst {A : Type} (p : A -> bool) (l : list A) : list A :=
  substFirst p (fun _ => []) l.

(** ** Types of the store *)

Inductive TrackType : Type := TVideo | TAudio | TText.

Definition TrackType_eqb (a b : TrackType) : bool :=
  match a, b with
  | TVideo, TVideo => true
  | TAudio, TAudio => true
  | TText, TText => true
  | _, _ => false
  end.

Definition ClipId : Type := option string.

Definition ClipId_eqb (a b : ClipId) : bool :=
  match a, b with
  | Some x, Some y => String.eqb x y
  | None, None => true
  | _, _ => false
  end.

Inductive AnimationType : Type := ANone | AFade | ASlide | AScale | ATypewriter.

Inductive Direction : Type := DLeft | DRight | DUp | DDown.

Inductive TextAlign : Type := AlignLeft | AlignCenter | AlignRight.

Inductive AspectRatioPreset : Type := R16_9 | R9_16 | R1_1 | R4_5 | R4_3 | R21_9 | R2_3.

Module TextAnimation.
Record t : Type := mk {
  type : AnimationType;
  duration : Q;
  direction : option Direction
}.
End TextAnimation.

Module VideoFilters.
Record t : Type := mk {
  brightness : Q;
  contrast : Q;
  saturation : Q;
  temperature : Q;
  hue : Q;
  blur : Q;
  preset : string
}.
End VideoFilters.

(** The fields [VideoClip] adds to [BaseClip]. *)
Module VideoProps.
Record t : Type := mk {
  src : string;
  fileName : string;
  originalDuration : Q;
  thumbnails : option (list string);
  x : Q;
  y : Q;
  scale : Q;
  rotation : Q;
  flipX : bool;
  flipY : bool;
  speed : Q;
  opacity : Q;
  filters : VideoFilters.t
}.
End VideoProps.

(** The fields [AudioClip] adds to [BaseClip]. *)
Module AudioProps.
Record t : Type := mk {
  src : string;
  fileName : string;
  originalDuration : Q;
  waveform : option (list Q);
  volume : Q;
  fadeIn : Q;
  fadeOut : Q;
  isMuted : bool
}.
End AudioProps.

(** The fields [TextClip] adds to [BaseClip]. *)
Module TextProps.
Record t : Type := mk {
  text : string;
  x : Q;
  y : Q;
  fontSize : Q;
  fontFamily : string;
  color : string;
  backgroundColor : string;
  backgroundOpacity : Q;
  textAlign : TextAlign;
  bold : bool;
  italic : bool;
  shadow : bool;
  outline : bool;
  outlineColor : string;
  outlineWidth : Q;
  animationIn : TextAnimation.t;
  animationOut : TextAnimation.t
}.
End TextProps.

(** The variant part of the [Clip] union; its constructor is the [type] tag. *)
Inductive Props : Type :=
| PVideo (p : VideoProps.t)
| PAudio (p : AudioProps.t)
| PText (p : TextProps.t).

(** ** [Partial<Clip>]

    A property of a partial object is missing ([None]) or present.  The [id]
    is the one property the store itself passes as present and [undefined]
    ([Some None]).

    A property is known by its name, whatever interface the literal that
    carries it was typed with: the [x] and [y] of a [Partial<TextClip>] are
    the [x] and [y] of a [VideoClip], and [src], [fileName] and
    [originalDuration] are shared by [VideoClip] and [AudioClip].
    [Object.assign] and an object spread write every property they are
    given: one that the interface of the target declares replaces the
    target's, any other is added to the object.

    The discriminant [type] of a clip is the constructor of its [Props], and
    a partial object does not carry it: every literal of the store and of
    the components names the type of the track it is added to ([addText],
    [setDuration], the captions, the stock image), and [pasteClips] and
    [duplicateSelectedClips] spread a clip onto a track of the clip's own
    type, so no call of the repository changes a [type]. *)

Module PartialVideo.
Record t : Type := mk {
  src : option string;
  fileName : option string;
  originalDuration : option Q;
  thumbnails : option (list string);
  x : option Q;
  y : option Q;
  scale : option Q;
  rotation : option Q;
  flipX : option bool;
  flipY : option bool;
  speed : option Q;
  opacity : option Q;
  filters : option VideoFilters.t
}.

Definition empty : t :=
  mk None None None None None None None None None None None None None.

Definition ofProps (p : VideoProps.t) : t :=
  mk (Some (VideoProps.src p)) (Some (VideoProps.fileName p))
     (Some (VideoProps.originalDuration p)) (VideoProps.thumbnails p)
     (Some (VideoProps.x p)) (Some (VideoProps.y p)) (Some (VideoProps.scale p))
     (Some (VideoProps.rotation p)) (Some (VideoProps.flipX p))
     (Some (VideoProps.flipY p)) (Some (VideoProps.speed p))
     (Some (VideoProps.opacity p)) (Some (VideoProps.filters p)).

(** [{...p, ...d}] on the video properties. *)
Definition assign (d : t) (p : VideoProps.t) : VideoProps.t :=
  VideoProps.mk
    (spread (src d) (VideoProps.src p))
    (spread (fileName d) (VideoProps.fileName p))
    (spread (originalDuration d) (VideoProps.originalDuration p))
    (match thumbnails d with Some l => Some l | None => VideoProps.thumbnails p end)
    (spread (x d) (VideoProps.x p))
    (spread (y d) (VideoProps.y p))
    (spread (scale d) (VideoProps.scale p))
    (spread (rotation d) (VideoProps.rotation p))
    (spread (flipX d) (VideoProps.flipX p))
    (spread (flipY d) (VideoProps.flipY p))
    (spread (speed d) (VideoProps.speed p))
    (spread (opacity d) (VideoProps.opacity p))
    (spread (filters d) (VideoProps.filters p)).
End PartialVideo.

Module PartialAudio.
Record t : Type := mk {
  src : option string;
  fileName : option string;
  originalDuration : option Q;
  waveform : option (list Q);
  volume : option Q;
  fadeIn : option Q;
  fadeOut : option Q;
  isMuted : option bool
}.

Definition empty : t := mk None None None None None None None None.

Definition ofProps (p : AudioProps.t) : t :=
  mk (Some (AudioProps.src p)) (Some (AudioProps.fileName p))
     (Some (AudioProps.originalDuration p)) (AudioProps.waveform p)
     (Some (AudioProps.volume p)) (Some (AudioProps.fadeIn p))
     (Some (AudioProps.fadeOut p)) (Some (AudioProps.isMuted p)).

Definition assign (d : t) (p : AudioProps.t) : AudioProps.t :=
  AudioProps.mk
    (spread (src d) (AudioProps.src p))
    (spread (fileName d) (AudioProps.fileName p))
    (spread (originalDuration d) (AudioProps.originalDuration p))
    (match waveform d with Some l => Some l | None => AudioProps.waveform p end)
    (spread (volume d) (AudioProps.volume p))
    (spread (fadeIn d) (AudioProps.fadeIn p))
    (spread (fadeOut d) (AudioProps.fadeOut p))
    (spread (isMuted d) (AudioProps.isMuted p)).
End PartialAudio.

Module PartialText.
Record t : Type := mk {
  text : option string;
  x : option Q;
  y : option Q;
  fontSize : option Q;
  fontFamily : option string;
  color : option string;
  backgroundColor : option string;
  backgroundOpacity : option Q;
  textAlign : option TextAlign;
  bold : option bool;
  italic : option bool;
  shadow : option bool;
  outline : option bool;
  outlineColor : option string;
  outlineWidth : option Q;
  animationIn : option TextAnimation.t;
  animationOut : option TextAnimation.t
}.

Definition empty : t :=
  mk None None None None None None None None None None None None None None None None None.

Definition ofProps (p : TextProps.t) : t :=
  mk (Some (TextProps.text p)) (Some (TextProps.x p)) (Some (TextProps.y p))
     (Some (TextProps.fontSize p)) (Some (TextProps.fontFamily p))
     (Some (TextProps.color p)) (Some (TextProps.backgroundColor p))
     (Some (TextProps.backgroundOpacity p)) (Some (TextProps.textAlign p))
     (Some (TextProps.bold p)) (Some (TextProps.italic p))
     (Some (TextProps.shadow p)) (Some (TextProps.outline p))
     (Some (TextProps.outlineColor p)) (Some (TextProps.outlineWidth p))
     (Some (TextProps.animationIn p)) (Some (TextProps.animationOut p)).

Definition assign (d : t) (p : TextProps.t) : TextProps.t :=
  TextProps.mk
    (spread (text d) (TextProps.text p))
    (spread (x d) (TextProps.x p))
    (spread (y d) (TextProps.y p))
    (spread (fontSize d) (TextProps.fontSize p))
    (spread (fontFamily d) (TextProps.fontFamily p))
    (spread (color d) (TextProps.color p))
    (spread (backgroundColor d) (TextProps.backgroundColor p))
    (spread (backgroundOpacity d) (TextProps.backgroundOpacity p))
    (spread (textAlign d) (TextProps.textAlign p))
    (spread (bold d) (TextProps.bold p))
    (spread (italic d) (TextProps.italic p))
    (spread (shadow d) (TextProps.shadow p))
    (spread (outline d) (TextProps.outline p))
    (spread (outlineColor d) (TextProps.outlineColor p))
    (spread (outlineWidth d) (TextProps.outlineWidth p))
    (spread (animationIn d) (TextProps.animationIn p))
    (spread (animationOut d) (TextProps.animationOut p)).
End PartialText.

(** [{...p, ...d}] for a property that may be missing on both sides. *)
Definition spreadOpt {A : Type} (data dflt : option A) : option A :=
  match data with
  | Some a => Some a
  | None => dflt
  end.

(** The properties [VideoClip], [AudioClip] and [TextClip] add to [BaseClip],
    by name: what an object typed [Partial<Clip>] can own beyond the
    properties of [BaseClip]. *)
Module PartialProps.
Record t : Type := mk {
  src : option string;
  fileName : option string;
  originalDuration : option Q;
  thumbnails : option (list string);
  x : option Q;
  y : option Q;
  scale : option Q;
  rotation : option Q;
  flipX : option bool;
  flipY : option bool;
  speed : option Q;
  opacity : option Q;
  filters : option VideoFilters.t;
  waveform : option (list Q);
  volume : option Q;
  fadeIn : option Q;
  fadeOut : option Q;
  isMuted : option bool;
  text : option string;
  fontSize : option Q;
  fontFamily : option string;
  color : option string;
  backgroundColor : option string;
  backgroundOpacity : option Q;
  textAlign : option TextAlign;
  bold : option bool;
  italic : option bool;
  shadow : option bool;
  outline : option bool;
  outlineColor : option string;
  outlineWidth : option Q;
  animationIn : option TextAnimation.t;
  animationOut : option TextAnimation.t
}.

Definition empty : t :=
  mk None None None None None None None None None None None None None None None None
    None None None None None None None None None None None None None None None None
    None.

(** [{...p, ...d}]. *)
Definition merge (d p : t) : t :=
  mk
    (spreadOpt (src d) (src p))
    (spreadOpt (fileName d) (fileName p))
    (spreadOpt (originalDuration d) (originalDuration p))
    (spreadOpt (thumbnails d) (thumbnails p))
    (spreadOpt (x d) (x p))
    (spreadOpt (y d) (y p))
    (spreadOpt (scale d) (scale p))
    (spreadOpt (rotation d) (rotation p))
    (spreadOpt (flipX d) (flipX p))
    (spreadOpt (flipY d) (flipY p))
    (spreadOpt (speed d) (speed p))
    (spreadOpt (opacity d) (opacity p))
    (spreadOpt (filters d) (filters p))
    (spreadOpt (waveform d) (waveform p))
    (spreadOpt (volume d) (volume p))
    (spreadOpt (fadeIn d) (fadeIn p))
    (spreadOpt (fadeOut d) (fadeOut p))
    (spreadOpt (isMuted d) (isMuted p))
    (spreadOpt (text d) (text p))
    (spreadOpt (fontSize d) (fontSize p))
    (spreadOpt (fontFamily d) (fontFamily p))
    (spreadOpt (color d) (color p))
    (spreadOpt (backgroundColor d) (backgroundColor p))
    (spreadOpt (backgroundOpacity d) (backgroundOpacity p))
    (spreadOpt (textAlign d) (textAlign p))
    (spreadOpt (bold d) (bold p))
    (spreadOpt (italic d) (italic p))
    (spreadOpt (shadow d) (shadow p))
    (spreadOpt (outline d) (outline p))
    (spreadOpt (outlineColor d) (outlineColor p))
    (spreadOpt (outlineWidth d) (outlineWidth p))
    (spreadOpt (animationIn d) (animationIn p))
    (spreadOpt (animationOut d) (animationOut p)).

(** The properties of [d] that [VideoClip] declares. *)
Definition videoPart (d : t) : PartialVideo.t :=
  PartialVideo.mk (src d) (fileName d) (originalDuration d) (thumbnails d) (x d) (y d)
    (scale d) (rotation d) (flipX d) (flipY d) (speed d) (opacity d) (filters d).

(** The properties of [d] that [AudioClip] declares. *)
Definition audioPart (d : t) : PartialAudio.t :=
  PartialAudio.mk (src d) (fileName d) (originalDuration d) (waveform d) (volume d)
    (fadeIn d) (fadeOut d) (isMuted d).

(** The properties of [d] that [TextClip] declares. *)
Definition textPart (d : t) : PartialText.t :=
  PartialText.mk (text d) (x d) (y d) (fontSize d) (fontFamily d) (color d)
    (backgroundColor d) (backgroundOpacity d) (textAlign d) (bold d) (italic d)
    (shadow d) (outline d) (outlineColor d) (outlineWidth d) (animationIn d)
    (animationOut d).

(** The properties of [d] that [VideoClip] does not declare. *)
Definition withoutVideo (d : t) : t :=
  mk None None None None None None None None None None None None None (waveform d)
    (volume d) (fadeIn d) (fadeOut d) (isMuted d) (text d) (fontSize d) (fontFamily d)
    (color d) (backgroundColor d) (backgroundOpacity d) (textAlign d) (bold d)
    (italic d) (shadow d) (outline d) (outlineColor d) (outlineWidth d) (animationIn d)
    (animationOut d).

(** The properties of [d] that [AudioClip] does not declare. *)
Definition withoutAudio (d : t) : t :=
  mk None None None (thumbnails d) (x d) (y d) (scale d) (rotation d) (flipX d)
    (flipY d) (speed d) (opacity d) (filters d) None None None None None (text d)
    (fontSize d) (fontFamily d) (color d) (backgroundColor d) (backgroundOpacity d)
    (textAlign d) (bold d) (italic d) (shadow d) (outline d) (outlineColor d)
    (outlineWidth d) (animationIn d) (animationOut d).

(** The properties of [d] that [TextClip] does not declare. *)
Definition withoutText (d : t) : t :=
  mk (src d) (fileName d) (originalDuration d) (thumbnails d) None None (scale d)
    (rotation d) (flipX d) (flipY d) (speed d) (opacity d) (filters d) (waveform d)
    (volume d) (fadeIn d) (fadeOut d) (isMuted d) None None None None None None None
    None None None None None None None None.

End PartialProps.

(** A literal typed [Partial<VideoClip>]. *)
Definition PPVideo (d : PartialVideo.t) : PartialProps.t :=
  PartialProps.mk (PartialVideo.src d) (PartialVideo.fileName d)
    (PartialVideo.originalDuration d) (PartialVideo.thumbnails d) (PartialVideo.x d)
    (PartialVideo.y d) (PartialVideo.scale d) (PartialVideo.rotation d)
    (PartialVideo.flipX d) (PartialVideo.flipY d) (PartialVideo.speed d)
    (PartialVideo.opacity d) (PartialVideo.filters d) None None None None None None
    None None None None None None None None None None None None None None.

(** A literal typed [Partial<AudioClip>]. *)
Definition PPAudio (d : PartialAudio.t) : PartialProps.t :=
  PartialProps.mk (PartialAudio.src d) (PartialAudio.fileName d)
    (PartialAudio.originalDuration d) None None None None None None None None None None
    (PartialAudio.waveform d) (PartialAudio.volume d) (PartialAudio.fadeIn d)
    (PartialAudio.fadeOut d) (PartialAudio.isMuted d) None None None None None None
    None None None None None None None None None.

(** A literal typed [Partial<TextClip>]. *)
Definition PPText (d : PartialText.t) : PartialProps.t :=
  PartialProps.mk None None None None (PartialText.x d) (PartialText.y d) None None
    None None None None None None None None None None (PartialText.text d)
    (PartialText.fontSize d) (PartialText.fontFamily d) (PartialText.color d)
    (PartialText.backgroundColor d) (PartialText.backgroundOpacity d)
    (PartialText.textAlign d) (PartialText.bold d) (PartialText.italic d)
    (PartialText.shadow d) (PartialText.outline d) (PartialText.outlineColor d)
    (PartialText.outlineWidth d) (PartialText.animationIn d)
    (PartialText.animationOut d).

(** Every property of [p], as [{...clip}] has them. *)
Definition ofProps (p : Props) : PartialProps.t :=
  match p with
  | PVideo pv => PPVideo (PartialVideo.ofProps pv)
  | PAudio pa => PPAudio (PartialAudio.ofProps pa)
  | PText pt => PPText (PartialText.ofProps pt)
  end.

(** What [Object.assign] writes to the properties the interface of the
    clip declares: every property of [d] with one of their names. *)
Definition assignProps (d : PartialProps.t) (p : Props) : Props :=
  match p with
  | PVideo pv => PVideo (PartialVideo.assign (PartialProps.videoPart d) pv)
  | PAudio pa => PAudio (PartialAudio.assign (PartialProps.audioPart d) pa)
  | PText pt => PText (PartialText.assign (PartialProps.textPart d) pt)
  end.

(** The properties of [d] that the interface of the clip does not declare:
    [Object.assign] adds them to the object. *)
Definition undeclared (p : Props) (d : PartialProps.t) : PartialProps.t :=
  match p with
  | PVideo _ => PartialProps.withoutVideo d
  | PAudio _ => PartialProps.withoutAudio d
  | PText _ => PartialProps.withoutText d
  end.

(** A clip object.  [props] holds the properties the interface of the clip
    declares, [extra] the properties a spread or [Object.assign] gave the
    object beyond them. *)
Module Clip.
Record t : Type := mk {
  id : ClipId;
  trackId : string;
  startTime : Q;
  endTime : Q;
  sourceStartTime : Q;
  duration : Q;
  isSelected : bool;
  props : Props;
  extra : PartialProps.t
}.

Definition type (c : t) : TrackType :=
  match props c with
  | PVideo _ => TVideo
  | PAudio _ => TAudio
  | PText _ => TText
  end.

Definition with_id (v : ClipId) (c : t) : t :=
  mk v (trackId c) (startTime c) (endTime c) (sourceStartTime c) (duration c) (isSelected c) (props c) (extra c).

Definition with_trackId (v : string) (c : t) : t :=
  mk (id c) v (startTime c) (endTime c) (sourceStartTime c) (duration c) (isSelected c) (props c) (extra c).

Definition with_startTime (v : Q) (c : t) : t :=
  mk (id c) (trackId c) v (endTime c) (sourceStartTime c) (duration c) (isSelected c) (props c) (extra c).

Definition with_endTime (v : Q) (c : t) : t :=
  mk (id c) (trackId c) (startTime c) v (sourceStartTime c) (duration c) (isSelected c) (props c) (extra c).

Definition with_sourceStartTime (v : Q) (c : t) : t :=
  mk (id c) (trackId c) (startTime c) (endTime c) v (duration c) (isSelected c) (props c) (extra c).

Definition with_duration (v : Q) (c : t) : t :=
  mk (id c) (trackId c) (startTime c) (endTime c) (sourceStartTime c) v (isSelected c) (props c) (extra c).

Definition with_isSelected (v : bool) (c : t) : t :=
  mk (id c) (trackId c) (startTime c) (endTime c) (sourceStartTime c) (duration c) v (props c) (extra c).

Definition hasId (cid : ClipId) (c : t) : bool := ClipId_eqb (id c) cid.
End Clip.

Module Track.
Record t : Type := mk {
  id : string;
  type : TrackType;
  name : string;
  order : Z;
  isLocked : bool;
  isVisible : bool;
  isMuted : bool;
  clips : list Clip.t
}.

Definition with_clips (v : list Clip.t) (tr : t) : t :=
  mk (id tr) (type tr) (name tr) (order tr) (isLocked tr) (isVisible tr) (isMuted tr) v.

Definition hasId (tid : string) (tr : t) : bool := String.eqb (id tr) tid.

Definition hasClip (cid : ClipId) (tr : t) : bool := existsb (Clip.hasId cid) (clips tr).
End Track.

(** [HistoryState]: what a snapshot keeps. *)
Module HistoryState.
Record t : Type := mk {
  tracks : list Track.t;
  selectedClipIds : list ClipId
}.
End HistoryState.

Module PartialClip.
Record t : Type := mk {
  id : option ClipId;
  trackId : option string;
  startTime : option Q;
  endTime : option Q;
  sourceStartTime : option Q;
  duration : option Q;
  isSelected : option bool;
  props : PartialProps.t
}.

(** Every property of a clip, as [{...clip}] has them. *)
Definition ofClip (c : Clip.t) : t :=
  mk (Some (Clip.id c)) (Some (Clip.trackId c)) (Some (Clip.startTime c))
     (Some (Clip.endTime c)) (Some (Clip.sourceStartTime c))
     (Some (Clip.duration c)) (Some (Clip.isSelected c))
     (PartialProps.merge (ofProps (Clip.props c)) (Clip.extra c)).

Definition with_id (v : option ClipId) (d : t) : t :=
  mk v (trackId d) (startTime d) (endTime d) (sourceStartTime d) (duration d) (isSelected d) (props d).

Definition with_startTime (v : option Q) (d : t) : t :=
  mk (id d) (trackId d) v (endTime d) (sourceStartTime d) (duration d) (isSelected d) (props d).

Definition with_endTime (v : option Q) (d : t) : t :=
  mk (id d) (trackId d) (startTime d) v (sourceStartTime d) (duration d) (isSelected d) (props d).

Definition with_isSelected (v : option bool) (d : t) : t :=
  mk (id d) (trackId d) (startTime d) (endTime d) (sourceStartTime d) (duration d) v (props d).

(** [Object.assign(c, d)], also the trailing [...d] of an object literal. *)
Definition assign (d : t) (c : Clip.t) : Clip.t :=
  Clip.mk
    (spread (id d) (Clip.id c))
    (spread (trackId d) (Clip.trackId c))
    (spread (startTime d) (Clip.startTime c))
    (spread (endTime d) (Clip.endTime c))
    (spread (sourceStartTime d) (Clip.sourceStartTime c))
    (spread (duration d) (Clip.duration c))
    (spread (isSelected d) (Clip.isSelected c))
    (assignProps (props d) (Clip.props c))
    (PartialProps.merge (undeclared (Clip.props c) (props d)) (Clip.extra c)).
End PartialClip.

(** The refs of the store that the engine reads or writes.  The media
    element, the file handle and its URL are left out: no edit operation
    touches them.  [entropy] and [draws] stand for the clock and the random
    generator behind [generateId]. *)
Module State.
Record t : Type := mk {
  projectName : string;
  projectDuration : Q;
  aspectRatio : AspectRatioPreset;
  isPlaying : bool;
  currentTime : Q;
  duration : Q;
  tracks : list Track.t;
  selectedClipIds : list ClipId;
  selectedTrackId : option string;
  timelineZoom : Q;
  timelineScrollX : Q;
  isSnappingEnabled : bool;
  snapThreshold : Q;
  clipboard : list Clip.t;
  history : list HistoryState.t;
  historyIndex : Z;
  entropy : nat -> string;
  draws : nat
}.

Definition with_projectDuration (v : Q) (s : t) : t :=
  mk (projectName s) v (aspectRatio s) (isPlaying s) (currentTime s) (duration s) (tracks s) (selectedClipIds s) (selectedTrackId s) (timelineZoom s) (timelineScrollX s) (isSnappingEnabled s) (snapThreshold s) (clipboard s) (history s) (historyIndex s) (entropy s) (draws s).

Definition with_isPlaying (v : bool) (s : t) : t :=
  mk (projectName s) (projectDuration s) (aspectRatio s) v (currentTime s) (duration s) (tracks s) (selectedClipIds s) (selectedTrackId s) (timelineZoom s) (timelineScrollX s) (isSnappingEnabled s) (snapThreshold s) (clipboard s) (history s) (historyIndex s) (entropy s) (draws s).

Definition with_currentTime (v : Q) (s : t) : t :=
  mk (projectName s) (projectDuration s) (aspectRatio s) (isPlaying s) v (duration s) (tracks s) (selectedClipIds s) (selectedTrackId s) (timelineZoom s) (timelineScrollX s) (isSnappingEnabled s) (snapThreshold s) (clipboard s) (history s) (historyIndex s) (entropy s) (draws s).

Definition with_duration (v : Q) (s : t) : t :=
  mk (projectName s) (projectDuration s) (aspectRatio s) (isPlaying s) (currentTime s) v (tracks s) (selectedClipIds s) (selectedTrackId s) (timelineZoom s) (timelineScrollX s) (isSnappingEnabled s) (snapThreshold s) (clipboard s) (history s) (historyIndex s) (entropy s) (draws s).

Definition with_tracks (v : list Track.t) (s : t) : t :=
  mk (projectName s) (projectDuration s) (aspectRatio s) (isPlaying s) (currentTime s) (duration s) v (selectedClipIds s) (selectedTrackId s) (timelineZoom s) (timelineScrollX s) (isSnappingEnabled s) (snapThreshold s) (clipboard s) (history s) (historyIndex s) (entropy s) (draws s).

Definition with_selectedClipIds (v : list ClipId) (s : t) : t :=
  mk (projectName s) (projectDuration s) (aspectRatio s) (isPlaying s) (currentTime s) (duration s) (tracks s) v (selectedTrackId s) (timelineZoom s) (timelineScrollX s) (isSnappingEnabled s) (snapThreshold s) (clipboard s) (history s) (historyIndex s) (entropy s) (draws s).

Definition with_selectedTrackId (v : option string) (s : t) : t :=
  mk (projectName s) (projectDuration s) (aspectRatio s) (isPlaying s) (currentTime s) (duration s) (tracks s) (selectedClipIds s) v (timelineZoom s) (timelineScrollX s) (isSnappingEnabled s) (snapThreshold s) (clipboard s) (history s) (historyIndex s) (entropy s) (draws s).

Definition with_timelineZoom (v : Q) (s : t) : t :=
  mk (projectName s) (projectDuration s) (aspectRatio s) (isPlaying s) (currentTime s) (duration s) (tracks s) (selectedClipIds s) (selectedTrackId s) v (timelineScrollX s) (isSnappingEnabled s) (snapThreshold s) (clipboard s) (history s) (historyIndex s) (entropy s) (draws s).

Definition with_isSnappingEnabled (v : bool) (s : t) : t :=
  mk (projectName s) (projectDuration s) (aspectRatio s) (isPlaying s) (currentTime s) (duration s) (tracks s) (selectedClipIds s) (selectedTrackId s) (timelineZoom s) (timelineScrollX s) v (snapThreshold s) (clipboard s) (history s) (historyIndex s) (entropy s) (draws s).

Definition with_clipboard (v : list Clip.t) (s : t) : t :=
  mk (projectName s) (projectDuration s) (aspectRatio s) (isPlaying s) (currentTime s) (duration s) (tracks s) (selectedClipIds s) (selectedTrackId s) (timelineZoom s) (timelineScrollX s) (isSnappingEnabled s) (snapThreshold s) v (history s) (historyIndex s) (entropy s) (draws s).

Definition with_history (v : list HistoryState.t) (s : t) : t :=
  mk (projectName s) (projectDuration s) (aspectRatio s) (isPlaying s) (currentTime s) (duration s) (tracks s) (selectedClipIds s) (selectedTrackId s) (timelineZoom s) (timelineScrollX s) (isSnappingEnabled s) (snapThreshold s) (clipboard s) v (historyIndex s) (entropy s) (draws s).

Definition with_historyIndex (v : Z) (s : t) : t :=
  mk (projectName s) (projectDuration s) (aspectRatio s) (isPlaying s) (currentTime s) (duration s) (tracks s) (selectedClipIds s) (selectedTrackId s) (timelineZoom s) (timelineScrollX s) (isSnappingEnabled s) (snapThreshold s) (clipboard s) (history s) v (entropy s) (draws s).

Definition with_draws (v : nat) (s : t) : t :=
  mk (projectName s) (projectDuration s) (aspectRatio s) (isPlaying s) (currentTime s) (duration s) (tracks s) (selectedClipIds s) (selectedTrackId s) (timelineZoom s) (timelineScrollX s) (isSnappingEnabled s) (snapThreshold s) (clipboard s) (history s) (historyIndex s) (entropy s) v.

End State.

(** What an operation that dereferences a looked-up value does: it returns,
    or it throws a [TypeError] after the writes it made before. *)
Inductive Outcome : Type :=
| Returned (s : State.t)
| Threw (s : State.t).

Definition final (o : Outcome) : State.t :=
  match o with
  | Returned s => s
  | Threw s => s
  end.

(** ** Helper functions *)

Definition generateId (prefix : string) (s : State.t) : string * State.t :=
  ((prefix ++ "-" ++ State.entropy s (State.draws s))%string,
   State.with_draws (S (State.draws s)) s).

Fixpoint findClip (cid : ClipId) (ts : list Track.t) : option Clip.t :=
  match ts with
  | [] => None
  | tr :: ts' =>
      match find (Clip.hasId cid) (Track.clips tr) with
      | Some c => Some c
      | None => findClip cid ts'
      end
  end.

Definition getClipById (cid : ClipId) (s : State.t) : option Clip.t :=
  findClip cid (State.tracks s).

Definition getTrackByClipId (cid : ClipId) (s : State.t) : option Track.t :=
  find (Track.hasClip cid) (State.tracks s).

(** Writes to the clip object [getClipById] returns. *)
Definition modifyClip (cid : ClipId) (f : Clip.t -> Clip.t) (ts : list Track.t) : list Track.t :=
  mapFirst (Track.hasClip cid)
    (fun tr => Track.with_clips (mapFirst (Clip.hasId cid) f (Track.clips tr)) tr) ts.

(** [track.clips.push(c)] on the track [tracks.find(t => t.id === tid)]. *)
Definition pushClip (tid : string) (c : Clip.t) (ts : list Track.t) : list Track.t :=
  mapFirst (Track.hasId tid)
    (fun tr => Track.with_clips (Track.clips tr ++ [c]) tr) ts.

Definition includes (cid : ClipId) (ids : list ClipId) : bool :=
  existsb (fun x => ClipId_eqb x cid) ids.

(** [ids.splice(ids.indexOf(cid), 1)] when the index is not [-1]. *)
Definition dropId (cid : ClipId) (ids : list ClipId) : list ClipId :=
  removeFirst (fun x => ClipId_eqb x cid) ids.

Definition maxEndTime (ts : list Track.t) : Q :=
  fold_left
    (fun maxEnd tr =>
       fold_left
         (fun maxEnd c =>
            if Qlt_bool maxEnd (Clip.endTime c) then Clip.endTime c else maxEnd)
         (Track.clips tr) maxEnd)
    ts 0.

Definition updateProjectDuration (s : State.t) : State.t :=
  let maxEnd := maxEndTime (State.tracks s) in
  let s1 := State.with_projectDuration maxEnd s in
  if Qlt_bool (State.duration s1) maxEnd then State.with_duration maxEnd s1 else s1.

(** ** History *)

Definition maxHistorySize : nat := 50.

Definition snapshot (s : State.t) : HistoryState.t :=
  HistoryState.mk (State.tracks s) (State.selectedClipIds s).

Definition saveHistory (s : State.t) : State.t :=
  let h := slice0 (State.historyIndex s + 1) (State.history s) ++ [snapshot s] in
  if (maxHistorySize <? List.length h)%nat then State.with_history (tl h) s
  else State.with_historyIndex (State.historyIndex s + 1)%Z (State.with_history h s).

Definition restore (st : HistoryState.t) (s : State.t) : State.t :=
  State.with_selectedClipIds (HistoryState.selectedClipIds st)
    (State.with_tracks (HistoryState.tracks st) s).

Definition undo (s : State.t) : Outcome :=
  if (0 <? State.historyIndex s)%Z then
    let s1 := State.with_historyIndex (State.historyIndex s - 1)%Z s in
    match jsIndex (State.history s1) (State.historyIndex s1) with
    | Some st => Returned (restore st s1)
    | None => Threw s1
    end
  else Returned s.

Definition redo (s : State.t) : Outcome :=
  if (State.historyIndex s <? Z.of_nat (List.length (State.history s)) - 1)%Z then
    let s1 := State.with_historyIndex (State.historyIndex s + 1)%Z s in
    match jsIndex (State.history s1) (State.historyIndex s1) with
    | Some st => Returned (restore st s1)
    | None => Threw s1
    end
  else Returned s.

(** ** Track actions *)

Definition capitalized (ty : TrackType) : string :=
  match ty with
  | TVideo => "Video"
  | TAudio => "Audio"
  | TText => "Text"
  end.

Definition showNat (n : nat) : string :=
  DecimalString.NilZero.string_of_uint (Nat.to_uint n).

Definition addTrack (ty : TrackType) (name : option string) (s : State.t) : Track.t * State.t :=
  let trackCount :=
    List.length (filter (fun tr => TrackType_eqb (Track.type tr) ty) (State.tracks s)) in
  let (newId, s1) := generateId "track" s in
  let newTrack :=
    Track.mk newId ty
      (orStr name (capitalized ty ++ " " ++ showNat (trackCount + 1))%string)
      (Z.of_nat (List.length (State.tracks s))) false true false [] in
  (newTrack, saveHistory (State.with_tracks (State.tracks s ++ [newTrack]) s1)).

Definition removeTrack (tid : string) (s : State.t) : State.t :=
  match find (Track.hasId tid) (State.tracks s) with
  | Some tr =>
      let sel :=
        fold_left (fun ids c => dropId (Clip.id c) ids) (Track.clips tr)
          (State.selectedClipIds s) in
      saveHistory
        (State.with_tracks (removeFirst (Track.hasId tid) (State.tracks s))
           (State.with_selectedClipIds sel s))
  | None => s
  end.

(** ** Clip actions *)

(** [clipData.src], [clipData.fileName], [clipData.originalDuration] and
    [clipData.text], read through the casts of [addClip]. *)
Definition dataSrc (d : PartialClip.t) : option string :=
  PartialProps.src (PartialClip.props d).

Definition dataFileName (d : PartialClip.t) : option string :=
  PartialProps.fileName (PartialClip.props d).

Definition dataOriginalDuration (d : PartialClip.t) : option Q :=
  PartialProps.originalDuration (PartialClip.props d).

Definition dataText (d : PartialClip.t) : option string :=
  PartialProps.text (PartialClip.props d).

Definition defaultFilters : VideoFilters.t :=
  VideoFilters.mk 0 0 0 0 0 0 "none".

Definition defaultText : string := "텍스트를 입력하세요".

(** The properties each branch of [addClip] writes before the trailing
    [...clipData]. *)
Definition defaultProps (ty : TrackType) (d : PartialClip.t) : Props :=
  match ty with
  | TVideo =>
      PVideo (VideoProps.mk (orStr (dataSrc d) "") (orStr (dataFileName d) "video")
                (orNum (dataOriginalDuration d) 0) None
                0 0 1 0 false false 1 1 defaultFilters)
  | TAudio =>
      PAudio (AudioProps.mk (orStr (dataSrc d) "") (orStr (dataFileName d) "audio")
                (orNum (dataOriginalDuration d) 0) None
                1 0 0 false)
  | TText =>
      PText (TextProps.mk (orStr (dataText d) defaultText)
               100 100 32 "Arial" "#ffffff" "transparent" 0 AlignCenter
               false false false true "#000000" 2
               (TextAnimation.mk ANone 0.3 None) (TextAnimation.mk ANone 0.3 None))
  end.

(** The clip [addClip] builds for a track of type [ty], given the id
    [generateId] returned. *)
Definition buildClip (newId : string) (tid : string) (ty : TrackType)
    (clipData : PartialClip.t) (now : Q) : Clip.t :=
  let baseClip :=
    Clip.mk (Some newId) tid
      (orNum (PartialClip.startTime clipData) now)
      (orNum (PartialClip.endTime clipData) (now + 5))
      (orNum (PartialClip.sourceStartTime clipData) 0)
      (orNum (PartialClip.duration clipData) 5)
      false
      (defaultProps ty clipData)
      PartialProps.empty in
  PartialClip.assign clipData baseClip.

Definition addClip (tid : string) (clipData : PartialClip.t) (s : State.t)
    : option Clip.t * State.t :=
  match find (Track.hasId tid) (State.tracks s) with
  | None => (None, s)
  | Some track =>
      let (newId, s1) := generateId "clip" s in
      let newClip := buildClip newId tid (Track.type track) clipData (State.currentTime s) in
      let s2 := State.with_tracks (pushClip tid newClip (State.tracks s1)) s1 in
      (Some newClip, saveHistory (updateProjectDuration s2))
  end.

Definition removeClip (cid : ClipId) (s : State.t) : State.t :=
  if existsb (Track.hasClip cid) (State.tracks s) then
    let ts :=
      mapFirst (Track.hasClip cid)
        (fun tr => Track.with_clips (removeFirst (Clip.hasId cid) (Track.clips tr)) tr)
        (State.tracks s) in
    saveHistory
      (updateProjectDuration
         (State.with_selectedClipIds (dropId cid (State.selectedClipIds s))
            (State.with_tracks ts s)))
  else s.

Definition updateClip (cid : ClipId) (updates : PartialClip.t) (s : State.t) : State.t :=
  match getClipById cid s with
  | Some _ =>
      updateProjectDuration
        (State.with_tracks (modifyClip cid (PartialClip.assign updates) (State.tracks s)) s)
  | None => s
  end.

(** The original clip after [splitClip] shortened it. *)
Definition splitFirst (splitTime : Q) (clip : Clip.t) : Clip.t :=
  Clip.with_duration (splitTime - Clip.startTime clip) (Clip.with_endTime splitTime clip).

(** The clip [splitClip] creates, from the original before the split. *)
Definition splitSecond (newId : string) (splitTime : Q) (clip : Clip.t) : Clip.t :=
  let firstDuration := splitTime - Clip.startTime clip in
  let originalEndTime := Clip.endTime clip in
  let first := splitFirst splitTime clip in
  Clip.mk (Some newId) (Clip.trackId first) splitTime originalEndTime
    (orNum (Some (Clip.sourceStartTime first)) 0 + firstDuration)
    (originalEndTime - splitTime)
    false
    (Clip.props first)
    (Clip.extra first).

Definition splitClip (cid : ClipId) (splitTime : Q) (s : State.t)
    : option (Clip.t * Clip.t) * State.t :=
  match getClipById cid s, getTrackByClipId cid s with
  | Some clip, Some _ =>
      if Qle_bool splitTime (Clip.startTime clip) || Qle_bool (Clip.endTime clip) splitTime
      then (None, s)
      else
        let first := splitFirst splitTime clip in
        let (newId, s1) := generateId "clip" s in
        let second := splitSecond newId splitTime clip in
        let ts :=
          mapFirst (Track.hasClip cid)
            (fun tr =>
               Track.with_clips
                 (substFirst (Clip.hasId cid) (fun _ => [first; second]) (Track.clips tr)) tr)
            (State.tracks s1) in
        (Some (first, second), saveHistory (State.with_tracks ts s1))
  | _, _ => (None, s)
  end.

(** *** Snapping *)

Definition snapPoints (excludeClipId : ClipId) (s : State.t) : list Q :=
  0 :: State.currentTime s ::
  flat_map
    (fun tr =>
       flat_map
         (fun c =>
            if negb (Clip.hasId excludeClipId c)
            then [Clip.startTime c; Clip.endTime c]
            else [])
         (Track.clips tr))
    (State.tracks s).

Definition thresholdSeconds (s : State.t) : JsNum :=
  let pixelsPerSecond := 100 * State.timelineZoom s in
  jsDiv (State.snapThreshold s) pixelsPerSecond.

Definition withinThreshold (s : State.t) (time point : Q) : bool :=
  ltJs (Qabs (time - point)) (thresholdSeconds s).

Definition getSnappedTime (time : Q) (excludeClipId : ClipId) (s : State.t) : Q :=
  match find (withinThreshold s time) (snapPoints excludeClipId s) with
  | Some point => point
  | None => time
  end.

(** *** Move and trim *)

(** The two writes of [moveClip] to the clip's times. *)
Definition retime (newStartTime : Q) (clip : Clip.t) : Clip.t :=
  let clipDuration := Clip.endTime clip - Clip.startTime clip in
  let start := Qmax 0 newStartTime in
  Clip.with_endTime (start + clipDuration) (Clip.with_startTime start clip).

Definition moveClip (cid : ClipId) (newStartTime : Q) (newTrackId : option string)
    (s : State.t) : State.t :=
  match getClipById cid s, getTrackByClipId cid s with
  | Some clip, Some currentTrack =>
      let newStartTime :=
        if State.isSnappingEnabled s then getSnappedTime newStartTime cid s
        else newStartTime in
      let ts1 := modifyClip cid (retime newStartTime) (State.tracks s) in
      let ts2 :=
        match newTrackId with
        | Some ntid =>
            if negb (String.eqb ntid EmptyString) && negb (String.eqb ntid (Track.id currentTrack))
            then
              match find (Track.hasId ntid) ts1 with
              | Some newTrack =>
                  if TrackType_eqb (Track.type newTrack) (Track.type currentTrack) then
                    pushClip ntid (Clip.with_trackId ntid (retime newStartTime clip))
                      (mapFirst (Track.hasClip cid)
                         (fun tr =>
                            Track.with_clips
                              (removeFirst (Clip.hasId cid) (Track.clips tr)) tr)
                         ts1)
                  else ts1
              | None => ts1
              end
            else ts1
        | None => ts1
        end in
      updateProjectDuration (State.with_tracks ts2 s)
  | _, _ => s
  end.

Definition trimStart (newStartTime : Q) (clip : Clip.t) : Clip.t :=
  let minStart := 0 in
  let maxStart := Clip.endTime clip - 0.1 in
  let newStartTime := Qmax minStart (Qmin maxStart newStartTime) in
  let deltaTime := newStartTime - Clip.startTime clip in
  let c1 := Clip.with_startTime newStartTime clip in
  let c2 := Clip.with_sourceStartTime (orNum (Some (Clip.sourceStartTime c1)) 0 + deltaTime) c1 in
  Clip.with_duration (Clip.endTime c2 - Clip.startTime c2) c2.

Definition trimClipStart (cid : ClipId) (newStartTime : Q) (s : State.t) : State.t :=
  match getClipById cid s with
  | Some _ => State.with_tracks (modifyClip cid (trimStart newStartTime) (State.tracks s)) s
  | None => s
  end.

Definition trimEnd (newEndTime : Q) (clip : Clip.t) : Clip.t :=
  let minEnd := Clip.startTime clip + 0.1 in
  let newEndTime := Qmax minEnd newEndTime in
  let c1 := Clip.with_endTime newEndTime clip in
  Clip.with_duration (Clip.endTime c1 - Clip.startTime c1) c1.

Definition trimClipEnd (cid : ClipId) (newEndTime : Q) (s : State.t) : State.t :=
  match getClipById cid s with
  | Some _ =>
      updateProjectDuration
        (State.with_tracks (modifyClip cid (trimEnd newEndTime) (State.tracks s)) s)
  | None => s
  end.

(** ** Selection *)

Definition mapClips (f : Clip.t -> Clip.t) (ts : list Track.t) : list Track.t :=
  map (fun tr => Track.with_clips (map f (Track.clips tr)) tr) ts.

Definition allClips (ts : list Track.t) : list Clip.t :=
  flat_map Track.clips ts.

Definition pushNew (cid : ClipId) (ids : list ClipId) : list ClipId :=
  if includes cid ids then ids else ids ++ [cid].

Definition selectClip (cid : ClipId) (addToSelection : bool) (s : State.t) : State.t :=
  let s1 :=
    if addToSelection then s
    else State.with_selectedClipIds []
           (State.with_tracks (mapClips (Clip.with_isSelected false) (State.tracks s)) s) in
  match getClipById cid s1 with
  | Some _ =>
      State.with_selectedClipIds (pushNew cid (State.selectedClipIds s1))
        (State.with_tracks (modifyClip cid (Clip.with_isSelected true) (State.tracks s1)) s1)
  | None => s1
  end.

Definition deselectClip (cid : ClipId) (s : State.t) : State.t :=
  match getClipById cid s with
  | Some _ =>
      State.with_selectedClipIds (dropId cid (State.selectedClipIds s))
        (State.with_tracks (modifyClip cid (Clip.with_isSelected false) (State.tracks s)) s)
  | None => s
  end.

Definition deselectAll (s : State.t) : State.t :=
  State.with_selectedTrackId None
    (State.with_selectedClipIds []
       (State.with_tracks (mapClips (Clip.with_isSelected false) (State.tracks s)) s)).

Definition selectAllClips (s : State.t) : State.t :=
  State.with_selectedClipIds
    (fold_left (fun ids c => pushNew (Clip.id c) ids) (allClips (State.tracks s))
       (State.selectedClipIds s))
    (State.with_tracks (mapClips (Clip.with_isSelected true) (State.tracks s)) s).

(** The computed [selectedClips]. *)
Definition selectedClips (s : State.t) : list Clip.t :=
  flat_map
    (fun tr => filter (fun c => includes (Clip.id c) (State.selectedClipIds s)) (Track.clips tr))
    (State.tracks s).

(** ** Clipboard *)

Definition copySelectedClips (s : State.t) : State.t :=
  State.with_clipboard (selectedClips s) s.

Definition deleteSelectedClips (s : State.t) : State.t :=
  fold_left (fun st cid => removeClip cid st) (State.selectedClipIds s) s.

Definition cutSelectedClips (s : State.t) : State.t :=
  deleteSelectedClips (copySelectedClips s).

(** [Math.min(...l)] of a list that is not empty. *)
Definition minOf (l : list Q) : Q :=
  match l with
  | [] => 0
  | a :: l' => fold_left Qmin l' a
  end.

(** The object literal [pasteClips] passes to [addClip]. *)
Definition pasteData (pasteTime minStartTime : Q) (clipData : Clip.t) : PartialClip.t :=
  let offset := Clip.startTime clipData - minStartTime in
  PartialClip.with_isSelected (Some false)
    (PartialClip.with_endTime (Some (pasteTime + offset + Clip.duration clipData))
       (PartialClip.with_startTime (Some (pasteTime + offset))
          (PartialClip.with_id (Some None) (PartialClip.ofClip clipData)))).

Definition pasteOne (pasteTime minStartTime : Q) (s : State.t) (clipData : Clip.t) : State.t :=
  match find (fun tr => TrackType_eqb (Track.type tr) (Clip.type clipData)) (State.tracks s) with
  | Some track =>
      if negb (Track.isLocked track)
      then snd (addClip (Track.id track) (pasteData pasteTime minStartTime clipData) s)
      else s
  | None => s
  end.

Definition pasteClips (s : State.t) : State.t :=
  match State.clipboard s with
  | [] => s
  | _ :: _ =>
      let pasteTime := State.currentTime s in
      let minStartTime := minOf (map Clip.startTime (State.clipboard s)) in
      fold_left (pasteOne pasteTime minStartTime) (State.clipboard s) s
  end.

(** [duplicateSelectedClips] keeps references to the selected clip objects
    while it mutates the store.  A reference is the position of the clip:
    track index and index in [clips]; the operations of the loop only append
    clips and write flags, so positions keep their objects. *)
Definition selectedRefs (s : State.t) : list (nat * nat) :=
  flat_map
    (fun '(ti, tr) =>
       flat_map
         (fun '(ci, c) =>
            if includes (Clip.id c) (State.selectedClipIds s) then [(ti, ci)] else [])
         (combine (seq 0 (List.length (Track.clips tr))) (Track.clips tr)))
    (combine (seq 0 (List.length (State.tracks s))) (State.tracks s)).

Definition deref (r : nat * nat) (s : State.t) : option Clip.t :=
  match nth_error (State.tracks s) (fst r) with
  | Some tr => nth_error (Track.clips tr) (snd r)
  | None => None
  end.

(** The object literal [duplicateSelectedClips] passes to [addClip]. *)
Definition duplicateData (clip : Clip.t) : PartialClip.t :=
  PartialClip.with_endTime (Some (Clip.endTime clip + Clip.duration clip))
    (PartialClip.with_startTime (Some (Clip.endTime clip))
       (PartialClip.with_id (Some None) (PartialClip.ofClip clip))).

Definition duplicateOne (s : State.t) (r : nat * nat) : State.t :=
  match deref r s with
  | Some clip =>
      match getTrackByClipId (Clip.id clip) s with
      | Some track =>
          if negb (Track.isLocked track) then
            match addClip (Track.id track) (duplicateData clip) s with
            | (Some newClip, s1) => selectClip (Clip.id newClip) true s1
            | (None, s1) => s1
            end
          else s
      | None => s
      end
  | None => s
  end.

Definition duplicateSelectedClips (s : State.t) : State.t :=
  let clipsToDuplicate := selectedRefs s in
  fold_left duplicateOne clipsToDuplicate (deselectAll s).

(** ** Playback time *)

Definition updateTime (time : Q) (s : State.t) : State.t :=
  State.with_currentTime time s.

(** ** The edit operations as a language of commands *)

Inductive Op : Type :=
| OAddTrack (ty : TrackType) (name : option string)
| ORemoveTrack (tid : string)
| OAddClip (tid : string) (clipData : PartialClip.t)
| ORemoveClip (cid : ClipId)
| OUpdateClip (cid : ClipId) (updates : PartialClip.t)
| OSplitClip (cid : ClipId) (splitTime : Q)
| OMoveClip (cid : ClipId) (newStartTime : Q) (newTrackId : option string)
| OTrimClipStart (cid : ClipId) (newStartTime : Q)
| OTrimClipEnd (cid : ClipId) (newEndTime : Q)
| OSelectClip (cid : ClipId) (addToSelection : bool)
| ODeselectClip (cid : ClipId)
| ODeselectAll
| OSelectAllClips
| OCopySelectedClips
| OPasteClips
| ODuplicateSelectedClips
| OUndo
| ORedo.

Definition exec (o : Op) (s : State.t) : State.t :=
  match o with
  | OAddTrack ty name => snd (addTrack ty name s)
  | ORemoveTrack tid => removeTrack tid s
  | OAddClip tid clipData => snd (addClip tid clipData s)
  | ORemoveClip cid => removeClip cid s
  | OUpdateClip cid updates => updateClip cid updates s
  | OSplitClip cid splitTime => snd (splitClip cid splitTime s)
  | OMoveClip cid t ntid => moveClip cid t ntid s
  | OTrimClipStart cid t => trimClipStart cid t s
  | OTrimClipEnd cid t => trimClipEnd cid t s
  | OSelectClip cid add => selectClip cid add s
  | ODeselectClip cid => deselectClip cid s
  | ODeselectAll => deselectAll s
  | OSelectAllClips => selectAllClips s
  | OCopySelectedClips => copySelectedClips s
  | OPasteClips => pasteClips s
  | ODuplicateSelectedClips => duplicateSelectedClips s
  | OUndo => final (undo s)
  | ORedo => final (redo s)
  end.

Definition run (ops : list Op) (s : State.t) : State.t :=
  fold_left (fun st o => exec o st) ops s.

(** [n] calls of [undo], of [redo]. *)
Definition undoN (n : nat) (s : State.t) : State.t := Nat.iter n (fun st => final (undo st)) s.

Definition redoN (n : nat) (s : State.t) : State.t := Nat.iter n (fun st => final (redo st)) s.

(** ** The text compositor ([animateTexts]) *)

(** An element of the computed [textOverlays]. *)
Module TextOverlay.
Record t : Type := mk {
  id : ClipId;
  text : string;
  x : Q;
  y : Q;
  startTime : Q;
  endTime : Q;
  fontSize : Q;
  fontFamily : string;
  color : string;
  isSelected : bool;
  bold : bool;
  italic : bool;
  animationIn : TextAnimation.t;
  animationOut : TextAnimation.t
}.

Definition ofClip (c : Clip.t) : list t :=
  match Clip.props c with
  | PText p =>
      [mk (Clip.id c) (TextProps.text p) (TextProps.x p) (TextProps.y p)
          (Clip.startTime c) (Clip.endTime c) (TextProps.fontSize p)
          (TextProps.fontFamily p) (TextProps.color p) (Clip.isSelected c)
          (TextProps.bold p) (TextProps.italic p)
          (TextProps.animationIn p) (TextProps.animationOut p)]
  | _ => []
  end.
End TextOverlay.

Definition textOverlays (s : State.t) : list TextOverlay.t :=
  match find (fun tr => TrackType_eqb (Track.type tr) TText) (State.tracks s) with
  | Some textTrack => flat_map TextOverlay.ofClip (Track.clips textTrack)
  | None => []
  end.

(** The properties of a canvas text object that [animateTexts] writes. *)
Module TextObj.
Record t : Type := mk {
  visible : bool;
  alpha : Q;
  x : Q;
  y : Q;
  scaleX : Q;
  scaleY : Q;
  text : string
}.

Definition hide (o : t) : t :=
  mk false (alpha o) (x o) (y o) (scaleX o) (scaleY o) (text o).
End TextObj.

(** The local variables of the loop body of [animateTexts]. *)
Module Anim.
Record t : Type := mk {
  alpha : Q;
  x : Q;
  y : Q;
  scaleX : Q;
  scaleY : Q;
  textContent : string
}.
End Anim.

Definition clamp01 (progress : Q) : Q := Qmax 0 (Qmin 1 progress).

Definition textLength (s : string) : Q := inject_Z (Z.of_nat (String.length s)).

(** The [switch] of step 3: the entrance effect at the clamped progress [t]. *)
Definition entranceEffect (ty : AnimationType) (t : Q) (a : Anim.t) : Anim.t :=
  match ty with
  | AFade =>
      Anim.mk (Anim.alpha a * t) (Anim.x a) (Anim.y a) (Anim.scaleX a) (Anim.scaleY a)
        (Anim.textContent a)
  | ASlide =>
      Anim.mk (Anim.alpha a) (Anim.x a) (Anim.y a + (1 - t) * 50) (Anim.scaleX a)
        (Anim.scaleY a) (Anim.textContent a)
  | AScale =>
      Anim.mk (Anim.alpha a) (Anim.x a) (Anim.y a) t t (Anim.textContent a)
  | ATypewriter =>
      let len := Qfloor (textLength (Anim.textContent a) * t) in
      Anim.mk (Anim.alpha a) (Anim.x a) (Anim.y a) (Anim.scaleX a) (Anim.scaleY a)
        (String.substring 0 (Z.to_nat len) (Anim.textContent a))
  | ANone => a
  end.

(** Step 3 of the loop body: the entrance animation. *)
Definition animateIn (currentTime : Q) (overlay : TextOverlay.t) (a : Anim.t) : Anim.t :=
  let anim := TextOverlay.animationIn overlay in
  match TextAnimation.type anim with
  | ANone => a
  | ty =>
      let duration := TextAnimation.duration anim in
      if Qlt_bool (currentTime - TextOverlay.startTime overlay) duration then
        let progress := (currentTime - TextOverlay.startTime overlay) / duration in
        let t := clamp01 progress in
        entranceEffect ty t a
      else a
  end.

(** The [switch] of step 4: the exit effect at the clamped progress [t]; it
    has no case for the typewriter. *)
Definition exitEffect (ty : AnimationType) (t : Q) (a : Anim.t) : Anim.t :=
  match ty with
  | AFade =>
      Anim.mk (Anim.alpha a * (1 - t)) (Anim.x a) (Anim.y a) (Anim.scaleX a)
        (Anim.scaleY a) (Anim.textContent a)
  | ASlide =>
      Anim.mk (Anim.alpha a) (Anim.x a) (Anim.y a - t * 50) (Anim.scaleX a)
        (Anim.scaleY a) (Anim.textContent a)
  | AScale =>
      Anim.mk (Anim.alpha a) (Anim.x a) (Anim.y a) (1 - t) (1 - t) (Anim.textContent a)
  | _ => a
  end.

(** Step 4 of the loop body: the exit animation. *)
Definition animateOut (currentTime : Q) (overlay : TextOverlay.t) (a : Anim.t) : Anim.t :=
  let anim := TextOverlay.animationOut overlay in
  match TextAnimation.type anim with
  | ANone => a
  | ty =>
      let duration := TextAnimation.duration anim in
      let remaining := TextOverlay.endTime overlay - currentTime in
      if Qlt_bool remaining duration then
        let progress := (duration - remaining) / duration in
        let t := clamp01 progress in
        exitEffect ty t a
      else a
  end.

(** Step 2: the state before any effect. *)
Definition animInit (overlay : TextOverlay.t) : Anim.t :=
  Anim.mk (if TextOverlay.isSelected overlay then 1 else 1)
    (TextOverlay.x overlay) (TextOverlay.y overlay) 1 1 (TextOverlay.text overlay).

Definition isVisibleAt (currentTime : Q) (overlay : TextOverlay.t) : bool :=
  negb (Qlt_bool currentTime (TextOverlay.startTime overlay)
        || Qlt_bool (TextOverlay.endTime overlay) currentTime).

(** The animation state the loop body computes for a visible overlay.  For
    a visible overlay a duration that is zero or negative opens no window,
    so neither division has a zero divisor. *)
Definition animState (currentTime : Q) (overlay : TextOverlay.t) : Anim.t :=
  animateOut currentTime overlay (animateIn currentTime overlay (animInit overlay)).

(** The loop body, for one text object and the overlay [overlayMap.get(id)]. *)
Definition animateText (currentTime : Q) (overlay : option TextOverlay.t) (textObj : TextObj.t)
    : TextObj.t :=
  match overlay with
  | None => TextObj.hide textObj
  | Some o =>
      if isVisibleAt currentTime o then
        let a := animState currentTime o in
        TextObj.mk true (Anim.alpha a) (Anim.x a) (Anim.y a) (Anim.scaleX a) (Anim.scaleY a)
          (Anim.textContent a)
      else TextObj.hide textObj
  end.

(** [new Map(entries).get(id)]: a later entry replaces an earlier one. *)
Definition overlayGet (cid : ClipId) (overlays : list TextOverlay.t) : option TextOverlay.t :=
  find (fun o => ClipId_eqb (TextOverlay.id o) cid) (rev overlays).

(** [animateTexts]; [hasContainer] tells whether [textContainer] is set, and
    [textObjects] is the map of canvas objects in insertion order. *)
Definition animateTexts (hasContainer : bool) (s : State.t)
    (textObjects : list (ClipId * TextObj.t)) : list (ClipId * TextObj.t) :=
  if negb hasContainer || Nat.eqb (List.length textObjects) 0 then textObjects
  else
    let currentTime := State.currentTime s in
    let overlays := textOverlays s in
    map (fun '(cid, textObj) => (cid, animateText currentTime (overlayGet cid overlays) textObj))
      textObjects.

(** ** Predicates on the history, and sample stores *)

(** The entry [j] steps behind the cursor. *)
Definition back (s : State.t) (j : nat) : option HistoryState.t :=
  jsIndex (State.history s) (State.historyIndex s - Z.of_nat j).

(** The cursor is [-1] or points into the history. *)
Definition wfHist (s : State.t) : Prop :=
  (-1 <= State.historyIndex s < Z.of_nat (List.length (State.history s)))%Z.

(** The entry under the cursor is the live tracks and selection. *)
Definition synced (s : State.t) : Prop :=
  back s 0 = Some (snapshot s).

(** History and cursor of [s] after one [saveHistory] of the snapshot [e]. *)
Definition pushed (e : HistoryState.t) (s : State.t) : list HistoryState.t * Z :=
  let s' := saveHistory (restore e s) in
  (State.history s', State.historyIndex s').

(** From [s] to [s'] the history received exactly one snapshot, the one of
    the tracks and selection of [s']: the step is one committed edit. *)
Definition commits (s s' : State.t) : Prop :=
  (State.history s', State.historyIndex s') = pushed (snapshot s') s.

Fixpoint committed (ops : list Op) (s : State.t) : Prop :=
  match ops with
  | [] => True
  | o :: ops' => commits s (exec o s) /\ committed ops' (exec o s)
  end.

(** Everything [undo] and [redo] keep: all of the store but the tracks, the
    selected ids and the history cursor. *)
Definition keptByHistory (s s' : State.t) : Prop :=
  State.clipboard s' = State.clipboard s /\
  State.currentTime s' = State.currentTime s /\
  State.isPlaying s' = State.isPlaying s /\
  State.timelineZoom s' = State.timelineZoom s /\
  State.aspectRatio s' = State.aspectRatio s /\
  State.projectName s' = State.projectName s /\
  State.projectDuration s' = State.projectDuration s /\
  State.duration s' = State.duration s /\
  State.selectedTrackId s' = State.selectedTrackId s /\
  State.timelineScrollX s' = State.timelineScrollX s /\
  State.isSnappingEnabled s' = State.isSnappingEnabled s /\
  State.snapThreshold s' = State.snapThreshold s /\
  State.history s' = State.history s /\
  State.entropy s' = State.entropy s /\
  State.draws s' = State.draws s.

Definition sampleEntropy (n : nat) : string := showNat n.

(** The store as [defineStore] creates it. *)
Definition initialStore : State.t :=
  State.mk "Untitled Project" 0 R16_9 false 0 0 [] [] None 1 0 true 10 [] [] (-1)
    sampleEntropy 0.

(** The store after [addTrack('video', 'V1')]: one empty video track
    ["track-0"], one history entry. *)
Definition storeV1 : State.t :=
  snd (addTrack TVideo (Some "V1"%string) initialStore).

Definition emptyVideoData : PartialClip.t :=
  PartialClip.mk None None None None None None None (PPVideo PartialVideo.empty).

(** [{ startTime: a, endTime: b, duration: b - a }] for a video track. *)
Definition videoSpan (a b : Q) : PartialClip.t :=
  PartialClip.mk None None (Some a) (Some b) None (Some (b - a)) None
    (PPVideo PartialVideo.empty).

(** A clip [[0,10)] is added to the track of [storeV1], then split at [4]. *)
Definition sampleEdits : list Op :=
  [OAddClip "track-0" (videoSpan 0 10); OSplitClip (Some "clip-1"%string) 4].

(** ** Where a clip id is found *)

(** [getClipById cid] finds the clip [c]: the first track that has a clip
    with the id is [tr], between [before] and [after], and [c] is the first
    such clip of [tr], between [pre] and [post]. *)
Definition located (cid : ClipId) (ts : list Track.t)
    (before : list Track.t) (tr : Track.t) (after : list Track.t)
    (pre : list Clip.t) (c : Clip.t) (post : list Clip.t) : Prop :=
  ts = (before ++ tr :: after)%list /\
  Forall (fun t => Track.hasClip cid t = false) before /\
  Track.clips tr = (pre ++ c :: post)%list /\
  Forall (fun x => Clip.hasId cid x = false) pre /\
  Clip.hasId cid c = true.

(** The tracks [ts] with the clips [cs] in place of the clip at a location. *)
Definition relocated (before : list Track.t) (tr : Track.t) (after : list Track.t)
    (pre : list Clip.t) (cs : list Clip.t) (post : list Clip.t) : list Track.t :=
  (before ++ Track.with_clips (pre ++ cs ++ post) tr :: after)%list.

(** No track, no clip of the store has the id. *)
Definition trackMissing (tid : string) (s : State.t) : Prop :=
  forall tr, In tr (State.tracks s) -> Track.id tr <> tid.

Definition clipMissing (cid : ClipId) (s : State.t) : Prop :=
  forall c, In c (allClips (State.tracks s)) -> Clip.id c <> cid.

(** [storeV1] with one video clip ["clip-1"] covering [[0,10)]. *)
Definition storeA : State.t :=
  exec (OAddClip "track-0" (videoSpan 0 10)) storeV1.

(** The clip of [storeA]. *)
Definition clipA : Clip.t :=
  buildClip "clip-1" "track-0" TVideo (videoSpan 0 10) 0.

(** [storeV1] with one video clip ["clip-1"] covering [[0,1/16)], as a split
    of a longer clip at [1/16] leaves it. *)
Definition storeTiny : State.t :=
  exec (OAddClip "track-0" (videoSpan 0 (1 # 16))) storeV1.

Definition clipTiny : Clip.t :=
  buildClip "clip-1" "track-0" TVideo (videoSpan 0 (1 # 16)) 0.

(** ** Snapping, as a proposition *)

(** [point] is within the snap threshold of [time]. *)
Definition near (s : State.t) (time point : Q) : Prop :=
  withinThreshold s time point = true.

(** The clips of the store other than those with the id [cid]. *)
Definition otherClips (cid : ClipId) (s : State.t) : list Clip.t :=
  filter (fun c => negb (Clip.hasId cid c)) (allClips (State.tracks s)).

(** [storeA] with a second video clip ["clip-2"] covering [[20,25)]. *)
Definition storeB : State.t :=
  exec (OAddClip "track-0" (videoSpan 20 25)) storeA.

Definition clipB : Clip.t :=
  buildClip "clip-2" "track-0" TVideo (videoSpan 20 25) 0.

(** ** The time invariant of clips *)

(** What C3 asks of a clip. *)
Definition timed (c : Clip.t) : Prop :=
  Clip.startTime c < Clip.endTime c /\
  Clip.duration c == Clip.endTime c - Clip.startTime c.

(** A valid clip: timed, and not before the origin of the timeline. *)
Definition validClip (c : Clip.t) : Prop :=
  0 <= Clip.startTime c /\ timed c.

Definition validTracks (ts : list Track.t) : Prop :=
  Forall (fun tr => Forall validClip (Track.clips tr)) ts.

(** A valid store: the playhead is not negative, and the clips of the
    tracks, of the clipboard and of every history entry are valid. *)
Definition validStore (s : State.t) : Prop :=
  0 <= State.currentTime s /\
  validTracks (State.tracks s) /\
  Forall validClip (State.clipboard s) /\
  Forall (fun h => validTracks (HistoryState.tracks h)) (State.history s).

(** The condition on the data given to [addClip] and [updateClip]: the clip
    they build or change is valid.  Every other operation is free. *)
Definition guard (o : Op) (s : State.t) : Prop :=
  match o with
  | OAddClip tid clipData =>
      forall newId ty, validClip (buildClip newId tid ty clipData (State.currentTime s))
  | OUpdateClip cid updates =>
      forall c, getClipById cid s = Some c -> validClip (PartialClip.assign updates c)
  | _ => True
  end.

Fixpoint guarded (ops : list Op) (s : State.t) : Prop :=
  match ops with
  | [] => True
  | o :: ops' => guard o s /\ guarded ops' (exec o s)
  end.

(** [{ startTime: a }] for a video clip. *)
Definition videoStart (a : Q) : PartialClip.t :=
  PartialClip.mk None None (Some a) None None None None (PPVideo PartialVideo.empty).

(** The literal of the stock-image placeholder of the canvas component:
    [{ type: 'text', text, startTime: 0, duration: 5, x: 500, y: 300,
       fontSize: 32, backgroundColor: '#444444' }]. *)
Definition stockImageData (title : string) : PartialClip.t :=
  PartialClip.mk None None (Some 0) None None (Some 5) None
    (PPText
       (PartialText.mk (Some title) (Some 500) (Some 300) (Some 32) None None
          (Some "#444444"%string) None None None None None None None None None None)).

(** The store with the playhead at 7 when the placeholder is added: a text
    track ["track-0"] named as the component names it, then the clip. *)
Definition storeStock : State.t :=
  let s := updateTime 7 initialStore in
  let (track, s1) := addTrack TText (Some "Stock Images"%string) s in
  snd (addClip (Track.id track) (stockImageData "[Image: sky]") s1).

(** [storeB] with its two clips selected and copied, and the playhead at 30. *)
Definition storeC : State.t :=
  updateTime 30 (copySelectedClips (selectAllClips storeB)).

(** A session on [storeC] that uses each operation C3 names. *)
Definition sampleSession : list Op :=
  [OPasteClips;
   ODuplicateSelectedClips;
   OSplitClip (Some "clip-1"%string) 4;
   OMoveClip (Some "clip-2"%string) (201 # 20) None;
   OTrimClipStart (Some "clip-1"%string) 1;
   OTrimClipEnd (Some "clip-1"%string) 3;
   OUpdateClip (Some "clip-1"%string) (videoSpan 1 2);
   OAddClip "track-0" (videoSpan 40 45);
   OUndo; OUndo; ORedo].

(** ** Selection consistency, and sample stores for the clipboard *)

(** The [isSelected] flag of every clip on a track says whether the id of
    the clip is among [selectedClipIds]. *)
Definition consistent (s : State.t) : Prop :=
  forall c, In c (allClips (State.tracks s)) ->
            (Clip.isSelected c = true <-> In (Clip.id c) (State.selectedClipIds s)).

(** [consistent], decided on the clips of the store. *)
Definition consistentb (s : State.t) : bool :=
  forallb
    (fun c => Bool.eqb (Clip.isSelected c) (includes (Clip.id c) (State.selectedClipIds s)))
    (allClips (State.tracks s)).

(** Id and times of the clips of the store, track after track. *)
Definition clipSpans (s : State.t) : list (ClipId * Q * Q) :=
  map (fun c => (Clip.id c, Clip.startTime c, Clip.endTime c)) (allClips (State.tracks s)).

(** A video track with the clips ["clip-1"] on [[2,5)] and ["clip-2"] on
    [[5,8)], both selected and copied while the playhead was at 0; then the
    playhead is moved to 10. *)
Definition storeP : State.t :=
  updateTime 10
    (run [OAddClip "track-0" (videoSpan 2 5); OAddClip "track-0" (videoSpan 5 8);
          OSelectAllClips; OCopySelectedClips] storeV1).

(** ** Windows and progress of the text animations *)

Definition inWindow (currentTime : Q) (o : TextOverlay.t) : Prop :=
  TextAnimation.type (TextOverlay.animationIn o) <> ANone /\
  currentTime - TextOverlay.startTime o < TextAnimation.duration (TextOverlay.animationIn o).

Definition outWindow (currentTime : Q) (o : TextOverlay.t) : Prop :=
  TextAnimation.type (TextOverlay.animationOut o) <> ANone /\
  TextOverlay.endTime o - currentTime < TextAnimation.duration (TextOverlay.animationOut o).

Definition inProgress (currentTime : Q) (o : TextOverlay.t) : Q :=
  clamp01 ((currentTime - TextOverlay.startTime o)
           / TextAnimation.duration (TextOverlay.animationIn o)).

Definition outProgress (currentTime : Q) (o : TextOverlay.t) : Q :=
  clamp01 ((TextAnimation.duration (TextOverlay.animationOut o)
            - (TextOverlay.endTime o - currentTime))
           / TextAnimation.duration (TextOverlay.animationOut o)).

(** The state the exit effect alone gives: what "exit takes precedence"
    asks for inside both windows. *)
Definition exitOnly (currentTime : Q) (o : TextOverlay.t) : Anim.t :=
  animateOut currentTime o (animInit o).

(** A text overlay on [[0,1]] at [(100,100)] with the given animations. *)
Definition shortOverlay (animIn animOut : TextAnimation.t) : TextOverlay.t :=
  TextOverlay.mk (Some "clip-1"%string) "Hi" 100 100 0 1 32 "Arial" "#ffffff" false false false
    animIn animOut.

Definition fade1 : TextAnimation.t := TextAnimation.mk AFade 1 None.

Definition blankObj : TextObj.t := TextObj.mk false 1 0 0 1 1 "".

(** ** The selection invariant *)

Definition idsOf (cs : list Clip.t) : list ClipId := map Clip.id cs.

(** Clips [cs] and selected ids [ids] agree: the clips have distinct ids, no
    id is selected twice, and a clip is flagged exactly when its id is
    selected. *)
Definition selOk (cs : list Clip.t) (ids : list ClipId) : Prop :=
  NoDup (idsOf cs) /\
  NoDup ids /\
  forall c, In c cs -> (Clip.isSelected c = true <-> In (Clip.id c) ids).

(** The live tracks and selection agree, and so does every history entry. *)
Definition selInv (s : State.t) : Prop :=
  selOk (allClips (State.tracks s)) (State.selectedClipIds s) /\
  Forall
    (fun h => selOk (allClips (HistoryState.tracks h)) (HistoryState.selectedClipIds h))
    (State.history s).

(** The id [generateId] is about to return is the id of no clip on the
    tracks and is not selected. *)
Definition freshId (s : State.t) : Prop :=
  let nid := Some (fst (generateId "clip" s)) in
  ~ In nid (idsOf (allClips (State.tracks s))) /\ ~ In nid (State.selectedClipIds s).

(** The operations that keep the selection invariant: those C8 names, but
    for [pasteClips] and [duplicateSelectedClips], and the operations that
    write neither an id, a flag nor the selection.  [splitClip] and [addClip]
    need the random generator to return an unused id, and [addClip] data
    that carry no id and do not set the flag. *)
Definition selGuard (o : Op) (s : State.t) : Prop :=
  match o with
  | OSelectClip _ _ | ODeselectClip _ | ODeselectAll | OSelectAllClips => True
  | ORemoveClip _ | ORemoveTrack _ | OUndo | ORedo => True
  | OAddTrack _ _ | OTrimClipStart _ _ | OTrimClipEnd _ _ | OCopySelectedClips => True
  | OSplitClip _ _ => freshId s
  | OAddClip _ clipData =>
      PartialClip.id clipData = None /\
      PartialClip.isSelected clipData <> Some true /\
      freshId s
  | _ => False
  end.

Fixpoint selGuarded (ops : list Op) (s : State.t) : Prop :=
  match ops with
  | [] => True
  | o :: ops' => selGuard o s /\ selGuarded ops' (exec o s)
  end.

(** A session of selections, a split, removals and undos on a new store. *)
Definition selectionSession : list Op :=
  [OAddTrack TVideo (Some "V1"%string);
   OAddClip "track-0" (videoSpan 0 10);
   OAddClip "track-0" (videoSpan 20 25);
   OSelectAllClips;
   OSplitClip (Some "clip-1"%string) 4;
   ODeselectClip (Some "clip-2"%string);
   OSelectClip (Some "clip-3"%string) true;
   ORemoveClip (Some "clip-1"%string);
   OUndo;
   ORemoveTrack "track-0";
   OUndo; ORedo;
   ODeselectAll].

(** One clip ["clip-1"] on [[2,5)] copied and pasted at 10, the pasted clip
    then selected by a click on it: [selectClip(clip.id)] with its id. *)
Definition storeQ : State.t :=
  selectClip None false
    (pasteClips
       (updateTime 10
          (run [OAddClip "track-0" (videoSpan 2 5); OSelectAllClips; OCopySelectedClips]
             storeV1))).

(** ** The history within its bounds *)

(** The cursor points into the history or is [-1], and the history holds at
    most [maxHistorySize] entries. *)
Definition histOk (s : State.t) : Prop :=
  wfHist s /\ (List.length (State.history s) <= maxHistorySize)%nat.

(** The operations whose code has no call of [saveHistory]. *)
Definition takesNoSnapshot (o : Op) : bool :=
  match o with
  | OUpdateClip _ _ | OMoveClip _ _ _ | OTrimClipStart _ _ | OTrimClipEnd _ _ => true
  | OSelectClip _ _ | ODeselectClip _ | ODeselectAll | OSelectAllClips => true
  | OCopySelectedClips => true
  | _ => false
  end.

(** ** Deciding the agreement of flags and selected ids *)

Fixpoint distinct (ids : list ClipId) : bool :=
  match ids with
  | [] => true
  | a :: l => negb (includes a l) && distinct l
  end.

(** [selOk], decided. *)
Definition selOkb (cs : list Clip.t) (ids : list ClipId) : bool :=
  distinct (idsOf cs) && distinct ids &&
  forallb (fun c => Bool.eqb (Clip.isSelected c) (includes (Clip.id c) ids)) cs.

(** ** [updateTrack] and locked tracks *)

(** [Partial<Track>]. *)
Module PartialTrack.
Record t : Type := mk {
  id : option string;
  type : option TrackType;
  name : option string;
  order : option Z;
  isLocked : option bool;
  isVisible : option bool;
  isMuted : option bool;
  clips : option (list Clip.t)
}.

Definition empty : t := mk None None None None None None None None.

(** [Object.assign(track, d)]. *)
Definition assign (d : t) (tr : Track.t) : Track.t :=
  Track.mk
    (spread (id d) (Track.id tr))
    (spread (type d) (Track.type tr))
    (spread (name d) (Track.name tr))
    (spread (order d) (Track.order tr))
    (spread (isLocked d) (Track.isLocked tr))
    (spread (isVisible d) (Track.isVisible tr))
    (spread (isMuted d) (Track.isMuted tr))
    (spread (clips d) (Track.clips tr)).
End PartialTrack.

Definition updateTrack (tid : string) (updates : PartialTrack.t) (s : State.t) : State.t :=
  match find (Track.hasId tid) (State.tracks s) with
  | Some _ =>
      State.with_tracks
        (mapFirst (Track.hasId tid) (PartialTrack.assign updates) (State.tracks s)) s
  | None => s
  end.

(** [{ isLocked: b }], as [toggleTrackLock] of the timeline passes it. *)
Definition lockData (b : bool) : PartialTrack.t :=
  PartialTrack.mk None None None None (Some b) None None None.

(** Every track of the store is locked. *)
Definition allLocked (s : State.t) : Prop :=
  Forall (fun tr => Track.isLocked tr = true) (State.tracks s).

(** The first track of the type of [c], the track [pasteClips] adds a copy
    of [c] to. *)
Definition pasteTarget (c : Clip.t) (s : State.t) : option Track.t :=
  find (fun tr => TrackType_eqb (Track.type tr) (Clip.type c)) (State.tracks s).

(** [storeC] with a second video track, and the first one locked. *)
Definition storeLocked : State.t :=
  updateTrack "track-0" (lockData true) (snd (addTrack TVideo None storeC)).

(** ** Timeline view actions *)

Definition with_timelineScrollX (v : Q) (s : State.t) : State.t :=
  State.mk (State.projectName s) (State.projectDuration s) (State.aspectRatio s)
    (State.isPlaying s) (State.currentTime s) (State.duration s) (State.tracks s)
    (State.selectedClipIds s) (State.selectedTrackId s) (State.timelineZoom s) v
    (State.isSnappingEnabled s) (State.snapThreshold s) (State.clipboard s)
    (State.history s) (State.historyIndex s) (State.entropy s) (State.draws s).

Definition with_aspectRatio (v : AspectRatioPreset) (s : State.t) : State.t :=
  State.mk (State.projectName s) (State.projectDuration s) v
    (State.isPlaying s) (State.currentTime s) (State.duration s) (State.tracks s)
    (State.selectedClipIds s) (State.selectedTrackId s) (State.timelineZoom s)
    (State.timelineScrollX s) (State.isSnappingEnabled s) (State.snapThreshold s)
    (State.clipboard s) (State.history s) (State.historyIndex s) (State.entropy s)
    (State.draws s).

Definition zoomIn (s : State.t) : State.t :=
  State.with_timelineZoom (Qmin (State.timelineZoom s * 1.5) 10) s.

Definition zoomOut (s : State.t) : State.t :=
  State.with_timelineZoom (Qmax (State.timelineZoom s / 1.5) 0.1) s.

Definition zoomToFit (s : State.t) : State.t :=
  with_timelineScrollX 0 (State.with_timelineZoom 1 s).

Definition toggleSnapping (s : State.t) : State.t :=
  State.with_isSnappingEnabled (negb (State.isSnappingEnabled s)) s.

Definition setAspectRatio (ratio : AspectRatioPreset) (s : State.t) : State.t :=
  with_aspectRatio ratio s.

(** The settings of the view and of the playback. *)
Definition settings (s : State.t)
    : string * AspectRatioPreset * bool * Q * Q * Q * bool * Q :=
  (State.projectName s, State.aspectRatio s, State.isPlaying s, State.currentTime s,
   State.timelineZoom s, State.timelineScrollX s, State.isSnappingEnabled s,
   State.snapThreshold s).

(** The actions of the timeline: the edit operations and the view actions. *)
Inductive Action : Type :=
| AEdit (o : Op)
| AZoomIn
| AZoomOut
| AZoomToFit
| AToggleSnapping
| ASetAspectRatio (ratio : AspectRatioPreset)
| AUpdateTime (time : Q).

Definition act (a : Action) (s : State.t) : State.t :=
  match a with
  | AEdit o => exec o s
  | AZoomIn => zoomIn s
  | AZoomOut => zoomOut s
  | AZoomToFit => zoomToFit s
  | AToggleSnapping => toggleSnapping s
  | ASetAspectRatio ratio => setAspectRatio ratio s
  | AUpdateTime time => updateTime time s
  end.

Definition perform (l : list Action) (s : State.t) : State.t :=
  fold_left (fun st a => act a st) l s.

(** The zoom is between the two bounds of [zoomOut] and [zoomIn]. *)
Definition zoomInRange (s : State.t) : Prop :=
  0.1 <= State.timelineZoom s /\ State.timelineZoom s <= 10.

(** ** The aspect ratio and the canvas area *)

(** [aspectRatio.split(':').map(Number)]. *)
Definition ratioOf (r : AspectRatioPreset) : Q * Q :=
  match r with
  | R16_9 => (16, 9)
  | R9_16 => (9, 16)
  | R1_1 => (1, 1)
  | R4_5 => (4, 5)
  | R4_3 => (4, 3)
  | R21_9 => (21, 9)
  | R2_3 => (2, 3)
  end.

(** [Math.round]: the nearest whole number, a half goes up. *)
Definition mathRound (x : Q) : Z := Qfloor (x + (1 # 2)).

Module Size.
Record t : Type := mk {
  width : Q;
  height : Q
}.
End Size.

Definition getAspectRatioDimensions (s : State.t) : Size.t :=
  let (w, h) := ratioOf (State.aspectRatio s) in
  let baseWidth := 1920 in
  Size.mk baseWidth (inject_Z (mathRound (baseWidth * (h / w)))).

Module Area.
Record t : Type := mk {
  x : Q;
  y : Q;
  width : Q;
  height : Q
}.
End Area.

(** [getCanvasArea] of the canvas component; [screen] is [app.screen], and
    [None] when the application is not set. *)
Definition getCanvasArea (screen : option Size.t) (s : State.t) : Area.t :=
  match screen with
  | None => Area.mk 0 0 800 450
  | Some scr =>
      let (ratioW, ratioH) := ratioOf (State.aspectRatio s) in
      let containerWidth := Size.width scr in
      let containerHeight := Size.height scr in
      let (areaWidth, areaHeight) :=
        if ltJs (ratioW / ratioH) (jsDiv containerWidth containerHeight) then
          let areaHeight := containerHeight * 0.9 in
          (areaHeight * (ratioW / ratioH), areaHeight)
        else
          let areaWidth := containerWidth * 0.9 in
          (areaWidth, areaWidth * (ratioH / ratioW)) in
      Area.mk ((containerWidth - areaWidth) / 2) ((containerHeight - areaHeight) / 2)
        areaWidth areaHeight
  end.

(** ** [formatTime] *)

(** The whole part of a number, towards zero. *)
Definition Qtrunc (x : Q) : Z := if Qle_bool 0 x then Qfloor x else Qceiling x.

(** [a % b]: the remainder has the sign of [a]. *)
Definition jsRem (a b : Q) : Q := a - b * inject_Z (Qtrunc (a / b)).

(** [n.toString()] for a whole number. *)
Definition showZ (z : Z) : string := DecimalString.NilZero.string_of_int (Z.to_int z).

(** [str.padStart(2, '0')]. *)
Definition padStart2 (str : string) : string :=
  match String.length str with
  | O => "00"
  | S O => "0" ++ str
  | _ => str
  end.

Definition formatTime (seconds : Q) : string :=
  let mins := Qfloor (seconds / 60) in
  let secs := Qfloor (jsRem seconds 60) in
  (padStart2 (showZ mins) ++ ":" ++ padStart2 (showZ secs))%string.

(** ** Texts: the getter [visibleTexts], [updateTextVisibility] and the
    text actions of the store *)

Definition visibleTexts (s : State.t) : list TextOverlay.t :=
  filter
    (fun t => Qle_bool (TextOverlay.startTime t) (State.currentTime s)
              && Qle_bool (State.currentTime s) (TextOverlay.endTime t))
    (textOverlays s).

(** The loop body of [updateTextVisibility] of the canvas component. *)
Definition updateVisible (currentTime : Q) (overlay : option TextOverlay.t)
    (textObj : TextObj.t) : TextObj.t :=
  match overlay with
  | Some o =>
      TextObj.mk
        (Qle_bool (TextOverlay.startTime o) currentTime
         && Qle_bool currentTime (TextOverlay.endTime o))
        (if TextOverlay.isSelected o then 1 else 0.95)
        (TextObj.x textObj) (TextObj.y textObj) (TextObj.scaleX textObj)
        (TextObj.scaleY textObj) (TextObj.text textObj)
  | None => textObj
  end.

Definition updateTextVisibility (hasContainer : bool) (s : State.t)
    (textObjects : list (ClipId * TextObj.t)) : list (ClipId * TextObj.t) :=
  if negb hasContainer || Nat.eqb (List.length textObjects) 0 then textObjects
  else
    let currentTime := State.currentTime s in
    let overlays := textOverlays s in
    map (fun '(cid, textObj) => (cid, updateVisible currentTime (overlayGet cid overlays) textObj))
      textObjects.

(** The object literal [addText] passes to [addClip]. *)
Definition addTextData (text : string) (s : State.t) : PartialClip.t :=
  PartialClip.mk None None
    (Some (State.currentTime s))
    (Some (Qmin (State.currentTime s + 3)
             (orNum (Some (State.duration s)) (State.currentTime s + 3))))
    None (Some 3) None
    (PPText
       (PartialText.mk (Some text) None None None None None None None None None None None
          None None None None None)).

(** [addText]; the result is [clip?.id]. *)
Definition addText (text : option string) (s : State.t) : option ClipId * State.t :=
  let text := spread text defaultText in
  let (textTrack, s1) :=
    match find (fun t => TrackType_eqb (Track.type t) TText) (State.tracks s) with
    | Some tr => (tr, s)
    | None => addTrack TText (Some "Text 1"%string) s
    end in
  match addClip (Track.id textTrack) (addTextData text s1) s1 with
  | (Some clip, s2) => (Some (Clip.id clip), selectClip (Clip.id clip) false s2)
  | (None, s2) => (None, s2)
  end.

(** [{ startTime, endTime, duration: endTime - startTime }]. *)
Definition timingData (startTime endTime : Q) : PartialClip.t :=
  PartialClip.mk None None (Some startTime) (Some endTime) None (Some (endTime - startTime))
    None (PPText PartialText.empty).

Definition updateTextTiming (id : ClipId) (startTime endTime : Q) (s : State.t) : State.t :=
  updateClip id (timingData startTime endTime) s.

(** [{ x, y }]. *)
Definition positionData (x y : Q) : PartialClip.t :=
  PartialClip.mk None None None None None None None
    (PPText
       (PartialText.mk None (Some x) (Some y) None None None None None None None None None
          None None None None None)).

Definition updateTextPosition (id : ClipId) (x y : Q) (s : State.t) : State.t :=
  updateClip id (positionData x y) s.

(** The bounds the animation state of the overlay [o] stays in; [lo] is how
    far the text may be above its place. *)
Definition animBounds (o : TextOverlay.t) (lo : Q) (a : Anim.t) : Prop :=
  (0 <= Anim.alpha a /\ Anim.alpha a <= 1) /\
  Anim.x a = TextOverlay.x o /\
  (TextOverlay.y o - lo <= Anim.y a /\ Anim.y a <= TextOverlay.y o + 50) /\
  (0 <= Anim.scaleX a /\ Anim.scaleX a <= 1) /\
  Anim.scaleY a = Anim.scaleX a /\
  String.prefix (Anim.textContent a) (TextOverlay.text o) = true.

(** ** [splitSelectedClipsAtPlayhead] *)

(** The ids of the clips the loop splits: the ids of the selected clips the
    playhead is strictly inside of. *)
Definition clipsToSplit (s : State.t) : list Clip.t :=
  filter
    (fun clip => Qlt_bool (Clip.startTime clip) (State.currentTime s)
                 && Qlt_bool (State.currentTime s) (Clip.endTime clip))
    (selectedClips s).

Definition splitSelectedClipsAtPlayhead (s : State.t) : State.t :=
  fold_left (fun st clip => snd (splitClip (Clip.id clip) (State.currentTime st) st))
    (clipsToSplit s) s.

(** ** [reorderTracks] *)

Definition with_order (v : Z) (tr : Track.t) : Track.t :=
  Track.mk (Track.id tr) (Track.type tr) (Track.name tr) v (Track.isLocked tr)
    (Track.isVisible tr) (Track.isMuted tr) (Track.clips tr).

(** The index at which [array.splice(i, ...)] starts in an array of length
    [len], for a whole number [i]: a negative index counts from the end,
    and the result is kept within [0 .. len]. *)
Definition spliceStart (len : nat) (i : Z) : nat :=
  if (i <? 0)%Z then Z.to_nat (Z.max 0 (Z.of_nat len + i))
  else Nat.min (Z.to_nat i) len.

Fixpoint removeAt {A : Type} (n : nat) (l : list A) : list A :=
  match l, n with
  | [], _ => []
  | _ :: l', O => l'
  | a :: l', S n' => a :: removeAt n' l'
  end.

Definition insertAt {A : Type} (n : nat) (a : A) (l : list A) : list A :=
  (firstn n l ++ a :: skipn n l)%list.

(** [tracks.forEach((t, i) => t.order = i)], counting from [i]. *)
Fixpoint renumberFrom (i : nat) (ts : list Track.t) : list Track.t :=
  match ts with
  | [] => []
  | t :: ts' => with_order (Z.of_nat i) t :: renumberFrom (S i) ts'
  end.

(** [reorderTracks] for whole indexes.  When [fromIndex] points at no track,
    the first [splice] removes nothing, the second one inserts [undefined],
    and the [forEach] throws a [TypeError] on it, before [saveHistory]: the
    result is [None], and the store is then outside of this model. *)
Definition reorderTracks (fromIndex toIndex : Z) (s : State.t) : option State.t :=
  let from := spliceStart (List.length (State.tracks s)) fromIndex in
  match nth_error (State.tracks s) from with
  | Some track =>
      let rest := removeAt from (State.tracks s) in
      let to := spliceStart (List.length rest) toIndex in
      Some (saveHistory (State.with_tracks (renumberFrom 0 (insertAt to track rest)) s))
  | None => None
  end.

(** A track without its place in the order. *)
Definition unordered (tr : Track.t) : Track.t := with_order 0 tr.

(** ** Loading a video *)

(** The refs of the store that hold the media: the name of the file, its
    object URL, and whether the video element is set. *)
Module Media.
Record t : Type := mk {
  videoFile : option string;
  videoUrl : string;
  videoElement : bool
}.
End Media.

Definition hasTrackOfType (ty : TrackType) (s : State.t) : bool :=
  existsb (fun t => TrackType_eqb (Track.type t) ty) (State.tracks s).

(** [if (!tracks.some(t => t.type === ty)) addTrack(ty, name)]. *)
Definition ensureTrack (ty : TrackType) (name : string) (s : State.t) : State.t :=
  if negb (hasTrackOfType ty s) then snd (addTrack ty (Some name) s) else s.

(** [setVideoFile]; [fileName] is the name of the file and [url] the URL that
    [URL.createObjectURL] returns for it. *)
Definition setVideoFile (fileName url : string) (st : Media.t * State.t)
    : Media.t * State.t :=
  let (m, s) := st in
  (Media.mk (Some fileName) url (Media.videoElement m),
   ensureTrack TText "Text 1" (ensureTrack TAudio "Audio 1" (ensureTrack TVideo "Video 1" s))).

(** The object literal [setDuration] passes to [addClip]. *)
Definition mainClipData (m : Media.t) (dur : Q) : PartialClip.t :=
  PartialClip.mk None None (Some 0) (Some dur) (Some 0) (Some dur) None
    (PPVideo
       (PartialVideo.mk (Some (Media.videoUrl m)) (Some (orStr (Media.videoFile m) "video"))
          (Some dur) None None None None None None None None None None)).

Definition setDuration (dur : Q) (st : Media.t * State.t) : Media.t * State.t :=
  let (m, s) := st in
  let s1 := State.with_duration dur s in
  match find (fun t => TrackType_eqb (Track.type t) TVideo) (State.tracks s1) with
  | Some videoTrack =>
      if Nat.eqb (List.length (Track.clips videoTrack)) 0
         && negb (String.eqb (Media.videoUrl m) EmptyString)
      then (m, snd (addClip (Track.id videoTrack) (mainClipData m dur) s1))
      else (m, s1)
  | None => (m, s1)
  end.

Definition reset (st : Media.t * State.t) : Media.t * State.t :=
  let (m, s) := st in
  (Media.mk None "" false,
   State.with_historyIndex (-1)
     (State.with_history []
        (State.with_selectedTrackId None
           (State.with_selectedClipIds []
              (State.with_tracks []
                 (State.with_duration 0
                    (State.with_currentTime 0 (State.with_isPlaying false s)))))))).

(** ** What [pasteClips] reads of the tracks *)

(** Id, type and lock of the tracks, in their order. *)
Definition shape (ts : list Track.t) : list (string * TrackType * bool) :=
  map (fun tr => (Track.id tr, Track.type tr, Track.isLocked tr)) ts.

(** ** Captions and stock images of the canvas component *)

(** The two object literals of [generateCaptions]. *)
Definition captionData1 : PartialClip.t :=
  PartialClip.mk None None (Some 0.5) (Some 3.0) None (Some 2.5) None
    (PPText
       (PartialText.mk (Some "안녕하세요! 비디오 편집기 데모입니다."%string) (Some 960) (Some 900)
          (Some 48) None (Some "#ffffff"%string) (Some "#000000"%string) (Some 0.6) None None
          None None None None None (Some (TextAnimation.mk AFade 0.3 None)) None)).

Definition captionData2 : PartialClip.t :=
  PartialClip.mk None None (Some 3.5) (Some 6.5) None (Some 3.0) None
    (PPText
       (PartialText.mk (Some "AI가 자동으로 자막을 생성했습니다."%string) (Some 960) (Some 900)
          (Some 48) None (Some "#ffff00"%string) None None None (Some true)
          None None None None None (Some (TextAnimation.mk ATypewriter 1.0 None)) None)).

(** [generateCaptions]: a new text track with the two captions. *)
Definition generateCaptions (s : State.t) : State.t :=
  let (track, s1) := addTrack TText (Some "AI Subtitles"%string) s in
  snd (addClip (Track.id track) captionData2
         (snd (addClip (Track.id track) captionData1 s1))).

(** The image branch of [addStockItem]: a new text track with the
    placeholder of the image. *)
Definition addStockImage (title : string) (s : State.t) : State.t :=
  let (track, s1) := addTrack TText (Some "Stock Images"%string) s in
  snd (addClip (Track.id track) (stockImageData ("[Image: " ++ title ++ "]")) s1).

(** What the canvas shows of an overlay: its text and its span. *)
Definition overlaySpans (s : State.t) : list (string * Q * Q) :=
  map (fun o => (TextOverlay.text o, TextOverlay.startTime o, TextOverlay.endTime o))
    (textOverlays s).

(** * Properties *)

(** ** Basic facts on the helpers *)

Lemma Qlt_bool_iff (a b : Q) : Qlt_bool a b = true <-> a < b.
Proof.
  unfold Qlt_bool. rewrite negb_true_iff.
  split; intro H.
  - apply Qnot_le_lt. intro Hle. apply Qle_bool_iff in Hle. congruence.
  - destruct (Qle_bool b a) eqn:E; [|reflexivity].
    apply Qle_bool_iff in E. lra.
Qed.

Lemma snapshot_restore (e : HistoryState.t) (s : State.t) : snapshot (restore e s) = e.
Proof. destruct e; reflexivity. Qed.

Lemma jsIndex_Some_range {A : Type} (l : list A) (i : Z) (a : A) :
  jsIndex l i = Some a -> (0 <= i < Z.of_nat (List.length l))%Z.
Proof.
  unfold jsIndex. destruct (i <? 0)%Z eqn:E; [discriminate|].
  intro H. apply Z.ltb_ge in E.
  assert (Hn : (Z.to_nat i < List.length l)%nat).
  { apply nth_error_Some. congruence. }
  lia.
Qed.

Lemma jsIndex_in_range {A : Type} (l : list A) (i : Z) :
  (0 <= i < Z.of_nat (List.length l))%Z -> exists a, jsIndex l i = Some a.
Proof.
  intros [H0 H1]. unfold jsIndex.
  destruct (i <? 0)%Z eqn:E; [apply Z.ltb_lt in E; lia|].
  destruct (nth_error l (Z.to_nat i)) eqn:N; [eauto|].
  apply nth_error_None in N. lia.
Qed.

Lemma synced_wfHist (s : State.t) : synced s -> wfHist s /\ (0 <= State.historyIndex s)%Z.
Proof.
  unfold synced, back, wfHist. intro H.
  apply jsIndex_Some_range in H. simpl in H. lia.
Qed.

(** ** History: committed edits, undo and redo *)

Lemma slice0_nonneg {A : Type} (e : Z) (l : list A) :
  (0 <= e)%Z -> slice0 e l = firstn (Z.to_nat e) l.
Proof.
  intro H. unfold slice0. destruct (e <? 0)%Z eqn:E; [apply Z.ltb_lt in E; lia|reflexivity].
Qed.

(** The list [saveHistory] holds before it checks the capacity. *)
Lemma saveHistory_cases (s : State.t) :
  wfHist s ->
  let k := Z.to_nat (State.historyIndex s + 1) in
  let h := (firstn k (State.history s) ++ [snapshot s])%list in
  List.length h = S k /\
  ((S k <= maxHistorySize)%nat /\
     State.history (saveHistory s) = h /\
     State.historyIndex (saveHistory s) = (State.historyIndex s + 1)%Z
   \/
   (maxHistorySize < S k)%nat /\
     State.history (saveHistory s) = tl h /\
     State.historyIndex (saveHistory s) = State.historyIndex s).
Proof.
  intros Hwf k h. unfold wfHist in Hwf.
  assert (Hlen : List.length h = S k).
  { unfold h. rewrite length_app, firstn_length_le; simpl; lia. }
  split; [exact Hlen|].
  unfold saveHistory. rewrite slice0_nonneg by lia. fold k. fold h.
  rewrite Hlen.
  destruct (maxHistorySize <? S k)%nat eqn:E.
  - apply Nat.ltb_lt in E. right. simpl. auto.
  - apply Nat.ltb_ge in E. left. simpl. auto.
Qed.

Lemma nth_error_tl {A : Type} (l : list A) (n : nat) :
  nth_error (tl l) n = nth_error l (S n).
Proof. destruct l; [destruct n|]; reflexivity. Qed.

Lemma saveHistory_wf (s : State.t) :
  wfHist s ->
  wfHist (saveHistory s) /\
  State.historyIndex (saveHistory s) =
    (Z.of_nat (List.length (State.history (saveHistory s))) - 1)%Z /\
  (Z.min (State.historyIndex s + 1) (Z.of_nat maxHistorySize - 1)
     <= State.historyIndex (saveHistory s))%Z.
Proof.
  intro Hwf. pose proof (saveHistory_cases s Hwf) as [Hlen H].
  unfold wfHist, maxHistorySize in *.
  destruct H as [(Hk & Hh & Hi) | (Hk & Hh & Hi)]; rewrite Hh, Hi.
  - rewrite Hlen. lia.
  - destruct (firstn _ _ ++ _)%list eqn:E; simpl in *; [discriminate|].
    injection Hlen as Hlen. rewrite Hlen. lia.
Qed.

Lemma saveHistory_back0 (s : State.t) :
  wfHist s -> back (saveHistory s) 0 = Some (snapshot s).
Proof.
  intro Hwf. pose proof (saveHistory_cases s Hwf) as [Hlen H].
  unfold wfHist, maxHistorySize in *. unfold back, jsIndex.
  destruct H as [(Hk & Hh & Hi) | (Hk & Hh & Hi)]; rewrite Hh, Hi.
  - destruct (_ <? 0)%Z eqn:E; [apply Z.ltb_lt in E; lia|].
    replace (Z.to_nat (State.historyIndex s + 1 - Z.of_nat 0))
      with (List.length (firstn (Z.to_nat (State.historyIndex s + 1)) (State.history s)) + 0)%nat
      by (rewrite firstn_length_le; lia).
    rewrite nth_error_app2 by lia.
    replace (_ + 0 - _)%nat with 0%nat by lia. reflexivity.
  - destruct (_ <? 0)%Z eqn:E; [apply Z.ltb_lt in E; lia|].
    rewrite nth_error_tl.
    replace (S (Z.to_nat (State.historyIndex s - Z.of_nat 0)))
      with (List.length (firstn (Z.to_nat (State.historyIndex s + 1)) (State.history s)) + 0)%nat
      by (rewrite firstn_length_le; lia).
    rewrite nth_error_app2 by lia.
    replace (_ + 0 - _)%nat with 0%nat by lia. reflexivity.
Qed.

Lemma saveHistory_backS (s : State.t) (j : nat) :
  wfHist s ->
  (Z.of_nat (S j) <= State.historyIndex (saveHistory s))%Z ->
  back (saveHistory s) (S j) = back s j.
Proof.
  intros Hwf Hj. pose proof (saveHistory_cases s Hwf) as [Hlen H].
  unfold wfHist, maxHistorySize in *. unfold back, jsIndex.
  destruct H as [(Hk & Hh & Hi) | (Hk & Hh & Hi)]; rewrite Hh, Hi; rewrite Hi in Hj.
  - destruct (_ <? 0)%Z eqn:E; [apply Z.ltb_lt in E; lia|].
    destruct (State.historyIndex s - Z.of_nat j <? 0)%Z eqn:E'; [apply Z.ltb_lt in E'; lia|].
    replace (Z.to_nat (State.historyIndex s + 1 - Z.of_nat (S j)))
      with (Z.to_nat (State.historyIndex s - Z.of_nat j)) by lia.
    rewrite nth_error_app1 by (rewrite firstn_length_le; lia).
    rewrite nth_error_firstn.
    destruct (_ <? _)%nat eqn:L; [reflexivity|]. apply Nat.ltb_ge in L. lia.
  - destruct (_ <? 0)%Z eqn:E; [apply Z.ltb_lt in E; lia|].
    destruct (State.historyIndex s - Z.of_nat j <? 0)%Z eqn:E'; [apply Z.ltb_lt in E'; lia|].
    rewrite nth_error_tl.
    replace (S (Z.to_nat (State.historyIndex s - Z.of_nat (S j))))
      with (Z.to_nat (State.historyIndex s - Z.of_nat j)) by lia.
    rewrite nth_error_app1 by (rewrite firstn_length_le; lia).
    rewrite nth_error_firstn.
    destruct (_ <? _)%nat eqn:L; [reflexivity|]. apply Nat.ltb_ge in L. lia.
Qed.

Lemma saveHistory_index_le (s : State.t) :
  wfHist s -> (State.historyIndex (saveHistory s) <= State.historyIndex s + 1)%Z.
Proof.
  intro Hwf. pose proof (saveHistory_cases s Hwf) as [_ H].
  destruct H as [(_ & _ & Hi) | (_ & _ & Hi)]; rewrite Hi; lia.
Qed.

Lemma back_ext (a b : State.t) (j : nat) :
  State.history a = State.history b ->
  State.historyIndex a = State.historyIndex b ->
  back a j = back b j.
Proof. unfold back. intros -> ->. reflexivity. Qed.

(** What one committed edit does to the history. *)
Lemma commits_facts (s s' : State.t) :
  wfHist s -> commits s s' ->
  wfHist s' /\
  back s' 0 = Some (snapshot s') /\
  (forall j, (Z.of_nat (S j) <= State.historyIndex s')%Z -> back s' (S j) = back s j) /\
  (Z.min (State.historyIndex s + 1) (Z.of_nat maxHistorySize - 1) <= State.historyIndex s')%Z /\
  (State.historyIndex s' <= State.historyIndex s + 1)%Z.
Proof.
  intros Hwf Hc. unfold commits, pushed in Hc.
  set (m := restore (snapshot s') s) in *.
  injection Hc as Hh Hi.
  assert (Hm : wfHist m) by exact Hwf.
  pose proof (saveHistory_wf m Hm) as (W1 & W2 & W3).
  split; [|split; [|split; [|split]]].
  - unfold wfHist in *. rewrite Hh, Hi. lia.
  - rewrite (back_ext s' (saveHistory m) 0 Hh Hi).
    rewrite saveHistory_back0 by exact Hm.
    unfold m. rewrite snapshot_restore. reflexivity.
  - intros j Hj. rewrite (back_ext s' (saveHistory m) (S j) Hh Hi).
    rewrite saveHistory_backS; [reflexivity|exact Hm|lia].
  - rewrite Hi. exact W3.
  - rewrite Hi. exact (saveHistory_index_le m Hm).
Qed.

Lemma run_cons (o : Op) (ops : list Op) (s : State.t) :
  run (o :: ops) s = run ops (exec o s).
Proof. reflexivity. Qed.

(** A sequence of committed edits moves every older entry back by one place
    per edit, as long as the entry is still kept. *)
Lemma run_committed (ops : list Op) :
  forall s, wfHist s -> committed ops s ->
  wfHist (run ops s) /\
  (ops <> [] -> back (run ops s) 0 = Some (snapshot (run ops s))) /\
  (forall j, (Z.of_nat (j + List.length ops) <= State.historyIndex (run ops s))%Z ->
             back (run ops s) (j + List.length ops) = back s j) /\
  (Z.min (State.historyIndex s + Z.of_nat (List.length ops)) (Z.of_nat maxHistorySize - 1)
     <= State.historyIndex (run ops s))%Z /\
  (State.historyIndex (run ops s) <= State.historyIndex s + Z.of_nat (List.length ops))%Z.
Proof.
  induction ops as [|o ops IH]; intros s Hwf Hc.
  - simpl. split; [|split; [|split; [|split]]].
    + exact Hwf.
    + congruence.
    + intros j _. rewrite Nat.add_0_r. reflexivity.
    + lia.
    + lia.
  - destruct Hc as [Hc1 Hc2]. rewrite run_cons.
    destruct (commits_facts _ _ Hwf Hc1) as (W & B0 & BS & Lo & Hi).
    destruct (IH _ W Hc2) as (W' & B0' & BS' & Lo' & Hi').
    unfold maxHistorySize in *.
    split; [|split; [|split; [|split]]].
    + exact W'.
    + intros _. destruct ops as [|o' ops'].
      * exact B0.
      * apply B0'. discriminate.
    + intros j Hj. simpl List.length in *.
      replace (j + S (List.length ops))%nat with (S j + List.length ops)%nat by lia.
      rewrite BS' by lia. apply BS. lia.
    + simpl List.length. lia.
    + simpl List.length. lia.
Qed.

Lemma undoN_S (n : nat) (s : State.t) : undoN (S n) s = final (undo (undoN n s)).
Proof. reflexivity. Qed.

Lemma redoN_S (n : nat) (s : State.t) : redoN (S n) s = final (redo (redoN n s)).
Proof. reflexivity. Qed.

(** [n] undos with at least [n] entries behind the cursor: none throws, the
    cursor moves back [n] places and the live state is the entry there. *)
Lemma undoN_steps (n : nat) :
  forall s, wfHist s -> (Z.of_nat n <= State.historyIndex s)%Z ->
  State.history (undoN n s) = State.history s /\
  State.historyIndex (undoN n s) = (State.historyIndex s - Z.of_nat n)%Z /\
  (n <> 0%nat -> back s n = Some (snapshot (undoN n s))).
Proof.
  induction n as [|n IH]; intros s Hwf Hn.
  - simpl. split; [reflexivity|split; [lia|congruence]].
  - destruct (IH s Hwf ltac:(lia)) as (Hh & Hi & _).
    rewrite undoN_S. set (u := undoN n s) in *.
    unfold undo. destruct (0 <? State.historyIndex u)%Z eqn:E;
      [|apply Z.ltb_ge in E; lia].
    cbn [State.history State.historyIndex State.with_historyIndex].
    destruct (jsIndex_in_range (State.history u) (State.historyIndex u - 1)) as [e He].
    { unfold wfHist in Hwf. rewrite Hh, Hi. lia. }
    rewrite He. cbn [final].
    split; [exact Hh|]. split; [cbn; lia|].
    intros _. rewrite snapshot_restore. rewrite <- He.
    unfold back. rewrite Hh, Hi. f_equal. lia.
Qed.

Lemma redoN_steps (n : nat) :
  forall s, wfHist s ->
  (State.historyIndex s + Z.of_nat n <= Z.of_nat (List.length (State.history s)) - 1)%Z ->
  State.history (redoN n s) = State.history s /\
  State.historyIndex (redoN n s) = (State.historyIndex s + Z.of_nat n)%Z /\
  (n <> 0%nat ->
   jsIndex (State.history s) (State.historyIndex s + Z.of_nat n) = Some (snapshot (redoN n s))).
Proof.
  induction n as [|n IH]; intros s Hwf Hn.
  - simpl. split; [reflexivity|split; [lia|congruence]].
  - destruct (IH s Hwf ltac:(lia)) as (Hh & Hi & _).
    rewrite redoN_S. set (u := redoN n s) in *.
    unfold redo.
    destruct (State.historyIndex u <? Z.of_nat (List.length (State.history u)) - 1)%Z eqn:E;
      [|apply Z.ltb_ge in E; rewrite Hh, Hi in E; lia].
    cbn [State.history State.historyIndex State.with_historyIndex].
    destruct (jsIndex_in_range (State.history u) (State.historyIndex u + 1)) as [e He].
    { unfold wfHist in Hwf. rewrite Hh, Hi. lia. }
    rewrite He. cbn [final].
    split; [exact Hh|]. split; [cbn; lia|].
    intros _. rewrite snapshot_restore. rewrite <- He.
    rewrite Hh, Hi. f_equal. lia.
Qed.

(** C1, as the code has it.  Let the live tracks and selection be the entry
    under the history cursor, and let each of the [n] edits commit exactly one
    snapshot, taken after its writes, with [n] below [maxHistorySize] (50).
    Then [n] calls of [undo] restore the tracks and the selection the store
    had before the edits, and [n] calls of [redo] after them restore the
    tracks and the selection it had after the edits. *)
Theorem undo_redo_round_trip (s : State.t) (ops : list Op) :
  synced s ->
  committed ops s ->
  (List.length ops < maxHistorySize)%nat ->
  let n := List.length ops in
  let post := run ops s in
  snapshot (undoN n post) = snapshot s /\
  snapshot (redoN n (undoN n post)) = snapshot post.
Proof.
  intros Hs Hc Hlen n post.
  destruct (synced_wfHist s Hs) as [Hwf H0].
  destruct (run_committed ops s Hwf Hc) as (W & B0 & BS & Lo & Hi).
  fold post in W, B0, BS, Lo, Hi. fold n in BS, Lo, Hi.
  destruct (Nat.eq_dec n 0) as [Hz|Hn].
  - unfold post. apply length_zero_iff_nil in Hz. subst ops. simpl. split; reflexivity.
  - assert (Hne : ops <> []) by (intro; subst ops; apply Hn; reflexivity).
    unfold maxHistorySize in *.
    assert (Hidx : (Z.of_nat n <= State.historyIndex post)%Z) by (unfold n in *; lia).
    destruct (undoN_steps n post W Hidx) as (Uh & Ui & Us).
    split.
    + specialize (Us Hn). specialize (BS 0%nat). simpl in BS.
      rewrite BS in Us by exact Hidx. unfold synced in Hs. congruence.
    + assert (Wu : wfHist (undoN n post)).
      { unfold wfHist in *. rewrite Uh, Ui. lia. }
      destruct (redoN_steps n (undoN n post) Wu) as (_ & _ & Rs).
      { unfold wfHist in W. rewrite Uh, Ui. lia. }
      specialize (Rs Hn). rewrite Uh, Ui in Rs.
      specialize (B0 Hne). unfold back in B0.
      replace (State.historyIndex post - Z.of_nat n + Z.of_nat n)%Z
        with (State.historyIndex post - Z.of_nat 0)%Z in Rs by lia.
      congruence.
Qed.

Lemma undo_redo_round_trip_witness :
  snapshot (undoN 2 (run sampleEdits storeV1)) = snapshot storeV1 /\
  snapshot (redoN 2 (undoN 2 (run sampleEdits storeV1))) = snapshot (run sampleEdits storeV1).
Proof.
  apply (undo_redo_round_trip storeV1 sampleEdits).
  - vm_compute. reflexivity.
  - vm_compute. repeat split; reflexivity.
  - vm_compute. lia.
Defined.

(** C1 as stated fails on the store as it is created: the history is empty,
    [addTrack] records the state after the edit, and the one [undo] that
    follows finds no older entry and keeps the track. *)
Lemma undo_after_first_edit_keeps_it :
  let s := initialStore in
  let ops := [OAddTrack TVideo (Some "V1"%string)] in
  snapshot (undoN (List.length ops) (run ops s)) <> snapshot s.
Proof. vm_compute. discriminate. Qed.

(** *** The structural operations are committed edits *)

Lemma updateProjectDuration_history (s : State.t) :
  State.history (updateProjectDuration s) = State.history s /\
  State.historyIndex (updateProjectDuration s) = State.historyIndex s /\
  State.tracks (updateProjectDuration s) = State.tracks s /\
  State.selectedClipIds (updateProjectDuration s) = State.selectedClipIds s.
Proof.
  unfold updateProjectDuration.
  destruct (Qlt_bool _ _); repeat split; reflexivity.
Qed.

Lemma snapshot_saveHistory (s : State.t) : snapshot (saveHistory s) = snapshot s.
Proof.
  unfold saveHistory. destruct (_ <? _)%nat; reflexivity.
Qed.

Lemma commits_saveHistory (s m : State.t) :
  State.history m = State.history s ->
  State.historyIndex m = State.historyIndex s ->
  commits s (saveHistory m).
Proof.
  intros Hh Hi. unfold commits, pushed.
  rewrite snapshot_saveHistory.
  unfold saveHistory. rewrite snapshot_restore.
  cbn [State.history State.historyIndex restore State.with_tracks State.with_selectedClipIds].
  rewrite Hh, Hi.
  destruct (_ <? _)%nat;
    cbn [State.history State.historyIndex State.with_history State.with_historyIndex
         restore State.with_tracks State.with_selectedClipIds];
    rewrite ?Hi; reflexivity.
Qed.

Lemma addTrack_commits (ty : TrackType) (name : option string) (s : State.t) :
  commits s (exec (OAddTrack ty name) s).
Proof.
  cbn [exec]. unfold addTrack. cbn [generateId snd].
  apply commits_saveHistory; reflexivity.
Qed.

Lemma removeTrack_commits (tid : string) (s : State.t) (tr : Track.t) :
  find (Track.hasId tid) (State.tracks s) = Some tr ->
  commits s (exec (ORemoveTrack tid) s).
Proof.
  intro H. cbn [exec]. unfold removeTrack. rewrite H.
  apply commits_saveHistory; reflexivity.
Qed.

Lemma addClip_commits (tid : string) (clipData : PartialClip.t) (s : State.t) (tr : Track.t) :
  find (Track.hasId tid) (State.tracks s) = Some tr ->
  commits s (exec (OAddClip tid clipData) s).
Proof.
  intro H. cbn [exec]. unfold addClip. rewrite H. cbn [generateId snd].
  apply commits_saveHistory;
    rewrite (proj1 (updateProjectDuration_history _)) ||
    rewrite (proj1 (proj2 (updateProjectDuration_history _))); reflexivity.
Qed.

Lemma removeClip_commits (cid : ClipId) (s : State.t) :
  existsb (Track.hasClip cid) (State.tracks s) = true ->
  commits s (exec (ORemoveClip cid) s).
Proof.
  intro H. cbn [exec]. unfold removeClip. rewrite H.
  apply commits_saveHistory;
    rewrite (proj1 (updateProjectDuration_history _)) ||
    rewrite (proj1 (proj2 (updateProjectDuration_history _))); reflexivity.
Qed.

Lemma splitClip_commits (cid : ClipId) (splitTime : Q) (s : State.t) (r : Clip.t * Clip.t) :
  fst (splitClip cid splitTime s) = Some r ->
  commits s (exec (OSplitClip cid splitTime) s).
Proof.
  cbn [exec]. unfold splitClip.
  destruct (getClipById cid s); [|discriminate].
  destruct (getTrackByClipId cid s); [|discriminate].
  destruct (_ || _); [discriminate|].
  cbn [generateId snd fst]. intros _.
  apply commits_saveHistory; reflexivity.
Qed.

(** C10: a call of [undo] or of [redo] leaves the clipboard, the playhead
    time, the playing flag, the timeline zoom and the aspect ratio as they
    were, and with them every other part of the store except the tracks and
    the selected ids, which it restores, and its own cursor into the
    history.  This holds whether the call returns or throws. *)
Theorem undo_redo_frame (s : State.t) :
  keptByHistory s (final (undo s)) /\ keptByHistory s (final (redo s)).
Proof.
  unfold keptByHistory, undo, redo. split.
  - destruct (0 <? State.historyIndex s)%Z.
    + destruct (jsIndex _ _); cbn; repeat split; reflexivity.
    + cbn. repeat split; reflexivity.
  - destruct (State.historyIndex s <? _)%Z.
    + destruct (jsIndex _ _); cbn; repeat split; reflexivity.
    + cbn. repeat split; reflexivity.
Qed.

(** ** Looking up a clip, and the operations on one clip *)

Lemma ClipId_eqb_eq (a b : ClipId) : ClipId_eqb a b = true <-> a = b.
Proof.
  destruct a as [x|], b as [y|]; simpl; split; intro H;
    try discriminate; try reflexivity.
  - apply String.eqb_eq in H. congruence.
  - injection H as ->. apply String.eqb_refl.
Qed.

Lemma ClipId_eqb_refl (a : ClipId) : ClipId_eqb a a = true.
Proof. apply ClipId_eqb_eq. reflexivity. Qed.

Lemma find_split {A : Type} (p : A -> bool) (l : list A) (a : A) :
  find p l = Some a ->
  exists l1 l2, l = (l1 ++ a :: l2)%list /\ Forall (fun x => p x = false) l1 /\ p a = true.
Proof.
  induction l as [|x l IH]; simpl; [discriminate|].
  destruct (p x) eqn:E.
  - intro H. injection H as ->. exists [], l. auto.
  - intro H. destruct (IH H) as (l1 & l2 & -> & F & Pa).
    exists (x :: l1), l2. auto.
Qed.

Lemma find_none_existsb {A : Type} (p : A -> bool) (l : list A) :
  find p l = None <-> existsb p l = false.
Proof.
  induction l as [|x l IH]; simpl; [tauto|].
  destruct (p x); simpl; [split; discriminate|exact IH].
Qed.

Lemma substFirst_at {A : Type} (p : A -> bool) (f : A -> list A) (l1 l2 : list A) (a : A) :
  Forall (fun x => p x = false) l1 -> p a = true ->
  substFirst p f (l1 ++ a :: l2) = (l1 ++ f a ++ l2)%list.
Proof.
  induction 1 as [|x l1 Hx _ IH]; intro Pa; simpl.
  - rewrite Pa. reflexivity.
  - rewrite Hx, IH by exact Pa. reflexivity.
Qed.

Lemma substFirst_none {A : Type} (p : A -> bool) (f : A -> list A) (l : list A) :
  existsb p l = false -> substFirst p f l = l.
Proof.
  induction l as [|x l IH]; simpl; [reflexivity|].
  destruct (p x); simpl; [discriminate|]. intro H. rewrite IH by exact H. reflexivity.
Qed.

Lemma findClip_located (cid : ClipId) (ts : list Track.t) (c : Clip.t) :
  findClip cid ts = Some c ->
  exists before tr after pre post, located cid ts before tr after pre c post.
Proof.
  induction ts as [|t ts IH]; simpl; [discriminate|].
  destruct (find (Clip.hasId cid) (Track.clips t)) as [c'|] eqn:E.
  - intro H. injection H as ->.
    destruct (find_split _ _ _ E) as (pre & post & Hc & Hpre & Hid).
    exists [], t, ts, pre, post. unfold located. auto.
  - intro H. destruct (IH H) as (before & tr & after & pre & post & L).
    destruct L as (-> & Hb & Hc & Hpre & Hid).
    exists (t :: before), tr, after, pre, post. unfold located.
    repeat split; auto.
    constructor; [|exact Hb]. unfold Track.hasClip. apply find_none_existsb. exact E.
Qed.

Lemma located_hasClip (cid : ClipId) ts before tr after pre c post :
  located cid ts before tr after pre c post -> Track.hasClip cid tr = true.
Proof.
  intros (_ & _ & Hc & _ & Hid). unfold Track.hasClip. rewrite Hc.
  rewrite existsb_app. simpl. rewrite Hid. apply orb_true_iff. right. reflexivity.
Qed.

Lemma located_getTrack (cid : ClipId) (s : State.t) before tr after pre c post :
  located cid (State.tracks s) before tr after pre c post ->
  getTrackByClipId cid s = Some tr.
Proof.
  intro L. pose proof (located_hasClip _ _ _ _ _ _ _ _ L) as Htr.
  destruct L as (E & Hb & _). unfold getTrackByClipId. rewrite E.
  clear E. induction Hb as [|t before Ht _ IH]; simpl.
  - rewrite Htr. reflexivity.
  - rewrite Ht. exact IH.
Qed.

(** A write through the clip and track found for [cid]. *)
Lemma located_subst (cid : ClipId) ts before tr after pre c post (f : Clip.t -> list Clip.t) :
  located cid ts before tr after pre c post ->
  mapFirst (Track.hasClip cid)
    (fun t => Track.with_clips (substFirst (Clip.hasId cid) f (Track.clips t)) t) ts
  = relocated before tr after pre (f c) post.
Proof.
  intro L. pose proof (located_hasClip _ _ _ _ _ _ _ _ L) as Htr.
  destruct L as (-> & Hb & Hc & Hpre & Hid).
  unfold mapFirst, relocated. rewrite substFirst_at by assumption.
  rewrite Hc, substFirst_at by assumption. reflexivity.
Qed.

Lemma located_modify (cid : ClipId) ts before tr after pre c post (f : Clip.t -> Clip.t) :
  located cid ts before tr after pre c post ->
  modifyClip cid f ts = relocated before tr after pre [f c] post.
Proof.
  intro L. unfold modifyClip, mapFirst at 2.
  apply (located_subst cid ts before tr after pre c post (fun a => [f a]) L).
Qed.

Lemma snapshot_saveHistory_tracks (s : State.t) :
  State.tracks (saveHistory s) = State.tracks s.
Proof. unfold saveHistory. destruct (_ <? _)%nat; reflexivity. Qed.

Lemma orNum_Some_eq (q : Q) : orNum (Some q) 0 == q.
Proof.
  unfold orNum. destruct (Qeq_bool q 0) eqn:E; [|reflexivity].
  apply Qeq_bool_iff in E. symmetry. exact E.
Qed.

(** C2: for a clip [c] found under [cid], covering [[s,e)], and a split time
    [m] with [s < m < e], [splitClip] returns the pair of the original,
    shortened to [[s,m)], and a new clip covering [[m,e)]; the source start of
    the second is the source start of the first plus [m - s]; the second has
    its selection flag cleared and takes the place right after the original
    in the clips of the same track; every other clip and track is as before.
    For [m <= s] or [e <= m] the call returns [null] and changes nothing. *)
Theorem splitClip_partition (cid : ClipId) (m : Q) (s : State.t) (c : Clip.t) :
  getClipById cid s = Some c ->
  (Clip.startTime c < m /\ m < Clip.endTime c ->
   exists first second before tr after pre post,
     fst (splitClip cid m s) = Some (first, second) /\
     located cid (State.tracks s) before tr after pre c post /\
     State.tracks (snd (splitClip cid m s))
       = relocated before tr after pre [first; second] post /\
     Clip.id first = Clip.id c /\
     Clip.startTime first = Clip.startTime c /\ Clip.endTime first = m /\
     Clip.startTime second = m /\ Clip.endTime second = Clip.endTime c /\
     Clip.duration first = m - Clip.startTime c /\
     Clip.duration second = Clip.endTime c - m /\
     Clip.sourceStartTime first = Clip.sourceStartTime c /\
     Clip.sourceStartTime second == Clip.sourceStartTime first + (m - Clip.startTime c) /\
     Clip.isSelected second = false /\
     Clip.isSelected first = Clip.isSelected c /\
     Clip.trackId second = Clip.trackId first /\
     Clip.props second = Clip.props c /\ Clip.extra second = Clip.extra c) /\
  (m <= Clip.startTime c \/ Clip.endTime c <= m -> splitClip cid m s = (None, s)).
Proof.
  intro Hc. unfold getClipById in Hc.
  destruct (findClip_located _ _ _ Hc) as (before & tr & after & pre & post & L).
  pose proof (located_getTrack cid s _ _ _ _ _ _ L) as Ht.
  unfold splitClip, getClipById. rewrite Hc, Ht. split.
  - intros [H1 H2].
    assert (E1 : Qle_bool m (Clip.startTime c) = false).
    { destruct (Qle_bool m (Clip.startTime c)) eqn:E; [|reflexivity].
      apply Qle_bool_iff in E. lra. }
    assert (E2 : Qle_bool (Clip.endTime c) m = false).
    { destruct (Qle_bool (Clip.endTime c) m) eqn:E; [|reflexivity].
      apply Qle_bool_iff in E. lra. }
    rewrite E1, E2. cbn [orb generateId fst snd].
    eexists _, _, before, tr, after, pre, post.
    split; [reflexivity|]. split; [exact L|]. split.
    + rewrite snapshot_saveHistory_tracks.
      cbn [State.tracks State.with_tracks State.with_draws].
      exact (located_subst cid _ before tr after pre c post
               (fun _ => [splitFirst m c;
                          splitSecond ("clip" ++ "-" ++ State.entropy s (State.draws s)) m c])
               L).
    + repeat split; try reflexivity.
      change (orNum (Some (Clip.sourceStartTime c)) 0 + (m - Clip.startTime c)
              == Clip.sourceStartTime c + (m - Clip.startTime c)).
      rewrite orNum_Some_eq. reflexivity.
  - intros [H|H].
    + apply Qle_bool_iff in H. rewrite H. reflexivity.
    + apply Qle_bool_iff in H. rewrite H, orb_true_r. reflexivity.
Qed.
Lemma splitClip_partition_witness :
  exists first second,
    fst (splitClip (Some "clip-1"%string) 4 storeA) = Some (first, second) /\
    Clip.startTime first = 0 /\ Clip.endTime first = 4 /\
    Clip.startTime second = 4 /\ Clip.endTime second = 10.
Proof.
  destruct (splitClip_partition (Some "clip-1"%string) 4 storeA clipA) as [H _].
  - vm_compute. reflexivity.
  - destruct H as (first & second & _ & _ & _ & _ & _ & Hr & _ & _ & _ & H1 & H2 & H3 & H4 & _).
    + split; reflexivity.
    + exists first, second. repeat split; assumption.
Defined.

(** C6, as the code has it: for a clip [c] found under [cid],
    [trimClipStart] writes the start [max(0, min(endTime - 0.1, requested))],
    which lies in [[0, endTime - 0.1]] when [endTime >= 0.1] and is [0] when
    [endTime < 0.1]; it shifts [sourceStartTime] by the change of the start,
    sets [duration] to [endTime - startTime], leaves [endTime] as it was,
    and writes nothing else in the store. *)
Theorem trimClipStart_clamp (cid : ClipId) (requested : Q) (s : State.t) (c : Clip.t) :
  getClipById cid s = Some c ->
  exists c' before tr after pre post,
    located cid (State.tracks s) before tr after pre c post /\
    trimClipStart cid requested s
      = State.with_tracks (relocated before tr after pre [c'] post) s /\
    Clip.startTime c' = Qmax 0 (Qmin (Clip.endTime c - 0.1) requested) /\
    (0.1 <= Clip.endTime c ->
     0 <= Clip.startTime c' /\ Clip.startTime c' <= Clip.endTime c - 0.1) /\
    (Clip.endTime c < 0.1 -> Clip.startTime c' == 0) /\
    Clip.sourceStartTime c' - Clip.sourceStartTime c
      == Clip.startTime c' - Clip.startTime c /\
    Clip.duration c' = Clip.endTime c' - Clip.startTime c' /\
    Clip.endTime c' = Clip.endTime c /\
    Clip.id c' = Clip.id c /\ Clip.isSelected c' = Clip.isSelected c /\
    Clip.trackId c' = Clip.trackId c /\ Clip.props c' = Clip.props c /\
    Clip.extra c' = Clip.extra c.
Proof.
  intro Hc. unfold trimClipStart. rewrite Hc. unfold getClipById in Hc.
  destruct (findClip_located _ _ _ Hc) as (before & tr & after & pre & post & L).
  exists (trimStart requested c), before, tr, after, pre, post.
  split; [exact L|]. split.
  { rewrite (located_modify cid _ before tr after pre c post _ L). reflexivity. }
  split; [reflexivity|].
  change (Clip.startTime (trimStart requested c))
    with (Qmax 0 (Qmin (Clip.endTime c - 0.1) requested)).
  change (Clip.sourceStartTime (trimStart requested c))
    with (orNum (Some (Clip.sourceStartTime c)) 0
          + (Qmax 0 (Qmin (Clip.endTime c - 0.1) requested) - Clip.startTime c)).
  set (hi := Clip.endTime c - 0.1).
  split; [|split; [|split; [|repeat split; reflexivity]]].
  - intro H. split.
    + apply Q.le_max_l.
    + apply Q.max_lub; [unfold hi; lra|apply Q.le_min_l].
  - intro H. apply Q.max_l. apply Qle_trans with hi; [apply Q.le_min_l|unfold hi; lra].
  - rewrite orNum_Some_eq. ring.
Qed.

Lemma trimClipStart_clamp_witness :
  exists c' before tr after pre post,
    trimClipStart (Some "clip-1"%string) 3 storeA
      = State.with_tracks (relocated before tr after pre [c'] post) storeA /\
    Clip.startTime c' == 3 /\ Clip.endTime c' = 10.
Proof.
  destruct (trimClipStart_clamp (Some "clip-1"%string) 3 storeA clipA)
    as (c' & before & tr & after & pre & post & _ & Heq & Hs & _ & _ & _ & _ & He & _).
  - vm_compute. reflexivity.
  - exists c', before, tr, after, pre, post.
    split; [exact Heq|]. split.
    + rewrite Hs. vm_compute. reflexivity.
    + rewrite He. reflexivity.
Defined.

(** C6 as stated fails for a clip that ends before [0.1]: the clip
    [[0,1/16)] keeps the start [0], which is above [endTime - 0.1]. *)
Lemma trimClipStart_short_clip_leaves_interval :
  exists c',
    getClipById (Some "clip-1"%string)
      (trimClipStart (Some "clip-1"%string) 5 storeTiny) = Some c' /\
    ~ (0 <= Clip.startTime c' /\ Clip.startTime c' <= Clip.endTime c' - 0.1).
Proof.
  eexists. split.
  - vm_compute. reflexivity.
  - cbn. intros [_ H]. lra.
Qed.

Lemma trackMissing_find (tid : string) (s : State.t) :
  trackMissing tid s -> find (Track.hasId tid) (State.tracks s) = None.
Proof.
  unfold trackMissing. intro H. apply find_none_existsb.
  destruct (existsb _ _) eqn:E; [|reflexivity].
  apply existsb_exists in E. destruct E as (tr & Hin & Hid).
  unfold Track.hasId in Hid. apply String.eqb_eq in Hid.
  exfalso. exact (H tr Hin Hid).
Qed.

Lemma clipMissing_hasClip (cid : ClipId) (s : State.t) :
  clipMissing cid s -> existsb (Track.hasClip cid) (State.tracks s) = false.
Proof.
  unfold clipMissing, allClips. intro H.
  destruct (existsb _ _) eqn:E; [|reflexivity].
  apply existsb_exists in E. destruct E as (tr & Hin & Hc).
  unfold Track.hasClip in Hc. apply existsb_exists in Hc. destruct Hc as (c & Hcin & Hid).
  unfold Clip.hasId in Hid. apply ClipId_eqb_eq in Hid.
  exfalso. apply (H c); [|exact Hid].
  apply in_flat_map. exists tr. auto.
Qed.

Lemma hasClip_none_findClip (cid : ClipId) (ts : list Track.t) :
  existsb (Track.hasClip cid) ts = false -> findClip cid ts = None.
Proof.
  induction ts as [|t ts IH]; simpl; [reflexivity|].
  intro H. apply orb_false_iff in H. destruct H as [H1 H2].
  unfold Track.hasClip in H1. apply find_none_existsb in H1. rewrite H1. auto.
Qed.

Lemma existsb_trackMissing (tid : string) (s : State.t) :
  existsb (Track.hasId tid) (State.tracks s) = false -> trackMissing tid s.
Proof.
  intros H tr Hin E.
  assert (Ht : existsb (Track.hasId tid) (State.tracks s) = true).
  { apply existsb_exists. exists tr. split; [exact Hin|].
    unfold Track.hasId. rewrite E. apply String.eqb_refl. }
  congruence.
Qed.

Lemma existsb_clipMissing (cid : ClipId) (s : State.t) :
  existsb (Clip.hasId cid) (allClips (State.tracks s)) = false -> clipMissing cid s.
Proof.
  intros H c Hin E.
  assert (Ht : existsb (Clip.hasId cid) (allClips (State.tracks s)) = true).
  { apply existsb_exists. exists c. split; [exact Hin|].
    unfold Clip.hasId. rewrite E. apply ClipId_eqb_refl. }
  congruence.
Qed.

Lemma existsb_hasId_mapFirst (tid : string) (p : Track.t -> bool) (g : Track.t -> Track.t)
    (ts : list Track.t) :
  (forall t, Track.id (g t) = Track.id t) ->
  existsb (Track.hasId tid) (mapFirst p g ts) = existsb (Track.hasId tid) ts.
Proof.
  intro Hg. unfold mapFirst. induction ts as [|t ts IH]; simpl; [reflexivity|].
  destruct (p t); simpl.
  - unfold Track.hasId at 1 3. rewrite Hg. reflexivity.
  - rewrite IH. reflexivity.
Qed.

(** [moveClip] with a destination id of no track is [moveClip] without a
    destination: the clip, when it exists, still moves in time. *)
Lemma moveClip_missing_destination (cid : ClipId) (time : Q) (ntid : string) (s : State.t) :
  trackMissing ntid s ->
  moveClip cid time (Some ntid) s = moveClip cid time None s.
Proof.
  intro H. apply trackMissing_find, find_none_existsb in H.
  unfold moveClip.
  destruct (getClipById cid s); [|reflexivity].
  destruct (getTrackByClipId cid s); [|reflexivity].
  destruct (_ && _); [|reflexivity].
  assert (E : find (Track.hasId ntid)
                (modifyClip cid
                   (retime (if State.isSnappingEnabled s
                            then getSnappedTime time cid s else time))
                   (State.tracks s)) = None).
  { apply find_none_existsb. unfold modifyClip.
    rewrite existsb_hasId_mapFirst; [exact H|]. intro. reflexivity. }
  rewrite E. reflexivity.
Qed.

(** C7, as the code has it: an operation that is given the id of no track
    as its target ([addClip]) or of no clip ([splitClip], [moveClip],
    [trimClipStart], [trimClipEnd], [updateClip], [removeClip]) returns
    [null], or nothing, and returns the store as it received it: tracks,
    selection, history and all the rest.  [moveClip] that is given a clip of
    the store and, as the destination, the id of no track does not return
    the store as it was: it writes the new times to the clip, leaves the clip
    on its track and updates the project duration.  None of these operations
    has a path that throws. *)
Theorem missing_target_is_noop (tid : string) (cid : ClipId) (s : State.t)
    (clipData updates : PartialClip.t) (time : Q) (newTrackId : option string) :
  trackMissing tid s ->
  clipMissing cid s ->
  addClip tid clipData s = (None, s) /\
  splitClip cid time s = (None, s) /\
  moveClip cid time newTrackId s = s /\
  trimClipStart cid time s = s /\
  trimClipEnd cid time s = s /\
  updateClip cid updates s = s /\
  removeClip cid s = s /\
  (forall (moved : ClipId) (c : Clip.t),
     getClipById moved s = Some c ->
     let snapped :=
       if State.isSnappingEnabled s then getSnappedTime time moved s else time in
     moveClip moved time (Some tid) s
     = updateProjectDuration
         (State.with_tracks (modifyClip moved (retime snapped) (State.tracks s)) s)).
Proof.
  intros Ht Hc.
  pose proof (trackMissing_find tid s Ht) as Ft.
  pose proof (clipMissing_hasClip cid s Hc) as Ec.
  pose proof (hasClip_none_findClip cid _ Ec) as Fc.
  repeat split;
    try (unfold addClip, splitClip, moveClip, trimClipStart, trimClipEnd, updateClip,
           removeClip, getClipById; rewrite ?Ft, ?Fc, ?Ec; reflexivity).
  intros moved c Hm. cbv zeta.
  rewrite (moveClip_missing_destination moved time tid s Ht).
  unfold getClipById in Hm.
  destruct (findClip_located _ _ _ Hm) as (before & tr & after & pre & post & L).
  pose proof (located_getTrack moved s _ _ _ _ _ _ L) as Htr.
  unfold moveClip, getClipById. rewrite Hm, Htr. reflexivity.
Qed.

Lemma missing_target_is_noop_witness :
  addClip "track-9" emptyVideoData storeA = (None, storeA) /\
  splitClip (Some "clip-9"%string) 4 storeA = (None, storeA) /\
  moveClip (Some "clip-9"%string) 4 (Some "track-0"%string) storeA = storeA /\
  trimClipStart (Some "clip-9"%string) 4 storeA = storeA /\
  trimClipEnd (Some "clip-9"%string) 4 storeA = storeA /\
  updateClip (Some "clip-9"%string) (videoSpan 1 2) storeA = storeA /\
  removeClip (Some "clip-9"%string) storeA = storeA /\
  clipSpans (moveClip (Some "clip-1"%string) 4 (Some "track-9"%string) storeA)
    = [(Some "clip-1"%string, 4, 14)].
Proof.
  destruct (missing_target_is_noop "track-9" (Some "clip-9"%string) storeA
              emptyVideoData (videoSpan 1 2) 4 (Some "track-0"%string))
    as (H1 & H2 & H3 & H4 & H5 & H6 & H7 & H8).
  - apply existsb_trackMissing. vm_compute. reflexivity.
  - apply existsb_clipMissing. vm_compute. reflexivity.
  - repeat (split; [assumption|]).
    rewrite (H8 (Some "clip-1"%string) clipA); [|vm_compute; reflexivity].
    vm_compute. reflexivity.
Defined.

(** The claim as it was stated, that an operation given the id of no track
    leaves the tracks as they were, fails for [moveClip]: ["track-9"] is the
    id of no track of [storeA], and the clip on [[0,10)] ends on [[5,15)]. *)
Lemma moveClip_missing_track_still_moves :
  existsb (Track.hasId "track-9") (State.tracks storeA) = false /\
  clipSpans storeA = [(Some "clip-1"%string, 0, 10)] /\
  clipSpans (moveClip (Some "clip-1"%string) 5 (Some "track-9"%string) storeA)
    = [(Some "clip-1"%string, 5, 15)] /\
  State.tracks (moveClip (Some "clip-1"%string) 5 (Some "track-9"%string) storeA)
    <> State.tracks storeA.
Proof.
  split; [vm_compute; reflexivity|].
  split; [vm_compute; reflexivity|].
  split; [vm_compute; reflexivity|vm_compute; discriminate].
Qed.

(** ** Snapping and [moveClip] *)

Lemma snapPoints_eq (cid : ClipId) (s : State.t) :
  snapPoints cid s
  = 0 :: State.currentTime s ::
    flat_map (fun c => [Clip.startTime c; Clip.endTime c]) (otherClips cid s).
Proof.
  unfold snapPoints, otherClips, allClips. do 2 f_equal.
  induction (State.tracks s) as [|tr ts IH]; simpl; [reflexivity|].
  rewrite filter_app, flat_map_app, <- IH. f_equal.
  induction (Track.clips tr) as [|c cs IHc]; simpl; [reflexivity|].
  destruct (negb (Clip.hasId cid c)); simpl; rewrite IHc; reflexivity.
Qed.

Lemma find_first {A : Type} (p : A -> bool) (pre post : list A) (a : A) :
  (forall x, In x pre -> p x <> true) -> p a = true ->
  find p (pre ++ a :: post) = Some a.
Proof.
  induction pre as [|x pre IH]; simpl; intros Hpre Ha.
  - rewrite Ha. reflexivity.
  - destruct (p x) eqn:E.
    + exfalso. apply (Hpre x); auto.
    + apply IH; auto.
Qed.

Lemma find_nowhere {A : Type} (p : A -> bool) (l : list A) :
  (forall x, In x l -> p x <> true) -> find p l = None.
Proof.
  induction l as [|x l IH]; simpl; intro H; [reflexivity|].
  destruct (p x) eqn:E.
  - exfalso. apply (H x); auto.
  - apply IH. auto.
Qed.

Lemma thresholdSeconds_finite (s : State.t) :
  ~ 100 * State.timelineZoom s == 0 ->
  thresholdSeconds s = Fin (State.snapThreshold s / (100 * State.timelineZoom s)).
Proof.
  intro H. unfold thresholdSeconds, jsDiv.
  destruct (Qeq_bool _ 0) eqn:E; [|reflexivity].
  apply Qeq_bool_iff in E. contradiction.
Qed.

Lemma near_iff (s : State.t) (time point : Q) :
  ~ 100 * State.timelineZoom s == 0 ->
  (near s time point <->
   Qabs (time - point) < State.snapThreshold s / (100 * State.timelineZoom s)).
Proof.
  intro H. unfold near, withinThreshold. rewrite thresholdSeconds_finite by exact H.
  apply Qlt_bool_iff.
Qed.

Lemma updateProjectDuration_tracks (s : State.t) :
  State.tracks (updateProjectDuration s) = State.tracks s.
Proof. apply updateProjectDuration_history. Qed.

Lemma In_relocated before tr after pre cs post (c : Clip.t) :
  In c cs -> In c (allClips (relocated before tr after pre cs post)).
Proof.
  intro H. unfold allClips, relocated. apply in_flat_map.
  exists (Track.with_clips (pre ++ cs ++ post) tr). split.
  - apply in_or_app. right. left. reflexivity.
  - simpl. apply in_or_app. right. apply in_or_app. left. exact H.
Qed.

Lemma In_pushClip (tid : string) (c : Clip.t) (ts : list Track.t) (tr : Track.t) :
  find (Track.hasId tid) ts = Some tr -> In c (allClips (pushClip tid c ts)).
Proof.
  intro H. destruct (find_split _ _ _ H) as (l1 & l2 & -> & F & P).
  unfold pushClip, mapFirst. rewrite substFirst_at by assumption.
  unfold allClips. apply in_flat_map. eexists. split.
  - apply in_or_app. right. left. reflexivity.
  - simpl. apply in_or_app. right. left. reflexivity.
Qed.

Lemma find_hasId_mapFirst (tid : string) (p : Track.t -> bool) (g : Track.t -> Track.t)
    (ts : list Track.t) (tr : Track.t) :
  (forall t, Track.id (g t) = Track.id t) ->
  find (Track.hasId tid) ts = Some tr ->
  exists tr', find (Track.hasId tid) (mapFirst p g ts) = Some tr'.
Proof.
  intros Hg. unfold mapFirst. revert tr.
  induction ts as [|t ts IH]; simpl; intros tr H; [discriminate|].
  destruct (p t) eqn:Ep; simpl.
  - unfold Track.hasId at 1. rewrite Hg. fold (Track.hasId tid t).
    destruct (Track.hasId tid t); eauto.
  - destruct (Track.hasId tid t); eauto.
Qed.

(** C5: with snapping enabled, [moveClip] of the clip found under [cid]
    replaces the requested start time by the first snap point that is
    within the threshold of it, where the snap points are [0], the playhead
    time and then the start and end of every clip with another id, in the
    order of the tracks and of their clips, and where, for a zoom other than
    [0], within the threshold means at a distance below
    [snapThreshold / (100 * timelineZoom)].  A requested time that is within
    the threshold of no snap point is left as it is.  The result depends on
    nothing but the requested time, the playhead, the tracks, the threshold
    and the zoom.  The clip then starts at the maximum of [0] and that time
    and keeps its length. *)
Theorem moveClip_snaps (cid : ClipId) (requested : Q) (newTrackId : option string)
    (s : State.t) (c : Clip.t) :
  State.isSnappingEnabled s = true ->
  getClipById cid s = Some c ->
  let snapped := getSnappedTime requested cid s in
  snapPoints cid s
    = 0 :: State.currentTime s ::
      flat_map (fun x => [Clip.startTime x; Clip.endTime x]) (otherClips cid s) /\
  (~ 100 * State.timelineZoom s == 0 ->
   forall p, near s requested p <->
             Qabs (requested - p) < State.snapThreshold s / (100 * State.timelineZoom s)) /\
  (forall pre p post,
     snapPoints cid s = (pre ++ p :: post)%list ->
     (forall q, In q pre -> ~ near s requested q) ->
     near s requested p ->
     snapped = p) /\
  ((forall q, In q (snapPoints cid s) -> ~ near s requested q) -> snapped = requested) /\
  (forall s2,
     State.currentTime s2 = State.currentTime s ->
     State.tracks s2 = State.tracks s ->
     State.snapThreshold s2 = State.snapThreshold s ->
     State.timelineZoom s2 = State.timelineZoom s ->
     getSnappedTime requested cid s2 = snapped) /\
  exists c',
    In c' (allClips (State.tracks (moveClip cid requested newTrackId s))) /\
    Clip.id c' = Clip.id c /\
    Clip.startTime c' = Qmax 0 snapped /\
    Clip.endTime c' = Qmax 0 snapped + (Clip.endTime c - Clip.startTime c).
Proof.
  intros Hsnap Hc snapped.
  split; [apply snapPoints_eq|].
  split; [intros Hz p; apply near_iff; exact Hz|].
  split.
  { intros pre p post E Hpre Hp. unfold snapped, getSnappedTime. rewrite E.
    rewrite (find_first _ pre post p); [reflexivity|exact Hpre|exact Hp]. }
  split.
  { intro H. unfold snapped, getSnappedTime. rewrite find_nowhere; [reflexivity|exact H]. }
  split.
  { intros s2 E1 E2 E3 E4. unfold snapped, getSnappedTime, snapPoints, withinThreshold,
      thresholdSeconds. rewrite E1, E2, E3, E4. reflexivity. }
  unfold getClipById in Hc.
  destruct (findClip_located _ _ _ Hc) as (before & tr & after & pre & post & L).
  pose proof (located_getTrack cid s _ _ _ _ _ _ L) as Ht.
  unfold moveClip, getClipById. rewrite Hc, Ht, Hsnap. fold snapped.
  rewrite updateProjectDuration_tracks. cbn [State.tracks State.with_tracks].
  rewrite (located_modify cid _ before tr after pre c post _ L).
  assert (Hstay :
    exists c',
      In c' (allClips (relocated before tr after pre [retime snapped c] post)) /\
      Clip.id c' = Clip.id c /\
      Clip.startTime c' = Qmax 0 snapped /\
      Clip.endTime c' = Qmax 0 snapped + (Clip.endTime c - Clip.startTime c)).
  { exists (retime snapped c). split; [apply In_relocated; left; reflexivity|].
    repeat split; reflexivity. }
  destruct newTrackId as [ntid|]; [|exact Hstay].
  destruct (negb (ntid =? "")%string && negb (ntid =? Track.id tr)%string); [|exact Hstay].
  destruct (find (Track.hasId ntid) _) as [newTrack|] eqn:F; [|exact Hstay].
  destruct (TrackType_eqb _ _); [|exact Hstay].
  exists (Clip.with_trackId ntid (retime snapped c)). split.
  - destruct (find_hasId_mapFirst ntid (Track.hasClip cid)
                (fun t => Track.with_clips (removeFirst (Clip.hasId cid) (Track.clips t)) t)
                _ newTrack (fun t => eq_refl) F) as [tr' F'].
    exact (In_pushClip ntid _ _ tr' F').
  - repeat split; reflexivity.
Qed.

Lemma moveClip_snaps_witness :
  exists c',
    In c' (allClips (State.tracks (moveClip (Some "clip-2"%string) (201 # 20) None storeB))) /\
    Clip.id c' = Some "clip-2"%string /\
    Clip.startTime c' == 10.
Proof.
  destruct (moveClip_snaps (Some "clip-2"%string) (201 # 20) None storeB clipB)
    as (_ & _ & Hfirst & _ & _ & c' & Hin & Hid & Hs & _).
  - reflexivity.
  - vm_compute. reflexivity.
  - exists c'. split; [exact Hin|]. split; [exact Hid|].
    rewrite Hs. rewrite (Hfirst [0; 0; 0] 10 []).
    + vm_compute. reflexivity.
    + vm_compute. reflexivity.
    + intros q Hq.
      destruct Hq as [<-|[<-|[<-|[]]]]; vm_compute; discriminate.
    + vm_compute. reflexivity.
Defined.

(** ** The time invariant of clips *)

Lemma Forall_substFirst {A : Type} (P : A -> Prop) (p : A -> bool) (f : A -> list A)
    (l : list A) :
  Forall P l -> (forall a, P a -> Forall P (f a)) -> Forall P (substFirst p f l).
Proof.
  intros Hl Hf. induction Hl as [|a l Ha Hl IH]; simpl; [constructor|].
  destruct (p a).
  - apply Forall_app. split; [apply Hf; exact Ha|exact Hl].
  - constructor; assumption.
Qed.

Lemma Forall_mapFirst {A : Type} (P : A -> Prop) (p : A -> bool) (f : A -> A) (l : list A) :
  Forall P l -> (forall a, P a -> P (f a)) -> Forall P (mapFirst p f l).
Proof.
  intros Hl Hf. apply Forall_substFirst; [exact Hl|].
  intros a Ha. constructor; [apply Hf; exact Ha|constructor].
Qed.

Lemma Forall_removeFirst {A : Type} (P : A -> Prop) (p : A -> bool) (l : list A) :
  Forall P l -> Forall P (removeFirst p l).
Proof.
  intro Hl. apply Forall_substFirst; [exact Hl|]. intros. constructor.
Qed.

Lemma validTracks_modify (cid : ClipId) (f : Clip.t -> Clip.t) (ts : list Track.t) :
  validTracks ts -> (forall c, validClip c -> validClip (f c)) ->
  validTracks (modifyClip cid f ts).
Proof.
  intros Hts Hf. unfold modifyClip. apply Forall_mapFirst; [exact Hts|].
  intros tr Htr. simpl. apply Forall_mapFirst; assumption.
Qed.

Lemma validTracks_remove (cid : ClipId) (ts : list Track.t) :
  validTracks ts ->
  validTracks
    (mapFirst (Track.hasClip cid)
       (fun tr => Track.with_clips (removeFirst (Clip.hasId cid) (Track.clips tr)) tr) ts).
Proof.
  intro Hts. apply Forall_mapFirst; [exact Hts|].
  intros tr Htr. simpl. apply Forall_removeFirst. exact Htr.
Qed.

Lemma validTracks_push (tid : string) (c : Clip.t) (ts : list Track.t) :
  validTracks ts -> validClip c -> validTracks (pushClip tid c ts).
Proof.
  intros Hts Hc. unfold pushClip. apply Forall_mapFirst; [exact Hts|].
  intros tr Htr. simpl. apply Forall_app. split; [exact Htr|]. constructor; [exact Hc|constructor].
Qed.

Lemma validTracks_mapClips (f : Clip.t -> Clip.t) (ts : list Track.t) :
  validTracks ts -> (forall c, validClip c -> validClip (f c)) ->
  validTracks (mapClips f ts).
Proof.
  intros Hts Hf. unfold mapClips, validTracks. apply Forall_map.
  eapply Forall_impl; [|exact Hts]. intros tr Htr. simpl.
  apply Forall_map. eapply Forall_impl; [|exact Htr]. exact Hf.
Qed.

Lemma validTracks_In (ts : list Track.t) (c : Clip.t) :
  validTracks ts -> In c (allClips ts) -> validClip c.
Proof.
  intros Hts Hin. unfold allClips in Hin. apply in_flat_map in Hin.
  destruct Hin as (tr & Htr & Hc).
  unfold validTracks in Hts. rewrite Forall_forall in Hts.
  specialize (Hts tr Htr). rewrite Forall_forall in Hts. auto.
Qed.

Lemma findClip_In (cid : ClipId) (ts : list Track.t) (c : Clip.t) :
  findClip cid ts = Some c -> In c (allClips ts).
Proof.
  intro H. destruct (findClip_located _ _ _ H) as (b & tr & a & pre & post & L).
  destruct L as (-> & _ & Hc & _). unfold allClips. apply in_flat_map.
  exists tr. split; [apply in_or_app; right; left; reflexivity|].
  rewrite Hc. apply in_or_app. right. left. reflexivity.
Qed.

(** *** Writes that keep a store valid *)

Lemma valid_with_tracks (ts : list Track.t) (s : State.t) :
  validStore s -> validTracks ts -> validStore (State.with_tracks ts s).
Proof. intros (H1 & H2 & H3 & H4) Hts. repeat split; assumption. Qed.

Lemma valid_updateProjectDuration (s : State.t) :
  validStore s -> validStore (updateProjectDuration s).
Proof.
  intros (H1 & H2 & H3 & H4). unfold updateProjectDuration.
  destruct (Qlt_bool _ _); repeat split; assumption.
Qed.

Lemma Forall_tl {A : Type} (P : A -> Prop) (l : list A) : Forall P l -> Forall P (tl l).
Proof. intro H. destruct H; simpl; [constructor|assumption]. Qed.

Lemma Forall_firstn {A : Type} (P : A -> Prop) (n : nat) (l : list A) :
  Forall P l -> Forall P (firstn n l).
Proof.
  intro H. revert n. induction H as [|a l Ha Hl IH]; intros [|n]; simpl; constructor; auto.
Qed.

Lemma Forall_slice0 {A : Type} (P : A -> Prop) (e : Z) (l : list A) :
  Forall P l -> Forall P (slice0 e l).
Proof.
  intro H. unfold slice0. destruct (e <? 0)%Z; apply Forall_firstn; exact H.
Qed.

Lemma valid_saveHistory (s : State.t) : validStore s -> validStore (saveHistory s).
Proof.
  intros (H1 & H2 & H3 & H4).
  assert (Hh : Forall (fun h => validTracks (HistoryState.tracks h))
                 (slice0 (State.historyIndex s + 1) (State.history s) ++ [snapshot s])).
  { apply Forall_app. split; [apply Forall_slice0; exact H4|].
    constructor; [exact H2|constructor]. }
  unfold saveHistory. destruct (_ <? _)%nat; repeat split; try assumption.
  apply Forall_tl. exact Hh.
Qed.

Lemma valid_restore (e : HistoryState.t) (s : State.t) (i : Z) :
  validStore s -> In e (State.history s) ->
  validStore (restore e (State.with_historyIndex i s)).
Proof.
  intros (H1 & H2 & H3 & H4) Hin. repeat split; try assumption.
  simpl. rewrite Forall_forall in H4. apply H4. exact Hin.
Qed.

Lemma jsIndex_In {A : Type} (l : list A) (i : Z) (a : A) : jsIndex l i = Some a -> In a l.
Proof.
  unfold jsIndex. destruct (i <? 0)%Z; [discriminate|]. apply nth_error_In.
Qed.

Lemma valid_undo (s : State.t) : validStore s -> validStore (final (undo s)).
Proof.
  intro H. unfold undo. destruct (0 <? _)%Z; [|exact H].
  cbn [State.history State.historyIndex State.with_historyIndex].
  destruct (jsIndex _ _) as [e|] eqn:E; cbn [final].
  - apply valid_restore; [exact H|]. exact (jsIndex_In _ _ _ E).
  - destruct H as (H1 & H2 & H3 & H4). repeat split; assumption.
Qed.

Lemma valid_redo (s : State.t) : validStore s -> validStore (final (redo s)).
Proof.
  intro H. unfold redo. destruct (_ <? _)%Z; [|exact H].
  cbn [State.history State.historyIndex State.with_historyIndex].
  destruct (jsIndex _ _) as [e|] eqn:E; cbn [final].
  - apply valid_restore; [exact H|]. exact (jsIndex_In _ _ _ E).
  - destruct H as (H1 & H2 & H3 & H4). repeat split; assumption.
Qed.

(** *** Each operation keeps a valid store valid *)

Lemma valid_addTrack (ty : TrackType) (name : option string) (s : State.t) :
  validStore s -> validStore (snd (addTrack ty name s)).
Proof.
  intros (H1 & H2 & H3 & H4). unfold addTrack. cbn [generateId snd].
  apply valid_saveHistory. repeat split; try assumption.
  cbn. apply Forall_app. split; [exact H2|]. constructor; [constructor|constructor].
Qed.

Lemma valid_removeTrack (tid : string) (s : State.t) :
  validStore s -> validStore (removeTrack tid s).
Proof.
  intros H. unfold removeTrack. destruct (find _ _); [|exact H].
  destruct H as (H1 & H2 & H3 & H4).
  apply valid_saveHistory. repeat split; try assumption.
  cbn. apply Forall_removeFirst. exact H2.
Qed.

Lemma valid_addClip (tid : string) (clipData : PartialClip.t) (s : State.t) :
  validStore s ->
  (forall newId ty, validClip (buildClip newId tid ty clipData (State.currentTime s))) ->
  validStore (snd (addClip tid clipData s)).
Proof.
  intros H Hg. unfold addClip. destruct (find _ _) as [track|]; [|exact H].
  cbn [generateId snd].
  apply valid_saveHistory, valid_updateProjectDuration.
  destruct H as (H1 & H2 & H3 & H4). repeat split; try assumption.
  cbn. apply validTracks_push; [exact H2|apply Hg].
Qed.

Lemma valid_removeClip (cid : ClipId) (s : State.t) :
  validStore s -> validStore (removeClip cid s).
Proof.
  intros H. unfold removeClip. destruct (existsb _ _); [|exact H].
  apply valid_saveHistory, valid_updateProjectDuration.
  destruct H as (H1 & H2 & H3 & H4). repeat split; try assumption.
  cbn. apply validTracks_remove. exact H2.
Qed.

Lemma valid_updateClip (cid : ClipId) (updates : PartialClip.t) (s : State.t) :
  validStore s ->
  (forall c, getClipById cid s = Some c -> validClip (PartialClip.assign updates c)) ->
  validStore (updateClip cid updates s).
Proof.
  intros H Hg. unfold updateClip. destruct (getClipById cid s) as [c|] eqn:E; [|exact H].
  apply valid_updateProjectDuration, valid_with_tracks; [exact H|].
  unfold getClipById in E.
  destruct (findClip_located _ _ _ E) as (b & tr & a & pre & post & L).
  rewrite (located_modify cid _ b tr a pre c post _ L).
  destruct H as (_ & H2 & _). destruct L as (Ets & _ & Ec & _).
  unfold validTracks in *. rewrite Ets in H2. unfold relocated.
  apply Forall_app in H2. destruct H2 as [Hb Ha]. inversion Ha as [|? ? Htr Ha']; subst.
  apply Forall_app. split; [exact Hb|]. constructor; [|exact Ha'].
  simpl. rewrite Ec in Htr. apply Forall_app in Htr. destruct Htr as [Hpre Hpost].
  inversion Hpost as [|? ? _ Hpost']; subst.
  apply Forall_app. split; [exact Hpre|]. constructor; [|exact Hpost'].
  apply Hg. reflexivity.
Qed.

Lemma valid_splitFirst (m : Q) (c : Clip.t) :
  validClip c -> Clip.startTime c < m -> validClip (splitFirst m c).
Proof.
  intros (H0 & H1 & H2) Hm. unfold validClip, timed, splitFirst. cbn. repeat split; lra.
Qed.

Lemma valid_splitSecond (newId : string) (m : Q) (c : Clip.t) :
  validClip c -> Clip.startTime c < m -> m < Clip.endTime c ->
  validClip (splitSecond newId m c).
Proof.
  intros (H0 & H1 & H2) Hm Hm'. unfold validClip, timed, splitSecond. cbn.
  repeat split; lra.
Qed.

Lemma valid_splitClip (cid : ClipId) (m : Q) (s : State.t) :
  validStore s -> validStore (snd (splitClip cid m s)).
Proof.
  intros H. unfold splitClip.
  destruct (getClipById cid s) as [c|] eqn:E; [|exact H].
  destruct (getTrackByClipId cid s); [|exact H].
  destruct (Qle_bool m (Clip.startTime c)) eqn:E1; [exact H|].
  destruct (Qle_bool (Clip.endTime c) m) eqn:E2; [exact H|].
  cbn [orb generateId snd].
  assert (Hm : Clip.startTime c < m).
  { apply Qnot_le_lt. intro Hle. apply Qle_bool_iff in Hle. congruence. }
  assert (Hm' : m < Clip.endTime c).
  { apply Qnot_le_lt. intro Hle. apply Qle_bool_iff in Hle. congruence. }
  assert (Hc : validClip c).
  { destruct H as (_ & H2 & _). apply (validTracks_In _ _ H2). apply (findClip_In cid). exact E. }
  apply valid_saveHistory.
  destruct H as (H1 & H2 & H3 & H4). repeat split; try assumption.
  cbn. apply Forall_mapFirst; [exact H2|].
  intros tr Htr. simpl. apply Forall_substFirst; [exact Htr|].
  intros _ _. constructor; [apply valid_splitFirst; assumption|].
  constructor; [apply valid_splitSecond; assumption|constructor].
Qed.

Lemma valid_retime (t : Q) (c : Clip.t) : validClip c -> validClip (retime t c).
Proof.
  intros (H0 & H1 & H2). unfold validClip, timed, retime. cbn.
  pose proof (Q.le_max_l 0 t). repeat split; lra.
Qed.

Lemma valid_moveClip (cid : ClipId) (t : Q) (ntid : option string) (s : State.t) :
  validStore s -> validStore (moveClip cid t ntid s).
Proof.
  intros H. unfold moveClip.
  destruct (getClipById cid s) as [c|] eqn:E; [|exact H].
  destruct (getTrackByClipId cid s) as [currentTrack|]; [|exact H].
  assert (Hc : validClip c).
  { destruct H as (_ & H2 & _). apply (validTracks_In _ _ H2). apply (findClip_In cid). exact E. }
  set (t' := if State.isSnappingEnabled s then getSnappedTime t cid s else t).
  assert (H1 : validTracks (modifyClip cid (retime t') (State.tracks s))).
  { apply validTracks_modify; [apply H|]. intros. apply valid_retime. assumption. }
  apply valid_updateProjectDuration, valid_with_tracks; [exact H|].
  destruct ntid as [ntid|]; [|exact H1].
  destruct (_ && _); [|exact H1].
  destruct (find _ _); [|exact H1].
  destruct (TrackType_eqb _ _); [|exact H1].
  apply validTracks_push; [apply validTracks_remove; exact H1|].
  apply (valid_retime t' c Hc).
Qed.

Lemma valid_trimStart (t : Q) (c : Clip.t) : validClip c -> validClip (trimStart t c).
Proof.
  intros (H0 & H1 & H2). unfold validClip, timed, trimStart. cbn.
  set (hi := Clip.endTime c - 0.1).
  pose proof (Q.le_max_l 0 (Qmin hi t)) as M1.
  pose proof (Q.le_min_l hi t) as M2.
  assert (M3 : Qmax 0 (Qmin hi t) < Clip.endTime c).
  { apply Q.max_lub_lt; [lra|unfold hi in *; lra]. }
  repeat split; lra.
Qed.

Lemma valid_trimClipStart (cid : ClipId) (t : Q) (s : State.t) :
  validStore s -> validStore (trimClipStart cid t s).
Proof.
  intros H. unfold trimClipStart. destruct (getClipById cid s); [|exact H].
  apply valid_with_tracks; [exact H|].
  apply validTracks_modify; [apply H|]. intros. apply valid_trimStart. assumption.
Qed.

Lemma valid_trimEnd (t : Q) (c : Clip.t) : validClip c -> validClip (trimEnd t c).
Proof.
  intros (H0 & H1 & H2). unfold validClip, timed, trimEnd. cbn.
  pose proof (Q.le_max_l (Clip.startTime c + 0.1) t) as M1.
  repeat split; lra.
Qed.

Lemma valid_trimClipEnd (cid : ClipId) (t : Q) (s : State.t) :
  validStore s -> validStore (trimClipEnd cid t s).
Proof.
  intros H. unfold trimClipEnd. destruct (getClipById cid s); [|exact H].
  apply valid_updateProjectDuration, valid_with_tracks; [exact H|].
  apply validTracks_modify; [apply H|]. intros. apply valid_trimEnd. assumption.
Qed.

Lemma valid_with_selected (ids : list ClipId) (s : State.t) :
  validStore s -> validStore (State.with_selectedClipIds ids s).
Proof. intro H. exact H. Qed.

Lemma valid_selectClip (cid : ClipId) (add : bool) (s : State.t) :
  validStore s -> validStore (selectClip cid add s).
Proof.
  intros H. unfold selectClip.
  set (s1 := if add then s else _).
  assert (H1 : validStore s1).
  { unfold s1. destruct add; [exact H|].
    apply valid_with_selected, valid_with_tracks; [exact H|].
    apply validTracks_mapClips; [apply H|]. intros. assumption. }
  destruct (getClipById cid s1); [|exact H1].
  apply valid_with_selected, valid_with_tracks; [exact H1|].
  apply validTracks_modify; [apply H1|]. intros. assumption.
Qed.

Lemma valid_deselectClip (cid : ClipId) (s : State.t) :
  validStore s -> validStore (deselectClip cid s).
Proof.
  intros H. unfold deselectClip. destruct (getClipById cid s); [|exact H].
  apply valid_with_selected, valid_with_tracks; [exact H|].
  apply validTracks_modify; [apply H|]. intros. assumption.
Qed.

Lemma valid_deselectAll (s : State.t) : validStore s -> validStore (deselectAll s).
Proof.
  intros H. unfold deselectAll.
  assert (H1 : validStore (State.with_tracks
                             (mapClips (Clip.with_isSelected false) (State.tracks s)) s)).
  { apply valid_with_tracks; [exact H|].
    apply validTracks_mapClips; [apply H|]. intros. assumption. }
  exact H1.
Qed.

Lemma valid_selectAllClips (s : State.t) : validStore s -> validStore (selectAllClips s).
Proof.
  intros H. unfold selectAllClips.
  apply valid_with_selected, valid_with_tracks; [exact H|].
  apply validTracks_mapClips; [apply H|]. intros. assumption.
Qed.

Lemma valid_copySelectedClips (s : State.t) :
  validStore s -> validStore (copySelectedClips s).
Proof.
  intros (H1 & H2 & H3 & H4). unfold copySelectedClips. repeat split; try assumption.
  cbn. apply Forall_forall. intros c Hc. unfold selectedClips in Hc.
  apply in_flat_map in Hc. destruct Hc as (tr & Htr & Hc). apply filter_In in Hc.
  apply (validTracks_In _ _ H2). unfold allClips. apply in_flat_map. exists tr. tauto.
Qed.

Lemma fold_Qmin_le (l : list Q) (a : Q) :
  fold_left Qmin l a <= a /\ forall x, In x l -> fold_left Qmin l a <= x.
Proof.
  revert a. induction l as [|y l IH]; intro a; simpl.
  - split; [lra|tauto].
  - destruct (IH (Qmin a y)) as [I1 I2].
    pose proof (Q.le_min_l a y). pose proof (Q.le_min_r a y).
    split; [lra|]. intros x [<-|Hx]; [lra|auto].
Qed.

Lemma minOf_le (l : list Q) (x : Q) : In x l -> minOf l <= x.
Proof.
  destruct l as [|a l]; simpl; [tauto|].
  destruct (fold_Qmin_le l a) as [I1 I2]. intros [<-|Hx]; auto.
Qed.

Lemma valid_pasteData (pasteTime minStartTime : Q) (clipData : Clip.t)
    (newId tid : string) (ty : TrackType) (now : Q) :
  validClip clipData -> 0 <= pasteTime -> minStartTime <= Clip.startTime clipData ->
  validClip (buildClip newId tid ty (pasteData pasteTime minStartTime clipData) now).
Proof.
  intros (H0 & H1 & H2) Hp Hm. unfold validClip, timed. cbn. repeat split; lra.
Qed.

Lemma valid_pasteOne (pasteTime minStartTime : Q) (s : State.t) (c : Clip.t) :
  validStore s -> validClip c -> 0 <= pasteTime -> minStartTime <= Clip.startTime c ->
  validStore (pasteOne pasteTime minStartTime s c).
Proof.
  intros H Hc Hp Hm. unfold pasteOne. destruct (find _ _) as [track|]; [|exact H].
  destruct (negb _); [|exact H].
  apply valid_addClip; [exact H|]. intros. apply valid_pasteData; assumption.
Qed.

Lemma valid_fold_paste (pasteTime minStartTime : Q) (l : list Clip.t) :
  0 <= pasteTime ->
  Forall (fun c => validClip c /\ minStartTime <= Clip.startTime c) l ->
  forall st, validStore st -> validStore (fold_left (pasteOne pasteTime minStartTime) l st).
Proof.
  intros Hp Hall. induction Hall as [|c l [Hc Hm] _ IH]; intros st H; simpl; [exact H|].
  apply IH. apply valid_pasteOne; assumption.
Qed.

Lemma valid_pasteClips (s : State.t) : validStore s -> validStore (pasteClips s).
Proof.
  intros H. unfold pasteClips. destruct (State.clipboard s) as [|c0 cs] eqn:E; [exact H|].
  rewrite <- E. apply valid_fold_paste; [apply H| |exact H].
  destruct H as (_ & _ & H3 & _). rewrite Forall_forall in *. intros c Hc. split; [auto|].
  apply minOf_le. apply in_map. exact Hc.
Qed.

Lemma valid_duplicateData (clip : Clip.t) (newId tid : string) (ty : TrackType) (now : Q) :
  validClip clip -> validClip (buildClip newId tid ty (duplicateData clip) now).
Proof.
  intros (H0 & H1 & H2). unfold validClip, timed. cbn. repeat split; lra.
Qed.

Lemma deref_In (r : nat * nat) (s : State.t) (c : Clip.t) :
  deref r s = Some c -> In c (allClips (State.tracks s)).
Proof.
  unfold deref. destruct (nth_error _ (fst r)) as [tr|] eqn:E; [|discriminate].
  intro H. unfold allClips. apply in_flat_map. exists tr.
  split; eapply nth_error_In; eassumption.
Qed.

Lemma valid_duplicateOne (s : State.t) (r : nat * nat) :
  validStore s -> validStore (duplicateOne s r).
Proof.
  intros H. unfold duplicateOne.
  destruct (deref r s) as [clip|] eqn:E; [|exact H].
  destruct (getTrackByClipId _ s) as [track|]; [|exact H].
  destruct (negb _); [|exact H].
  assert (Hc : validClip clip).
  { apply (validTracks_In (State.tracks s)); [apply H|]. apply (deref_In r). exact E. }
  pose proof (valid_addClip (Track.id track) (duplicateData clip) s H
                (fun newId ty => valid_duplicateData clip newId _ ty _ Hc)) as Ha.
  destruct (addClip _ _ s) as [[newClip|] s1]; cbn [snd] in Ha; [|exact Ha].
  apply valid_selectClip. exact Ha.
Qed.

Lemma valid_duplicateSelectedClips (s : State.t) :
  validStore s -> validStore (duplicateSelectedClips s).
Proof.
  intros H. unfold duplicateSelectedClips.
  generalize (selectedRefs s). intro refs.
  pose proof (valid_deselectAll s H) as H1. revert H1. generalize (deselectAll s).
  induction refs as [|r refs IH]; intros st Hst; simpl; [exact Hst|].
  apply IH. apply valid_duplicateOne. exact Hst.
Qed.

Lemma valid_exec (o : Op) (s : State.t) :
  validStore s -> guard o s -> validStore (exec o s).
Proof.
  intros H Hg. destruct o; cbn [exec].
  - apply valid_addTrack; exact H.
  - apply valid_removeTrack; exact H.
  - apply valid_addClip; [exact H|exact Hg].
  - apply valid_removeClip; exact H.
  - apply valid_updateClip; [exact H|exact Hg].
  - apply valid_splitClip; exact H.
  - apply valid_moveClip; exact H.
  - apply valid_trimClipStart; exact H.
  - apply valid_trimClipEnd; exact H.
  - apply valid_selectClip; exact H.
  - apply valid_deselectClip; exact H.
  - apply valid_deselectAll; exact H.
  - apply valid_selectAllClips; exact H.
  - apply valid_copySelectedClips; exact H.
  - apply valid_pasteClips; exact H.
  - apply valid_duplicateSelectedClips; exact H.
  - apply valid_undo; exact H.
  - apply valid_redo; exact H.
Qed.

(** C3, as the code has it.  Start from a valid store: the playhead is not
    negative and every clip, on the tracks, in the clipboard and in the
    history, has [0 <= startTime < endTime] and
    [duration == endTime - startTime].  Run any sequence of operations of the
    store in which each [addClip] and each [updateClip] is given data that
    make the clip it builds or changes valid.  Then every clip on every
    track has [endTime > startTime] and [duration == endTime - startTime],
    and the store is valid again. *)
Theorem clip_times_invariant (ops : list Op) :
  forall s,
    validStore s -> guarded ops s ->
    validStore (run ops s) /\
    forall tr c,
      In tr (State.tracks (run ops s)) -> In c (Track.clips tr) ->
      Clip.endTime c > Clip.startTime c /\
      Clip.duration c == Clip.endTime c - Clip.startTime c.
Proof.
  induction ops as [|o ops IH]; intros s H Hg.
  - split; [exact H|]. intros tr c Htr Hc.
    assert (Hv : validClip c).
    { apply (validTracks_In (State.tracks s)); [apply H|].
      unfold allClips. apply in_flat_map. exists tr. auto. }
    destruct Hv as (_ & H1 & H2). auto.
  - destruct Hg as [Hg1 Hg2]. rewrite run_cons. apply IH; [|exact Hg2].
    apply valid_exec; assumption.
Qed.

Lemma validStore_initialStore : validStore initialStore.
Proof.
  unfold validStore. cbn. repeat split; try constructor. lra.
Qed.

Lemma valid_videoSpan (a b : Q) (c : Clip.t) :
  0 <= a -> a < b -> validClip (PartialClip.assign (videoSpan a b) c).
Proof.
  intros H0 H1. unfold validClip, timed. cbn. repeat split; lra.
Qed.

Lemma guard_addClip_videoSpan (a b : Q) (tid : string) (s : State.t) :
  0 <= a -> a < b -> guard (OAddClip tid (videoSpan a b)) s.
Proof.
  intros H0 H1 newId ty. unfold buildClip. apply valid_videoSpan; assumption.
Qed.

Lemma guard_updateClip_videoSpan (a b : Q) (cid : ClipId) (s : State.t) :
  0 <= a -> a < b -> guard (OUpdateClip cid (videoSpan a b)) s.
Proof.
  intros H0 H1 c _. apply valid_videoSpan; assumption.
Qed.

Ltac guard_steps :=
  repeat (split;
          [first [exact I
                 | apply guard_addClip_videoSpan; lra
                 | apply guard_updateClip_videoSpan; lra]|]);
  exact I.

Lemma valid_updateTime (t : Q) (s : State.t) :
  validStore s -> 0 <= t -> validStore (updateTime t s).
Proof. intros (H1 & H2 & H3 & H4) Ht. repeat split; assumption. Qed.

Lemma validStore_storeA : validStore storeA.
Proof.
  unfold storeA. apply valid_exec; [|apply guard_addClip_videoSpan; lra].
  unfold storeV1. apply valid_addTrack. exact validStore_initialStore.
Qed.

Lemma validStore_storeC : validStore storeC.
Proof.
  unfold storeC. apply valid_updateTime; [|lra].
  apply valid_copySelectedClips, valid_selectAllClips.
  unfold storeB. apply valid_exec; [|apply guard_addClip_videoSpan; lra].
  exact validStore_storeA.
Qed.

Lemma clip_times_invariant_witness :
  Forall
    (fun tr =>
       Forall
         (fun c =>
            Clip.endTime c > Clip.startTime c /\
            Clip.duration c == Clip.endTime c - Clip.startTime c)
         (Track.clips tr))
    (State.tracks (run sampleSession storeC)).
Proof.
  apply Forall_forall. intros tr Htr. apply Forall_forall. intros c Hc.
  revert tr c Htr Hc.
  apply (clip_times_invariant sampleSession storeC).
  - exact validStore_storeC.
  - unfold sampleSession. guard_steps.
Defined.

(** C3 as stated fails for [updateClip], which merges the properties it is
    given and recomputes no clip duration: after
    [updateClip(id, { startTime: 12 })] the clip [[0,10)] of the valid store
    starts at 12, ends at 10 and still has the duration 10. *)
Lemma updateClip_breaks_clip_times :
  validStore storeA /\
  exists tr c,
    In tr (State.tracks (run [OUpdateClip (Some "clip-1"%string) (videoStart 12)] storeA)) /\
    In c (Track.clips tr) /\
    ~ (Clip.endTime c > Clip.startTime c /\
       Clip.duration c == Clip.endTime c - Clip.startTime c).
Proof.
  split; [exact validStore_storeA|].
  eexists. eexists. split; [vm_compute; left; reflexivity|].
  split; [left; reflexivity|]. cbn. intros [H _]. lra.
Qed.

(** The call of [addClip] for the stock-image placeholder gives a start and
    a duration but no end: with the playhead at 7 the clip covers [[0,12)]
    and has the duration 5. *)
Lemma addClip_without_endTime_breaks_duration :
  exists tr c,
    In tr (State.tracks storeStock) /\ In c (Track.clips tr) /\
    Clip.startTime c == 0 /\ Clip.endTime c == 12 /\ Clip.duration c == 5.
Proof.
  eexists. eexists. split; [vm_compute; left; reflexivity|].
  split; [left; reflexivity|]. cbn. repeat split; reflexivity.
Qed.

(** ** The text compositor: overlapping animation windows *)

(** Inside its window an animation applies its effect at its progress. *)
Lemma animateIn_window (currentTime : Q) (o : TextOverlay.t) (a : Anim.t) :
  inWindow currentTime o ->
  animateIn currentTime o a
  = entranceEffect (TextAnimation.type (TextOverlay.animationIn o))
      (inProgress currentTime o) a.
Proof.
  intros [N H]. apply Qlt_bool_iff in H. unfold animateIn, inProgress. rewrite H.
  destruct (TextAnimation.type (TextOverlay.animationIn o)); try reflexivity.
Qed.

Lemma animateOut_window (currentTime : Q) (o : TextOverlay.t) (a : Anim.t) :
  outWindow currentTime o ->
  animateOut currentTime o a
  = exitEffect (TextAnimation.type (TextOverlay.animationOut o))
      (outProgress currentTime o) a.
Proof.
  intros [N H]. apply Qlt_bool_iff in H. unfold animateOut, outProgress. rewrite H.
  destruct (TextAnimation.type (TextOverlay.animationOut o)); try reflexivity.
Qed.

(** C9, as the code has it.  For a visible text overlay, at a time inside
    both the entrance and the exit window, [animateTexts] applies the
    entrance effect and then the exit effect to the same variables: the
    alpha is the product of the entrance fade factor and the exit fade
    factor; the vertical position is the position of the overlay plus the
    entrance slide offset minus the exit slide offset; the scale is the exit
    scale [1 - t_out] when the exit animation is a scale, and the entrance
    scale otherwise; a typewriter entrance still truncates the text. *)
Theorem text_animation_overlap (currentTime : Q) (o : TextOverlay.t) (textObj : TextObj.t) :
  isVisibleAt currentTime o = true ->
  inWindow currentTime o ->
  outWindow currentTime o ->
  let t_in := inProgress currentTime o in
  let t_out := outProgress currentTime o in
  let animIn := TextAnimation.type (TextOverlay.animationIn o) in
  let animOut := TextAnimation.type (TextOverlay.animationOut o) in
  let r := animateText currentTime (Some o) textObj in
  TextObj.visible r = true /\
  TextObj.alpha r
    == (match animIn with AFade => t_in | _ => 1 end)
       * (match animOut with AFade => 1 - t_out | _ => 1 end) /\
  TextObj.y r
    == TextOverlay.y o
       + (match animIn with ASlide => (1 - t_in) * 50 | _ => 0 end)
       - (match animOut with ASlide => t_out * 50 | _ => 0 end) /\
  TextObj.scaleX r
    = (match animOut with
       | AScale => 1 - t_out
       | _ => match animIn with AScale => t_in | _ => 1 end
       end) /\
  TextObj.scaleY r = TextObj.scaleX r /\
  TextObj.x r = TextOverlay.x o /\
  TextObj.text r
    = (match animIn with
       | ATypewriter =>
           String.substring 0
             (Z.to_nat (Qfloor (textLength (TextOverlay.text o) * t_in)))
             (TextOverlay.text o)
       | _ => TextOverlay.text o
       end).
Proof.
  intros Hvis Hin Hout t_in t_out animIn animOut r.
  assert (Er : r = let a := exitEffect animOut t_out
                              (entranceEffect animIn t_in (animInit o)) in
                   TextObj.mk true (Anim.alpha a) (Anim.x a) (Anim.y a) (Anim.scaleX a)
                     (Anim.scaleY a) (Anim.textContent a)).
  { unfold r, animateText. rewrite Hvis. unfold animState.
    rewrite (animateIn_window _ _ _ Hin), (animateOut_window _ _ _ Hout). reflexivity. }
  clearbody r. subst r.
  destruct Hin as [Nin _]. destruct Hout as [Nout _]. fold animIn in Nin. fold animOut in Nout.
  clearbody t_in t_out animIn animOut. unfold animInit.
  destruct animIn; try (exfalso; apply Nin; reflexivity);
    destruct animOut; try (exfalso; apply Nout; reflexivity);
    destruct (TextOverlay.isSelected o);
    cbn; repeat split; try reflexivity; ring.
Qed.

Lemma text_animation_overlap_witness :
  let r := animateText (1 # 2) (Some (shortOverlay fade1 fade1)) blankObj in
  TextObj.alpha r == 1 # 4 /\ TextObj.scaleX r = 1.
Proof.
  destruct (text_animation_overlap (1 # 2) (shortOverlay fade1 fade1) blankObj)
    as (_ & Ha & _ & Hs & _).
  - reflexivity.
  - split; [discriminate|reflexivity].
  - split; [discriminate|reflexivity].
  - split; [rewrite Ha; reflexivity|rewrite Hs; reflexivity].
Defined.

(** C9 as stated fails when both animations are fades: on the overlay
    [[0,1]] with two fades of one second, at [t = 1/2] the exit alone gives
    the alpha [1/2], and [animateTexts] writes [1/4], the product with the
    entrance factor. *)
Lemma fades_compose_in_overlap :
  let o := shortOverlay fade1 fade1 in
  let t := 1 # 2 in
  isVisibleAt t o = true /\ inWindow t o /\ outWindow t o /\
  ~ TextObj.alpha (animateText t (Some o) blankObj) == Anim.alpha (exitOnly t o).
Proof.
  split; [reflexivity|].
  split; [split; [discriminate|reflexivity]|].
  split; [split; [discriminate|reflexivity]|].
  vm_compute. discriminate.
Qed.

(** ** The clipboard: what [pasteClips] builds *)

(** The clip [addClip] builds from the literal of [pasteClips]: re-based by
    the distance from the earliest copied start to the paste time, with the
    length its [duration] gives, not selected, and with the id [undefined]:
    the [id: undefined] of the literal overrides the generated id. *)
Lemma pasted_clip (newId tid : string) (ty : TrackType) (pasteTime minStartTime now : Q)
    (clipData : Clip.t) :
  let c := buildClip newId tid ty (pasteData pasteTime minStartTime clipData) now in
  Clip.startTime c = pasteTime + (Clip.startTime clipData - minStartTime) /\
  Clip.endTime c
    = pasteTime + (Clip.startTime clipData - minStartTime) + Clip.duration clipData /\
  Clip.duration c = Clip.duration clipData /\
  Clip.isSelected c = false /\
  Clip.id c = None.
Proof. repeat split; reflexivity. Qed.

(** The same for the literal of [duplicateSelectedClips]. *)
Lemma duplicated_clip (newId tid : string) (ty : TrackType) (now : Q) (clip : Clip.t) :
  let c := buildClip newId tid ty (duplicateData clip) now in
  Clip.startTime c = Clip.endTime clip /\
  Clip.endTime c = Clip.endTime clip + Clip.duration clip /\
  Clip.isSelected c = Clip.isSelected clip /\
  Clip.id c = None.
Proof. repeat split; reflexivity. Qed.

(** Where [pasteClips] puts one clip: on the track [addClip] finds under the
    id of the first track of the type of the clip, when that track is not
    locked; nowhere otherwise. *)
Lemma pasteOne_placement (pasteTime minStartTime : Q) (s : State.t) (clipData : Clip.t) :
  match find (fun tr => TrackType_eqb (Track.type tr) (Clip.type clipData)) (State.tracks s) with
  | Some track =>
      if Track.isLocked track then pasteOne pasteTime minStartTime s clipData = s
      else
        exists newId,
          State.tracks (pasteOne pasteTime minStartTime s clipData)
          = pushClip (Track.id track)
              (buildClip newId (Track.id track)
                 (match find (Track.hasId (Track.id track)) (State.tracks s) with
                  | Some tr => Track.type tr
                  | None => Track.type track
                  end)
                 (pasteData pasteTime minStartTime clipData) (State.currentTime s))
              (State.tracks s)
  | None => pasteOne pasteTime minStartTime s clipData = s
  end.
Proof.
  unfold pasteOne.
  destruct (find (fun tr => TrackType_eqb _ _) _) as [track|] eqn:F; [|reflexivity].
  destruct (Track.isLocked track); [reflexivity|]. cbn [negb].
  unfold addClip.
  destruct (find (Track.hasId (Track.id track)) (State.tracks s)) as [tr|] eqn:G.
  - cbn [generateId snd]. exists ("clip" ++ "-" ++ State.entropy s (State.draws s))%string.
    rewrite snapshot_saveHistory_tracks, updateProjectDuration_tracks. reflexivity.
  - exfalso. apply find_split in F. destruct F as (l1 & l2 & E & _ & _).
    apply find_none_existsb in G. rewrite E, existsb_app in G. simpl in G.
    unfold Track.hasId at 2 in G. rewrite String.eqb_refl in G.
    rewrite orb_true_r in G. discriminate.
Qed.

(** C4 at the scenario of the specification: the clips [[2,5)] and [[5,8)]
    pasted at the playhead [10] land on [[10,13)] and [[13,16)] of the video
    track, and both have the id [undefined]: the ids are not fresh, and they
    are not distinct from each other. *)
Lemma pasteClips_ids_undefined :
  clipSpans (pasteClips storeP)
  = [(Some "clip-1"%string, 2, 5); (Some "clip-2"%string, 5, 8);
     (None, 10, 13); (None, 13, 16)].
Proof. vm_compute. reflexivity. Qed.

Lemma includes_iff (cid : ClipId) (ids : list ClipId) :
  includes cid ids = true <-> In cid ids.
Proof.
  unfold includes. rewrite existsb_exists. split.
  - intros (x & Hx & E). apply ClipId_eqb_eq in E. subst. exact Hx.
  - intro H. exists cid. split; [exact H|apply ClipId_eqb_refl].
Qed.

Lemma consistentb_iff (s : State.t) : consistentb s = true <-> consistent s.
Proof.
  unfold consistentb, consistent. rewrite forallb_forall. split.
  - intros H c Hc. specialize (H c Hc). apply Bool.eqb_prop in H.
    rewrite H. apply includes_iff.
  - intros H c Hc. specialize (H c Hc).
    destruct (Clip.isSelected c); destruct (includes _ _) eqn:E; try reflexivity.
    + assert (Hin : In (Clip.id c) (State.selectedClipIds s)) by (apply H; reflexivity).
      apply includes_iff in Hin. congruence.
    + apply includes_iff in E. apply H in E. discriminate.
Qed.

(** C8 at two selected clips: [duplicateSelectedClips] leaves the second
    clone unselected while its id, [undefined] like the id of the first
    clone, is among the selected ids. *)
Lemma duplicate_breaks_selection :
  consistent storeC /\ ~ consistent (duplicateSelectedClips storeC).
Proof.
  split.
  - apply consistentb_iff. vm_compute. reflexivity.
  - intro H. apply consistentb_iff in H.
    assert (E : consistentb (duplicateSelectedClips storeC) = false)
      by (vm_compute; reflexivity).
    congruence.
Qed.

(** What the store holds after the call: the clones [[10,20)] and [[25,30)]
    with the id [undefined], the first one flagged, the second one not, and
    the one selected id [undefined]. *)
Lemma duplicate_result :
  map (fun c => (Clip.id c, Clip.startTime c, Clip.endTime c, Clip.isSelected c))
    (allClips (State.tracks (duplicateSelectedClips storeC)))
  = [(Some "clip-1"%string, 0, 10, false); (Some "clip-2"%string, 20, 25, false);
     (None, 10, 20, true); (None, 25, 30, false)] /\
  State.selectedClipIds (duplicateSelectedClips storeC) = [None].
Proof. split; vm_compute; reflexivity. Qed.

(** [pasteClips] breaks the agreement of flags and selected ids in the same
    way: once a pasted clip, whose id is [undefined], is selected, the next
    pasted clip is unselected with a selected id. *)
Lemma paste_breaks_selection :
  consistent storeQ /\ ~ consistent (pasteClips storeQ).
Proof.
  split.
  - apply consistentb_iff. vm_compute. reflexivity.
  - intro H. apply consistentb_iff in H.
    assert (E : consistentb (pasteClips storeQ) = false) by (vm_compute; reflexivity).
    congruence.
Qed.

(** ** Selection: the operations that keep flags and selected ids in step *)

(** *** Lists of ids *)

Lemma In_pushNew (cid x : ClipId) (ids : list ClipId) :
  In x (pushNew cid ids) <-> In x ids \/ x = cid.
Proof.
  unfold pushNew. destruct (includes cid ids) eqn:E.
  - apply includes_iff in E. split; [auto|]. intros [H| ->]; assumption.
  - rewrite in_app_iff. simpl. split; intros [H|H]; auto.
    + destruct H as [H|[]]; auto.
Qed.

Lemma NoDup_pushNew (cid : ClipId) (ids : list ClipId) : NoDup ids -> NoDup (pushNew cid ids).
Proof.
  intro H. unfold pushNew. destruct (includes cid ids) eqn:E; [exact H|].
  assert (Hn : ~ In cid ids).
  { intro Hin. apply includes_iff in Hin. congruence. }
  apply NoDup_app; [exact H|repeat constructor; intros []|].
  intros x Hx [<-|[]]. contradiction.
Qed.

Lemma dropId_spec (cid : ClipId) (ids : list ClipId) :
  NoDup ids ->
  NoDup (dropId cid ids) /\ forall x, In x (dropId cid ids) <-> In x ids /\ x <> cid.
Proof.
  unfold dropId, removeFirst. induction 1 as [|a ids Ha Hnd IH]; simpl.
  - split; [constructor|]. intro x. tauto.
  - destruct (ClipId_eqb a cid) eqn:E.
    + apply ClipId_eqb_eq in E. subst a. simpl. split; [exact Hnd|].
      intro x. split.
      * intro Hx. split; [auto|]. intros ->. contradiction.
      * intros [[-> |Hx] Hne]; [congruence|exact Hx].
    + assert (Hne : a <> cid).
      { intros ->. rewrite ClipId_eqb_refl in E. discriminate. }
      destruct IH as [IH1 IH2]. split.
      * constructor; [|exact IH1]. intro Hin. apply IH2 in Hin. tauto.
      * intro x. simpl. rewrite IH2. split.
        -- intros [-> |[Hx Hn]]; auto.
        -- intros [[-> |Hx] Hn]; auto.
Qed.

(** *** The clips of the tracks as one list *)

Lemma substFirst_app {A : Type} (p : A -> bool) (g : A -> list A) (l1 l2 : list A) :
  substFirst p g (l1 ++ l2)
  = if existsb p l1 then (substFirst p g l1 ++ l2)%list else (l1 ++ substFirst p g l2)%list.
Proof.
  induction l1 as [|a l1 IH]; simpl; [reflexivity|].
  destruct (p a); simpl.
  - rewrite app_assoc. reflexivity.
  - rewrite IH. destruct (existsb p l1); reflexivity.
Qed.

Lemma allClips_subst (cid : ClipId) (g : Clip.t -> list Clip.t) (ts : list Track.t) :
  allClips
    (mapFirst (Track.hasClip cid)
       (fun tr => Track.with_clips (substFirst (Clip.hasId cid) g (Track.clips tr)) tr) ts)
  = substFirst (Clip.hasId cid) g (allClips ts).
Proof.
  unfold mapFirst, allClips. induction ts as [|t ts IH]; simpl; [reflexivity|].
  rewrite substFirst_app. fold (Track.hasClip cid t).
  destruct (Track.hasClip cid t); simpl.
  - reflexivity.
  - rewrite IH. reflexivity.
Qed.

Lemma allClips_modify (cid : ClipId) (f : Clip.t -> Clip.t) (ts : list Track.t) :
  allClips (modifyClip cid f ts) = mapFirst (Clip.hasId cid) f (allClips ts).
Proof. unfold modifyClip, mapFirst at 2 3. apply allClips_subst. Qed.

Lemma allClips_mapClips (f : Clip.t -> Clip.t) (ts : list Track.t) :
  allClips (mapClips f ts) = map f (allClips ts).
Proof.
  unfold mapClips, allClips. induction ts as [|t ts IH]; simpl; [reflexivity|].
  rewrite map_app, IH. reflexivity.
Qed.

Lemma findClip_allClips (cid : ClipId) (ts : list Track.t) :
  findClip cid ts = find (Clip.hasId cid) (allClips ts).
Proof.
  unfold allClips. induction ts as [|t ts IH]; simpl; [reflexivity|].
  rewrite IH. induction (Track.clips t) as [|c cs IHc]; simpl; [reflexivity|].
  destruct (Clip.hasId cid c); [reflexivity|exact IHc].
Qed.

Lemma hasClip_allClips (cid : ClipId) (ts : list Track.t) :
  existsb (Track.hasClip cid) ts = existsb (Clip.hasId cid) (allClips ts).
Proof.
  unfold allClips. induction ts as [|t ts IH]; simpl; [reflexivity|].
  rewrite existsb_app, IH. reflexivity.
Qed.

Lemma allClips_removeTrack (tid : string) (ts : list Track.t) (tr : Track.t) :
  find (Track.hasId tid) ts = Some tr ->
  exists l1 l2,
    allClips ts = (l1 ++ Track.clips tr ++ l2)%list /\
    allClips (removeFirst (Track.hasId tid) ts) = (l1 ++ l2)%list.
Proof.
  intro H. destruct (find_split _ _ _ H) as (t1 & t2 & -> & F & P).
  unfold removeFirst. rewrite substFirst_at by assumption. simpl.
  exists (allClips t1), (allClips t2). unfold allClips.
  rewrite !flat_map_app. simpl. auto.
Qed.

(** The first clip with the id [cid] in a list that has one. *)
Lemma first_with_id (cid : ClipId) (cs : list Clip.t) (c : Clip.t) :
  find (Clip.hasId cid) cs = Some c ->
  exists pre post,
    cs = (pre ++ c :: post)%list /\ Clip.id c = cid /\
    forall g, substFirst (Clip.hasId cid) g cs = (pre ++ g c ++ post)%list.
Proof.
  intro H. destruct (find_split _ _ _ H) as (pre & post & -> & F & P).
  exists pre, post. split; [reflexivity|]. split.
  - unfold Clip.hasId in P. apply ClipId_eqb_eq in P. exact P.
  - intro g. apply substFirst_at; assumption.
Qed.

(** *** Steps that keep clips and selected ids in agreement *)

Lemma idsOf_app (l1 l2 : list Clip.t) : idsOf (l1 ++ l2) = (idsOf l1 ++ idsOf l2)%list.
Proof. apply map_app. Qed.

Lemma NoDup_ids_others (pre post : list Clip.t) (c x : Clip.t) :
  NoDup (idsOf (pre ++ c :: post)) -> In x (pre ++ post) -> Clip.id x <> Clip.id c.
Proof.
  intros H Hx E. rewrite idsOf_app in H. simpl in H.
  apply NoDup_remove_2 in H. apply H. rewrite <- idsOf_app, <- E.
  unfold idsOf. apply in_map. exact Hx.
Qed.

Lemma In_middle {A : Type} (x a : A) (l1 l2 : list A) :
  In x (l1 ++ a :: l2) <-> x = a \/ In x (l1 ++ l2).
Proof.
  rewrite !in_app_iff. simpl. split.
  - intros [H|[H|H]]; auto.
  - intros [H|[H|H]]; auto.
Qed.

(** The clip [c] is replaced by [c'] with the same id, and the selection by
    [ids'], which differs from [ids] at most in that id. *)
Lemma selOk_replace (pre post : list Clip.t) (c c' : Clip.t) (ids ids' : list ClipId) :
  selOk (pre ++ c :: post) ids ->
  Clip.id c' = Clip.id c ->
  NoDup ids' ->
  (Clip.isSelected c' = true <-> In (Clip.id c) ids') ->
  (forall x, x <> Clip.id c -> (In x ids' <-> In x ids)) ->
  selOk (pre ++ c' :: post) ids'.
Proof.
  intros (H1 & H2 & H3) Hid Hnd Hc Hother. split; [|split; [exact Hnd|]].
  - rewrite idsOf_app in *. simpl in *. rewrite Hid. exact H1.
  - intros x Hx. apply In_middle in Hx. destruct Hx as [->|Hx].
    + rewrite Hid. exact Hc.
    + pose proof (NoDup_ids_others pre post c x H1 Hx) as Hne.
      rewrite (Hother _ Hne). apply H3. apply In_middle. right. exact Hx.
Qed.

Lemma selOk_remove (pre post : list Clip.t) (c : Clip.t) (ids : list ClipId) :
  selOk (pre ++ c :: post) ids -> selOk (pre ++ post) (dropId (Clip.id c) ids).
Proof.
  intros (H1 & H2 & H3). destruct (dropId_spec (Clip.id c) ids H2) as [D1 D2].
  split; [|split; [exact D1|]].
  - rewrite idsOf_app in *. simpl in H1. apply NoDup_remove_1 in H1. exact H1.
  - intros x Hx. pose proof (NoDup_ids_others pre post c x H1 Hx) as Hne.
    rewrite D2. rewrite (H3 x) by (apply In_middle; right; exact Hx). tauto.
Qed.

Lemma selOk_split (pre post : list Clip.t) (c c1 c2 : Clip.t) (ids : list ClipId) :
  selOk (pre ++ c :: post) ids ->
  Clip.id c1 = Clip.id c -> Clip.isSelected c1 = Clip.isSelected c ->
  Clip.isSelected c2 = false ->
  ~ In (Clip.id c2) (idsOf (pre ++ c :: post)) -> ~ In (Clip.id c2) ids ->
  selOk (pre ++ c1 :: c2 :: post) ids.
Proof.
  intros (H1 & H2 & H3) Hid Hsel Hsel2 Hf1 Hf2. split; [|split; [exact H2|]].
  - rewrite idsOf_app in *. simpl in *. rewrite Hid.
    apply NoDup_remove in H1. destruct H1 as [N1 N2].
    apply (NoDup_Add (a := Clip.id c) (l := (idsOf pre ++ Clip.id c2 :: idsOf post)%list)).
    { apply Add_app. }
    split.
    + apply (NoDup_Add (a := Clip.id c2) (l := (idsOf pre ++ idsOf post)%list));
        [apply Add_app|].
      split; [exact N1|]. intro Hin. apply Hf1. apply in_app_iff.
      apply in_app_iff in Hin. simpl. tauto.
    + intro Hin. apply in_app_iff in Hin. simpl in Hin.
      destruct Hin as [Hin|[E|Hin]].
      * apply N2. apply in_app_iff. auto.
      * apply Hf1. rewrite E. apply in_app_iff. simpl. auto.
      * apply N2. apply in_app_iff. auto.
  - intros x Hx. apply In_middle in Hx. destruct Hx as [->|Hx].
    + rewrite Hid, Hsel. apply H3. apply In_middle. auto.
    + apply In_middle in Hx. destruct Hx as [->|Hx].
      * rewrite Hsel2. split; [discriminate|]. intro. contradiction.
      * apply H3. apply In_middle. auto.
Qed.

Lemma selOk_clear (cs : list Clip.t) :
  NoDup (idsOf cs) -> selOk (map (Clip.with_isSelected false) cs) [].
Proof.
  intro H. split; [|split; [constructor|]].
  - unfold idsOf in *. rewrite map_map. exact H.
  - intros c Hc. apply in_map_iff in Hc. destruct Hc as (c0 & <- & _). simpl.
    split; [discriminate|intros []].
Qed.

Lemma fold_pushNew (cs : list Clip.t) :
  forall ids, NoDup ids ->
  NoDup (fold_left (fun acc c => pushNew (Clip.id c) acc) cs ids) /\
  forall x, In x (fold_left (fun acc c => pushNew (Clip.id c) acc) cs ids)
            <-> In x ids \/ In x (idsOf cs).
Proof.
  induction cs as [|c cs IH]; intros ids H; simpl.
  - split; [exact H|]. intro x. tauto.
  - destruct (IH (pushNew (Clip.id c) ids) (NoDup_pushNew _ _ H)) as [I1 I2].
    split; [exact I1|]. intro x. rewrite I2, In_pushNew. split.
    + intros [[Hx|Hx]|Hx]; auto.
    + intros [Hx|[Hx|Hx]]; auto.
Qed.

Lemma selOk_all (cs : list Clip.t) (ids : list ClipId) :
  NoDup (idsOf cs) -> NoDup ids ->
  selOk (map (Clip.with_isSelected true) cs)
    (fold_left (fun acc c => pushNew (Clip.id c) acc) cs ids).
Proof.
  intros H Hn. destruct (fold_pushNew cs ids Hn) as [F1 F2].
  split; [|split; [exact F1|]].
  - unfold idsOf in *. rewrite map_map. exact H.
  - intros c Hc. apply in_map_iff in Hc. destruct Hc as (c0 & <- & Hc0). simpl.
    split; [|reflexivity]. intros _. apply F2. right. unfold idsOf. apply in_map. exact Hc0.
Qed.

Lemma selOk_removeMany (l1 lt l2 : list Clip.t) :
  forall ids,
    selOk (l1 ++ lt ++ l2) ids ->
    selOk (l1 ++ l2) (fold_left (fun acc c => dropId (Clip.id c) acc) lt ids).
Proof.
  induction lt as [|c lt IH]; intros ids H; simpl; [exact H|].
  apply IH. apply (selOk_remove l1 (lt ++ l2) c ids). exact H.
Qed.

(** *** Each operation keeps the selection invariant *)

Lemma selInv_saveHistory (s : State.t) : selInv s -> selInv (saveHistory s).
Proof.
  intros [H1 H2].
  assert (Hh : Forall
                 (fun h => selOk (allClips (HistoryState.tracks h))
                             (HistoryState.selectedClipIds h))
                 (slice0 (State.historyIndex s + 1) (State.history s) ++ [snapshot s])).
  { apply Forall_app. split; [apply Forall_slice0; exact H2|].
    constructor; [exact H1|constructor]. }
  unfold saveHistory. destruct (_ <? _)%nat; split; try assumption.
  apply Forall_tl. exact Hh.
Qed.

Lemma selInv_updateProjectDuration (s : State.t) :
  selInv s -> selInv (updateProjectDuration s).
Proof.
  intros [H1 H2]. unfold updateProjectDuration. destruct (Qlt_bool _ _); split; assumption.
Qed.

Lemma selInv_write (ts : list Track.t) (ids : list ClipId) (s : State.t) :
  selInv s -> selOk (allClips ts) ids ->
  selInv (State.with_selectedClipIds ids (State.with_tracks ts s)).
Proof. intros [_ H2] H. split; assumption. Qed.

Lemma selInv_selectClip (cid : ClipId) (add : bool) (s : State.t) :
  selInv s -> selInv (selectClip cid add s).
Proof.
  intros H. unfold selectClip. set (s1 := if add then s else _).
  assert (H1 : selInv s1).
  { unfold s1. destruct add; [exact H|]. apply selInv_write; [exact H|].
    rewrite allClips_mapClips. apply selOk_clear. apply H. }
  destruct (getClipById cid s1) as [c|] eqn:E; [|exact H1].
  apply selInv_write; [exact H1|].
  unfold getClipById in E. rewrite findClip_allClips in E.
  destruct (first_with_id _ _ _ E) as (pre & post & EL & Hid & Hs).
  rewrite allClips_modify. unfold mapFirst. rewrite Hs. simpl.
  destruct H1 as [H1 _]. rewrite EL in H1.
  apply (selOk_replace pre post c _ (State.selectedClipIds s1)); try assumption.
  - reflexivity.
  - apply NoDup_pushNew. apply H1.
  - simpl. rewrite In_pushNew, Hid. tauto.
  - intros x Hx. rewrite In_pushNew. rewrite Hid in Hx. tauto.
Qed.

Lemma selInv_deselectClip (cid : ClipId) (s : State.t) :
  selInv s -> selInv (deselectClip cid s).
Proof.
  intros H. unfold deselectClip.
  destruct (getClipById cid s) as [c|] eqn:E; [|exact H].
  apply selInv_write; [exact H|].
  unfold getClipById in E. rewrite findClip_allClips in E.
  destruct (first_with_id _ _ _ E) as (pre & post & EL & Hid & Hs).
  rewrite allClips_modify. unfold mapFirst. rewrite Hs. simpl.
  destruct H as [H _]. rewrite EL in H.
  destruct (dropId_spec cid (State.selectedClipIds s) (proj1 (proj2 H))) as [D1 D2].
  apply (selOk_replace pre post c _ (State.selectedClipIds s)); try assumption.
  - reflexivity.
  - simpl. rewrite D2, Hid. split; [discriminate|tauto].
  - intros x Hx. rewrite D2. rewrite Hid in Hx. tauto.
Qed.

Lemma selInv_deselectAll (s : State.t) : selInv s -> selInv (deselectAll s).
Proof.
  intros H. unfold deselectAll.
  assert (H1 : selInv (State.with_selectedClipIds []
                         (State.with_tracks
                            (mapClips (Clip.with_isSelected false) (State.tracks s)) s))).
  { apply selInv_write; [exact H|]. rewrite allClips_mapClips. apply selOk_clear. apply H. }
  exact H1.
Qed.

Lemma selInv_selectAllClips (s : State.t) : selInv s -> selInv (selectAllClips s).
Proof.
  intros H. unfold selectAllClips. apply selInv_write; [exact H|].
  rewrite allClips_mapClips. apply selOk_all; apply H.
Qed.

Lemma selInv_removeClip (cid : ClipId) (s : State.t) : selInv s -> selInv (removeClip cid s).
Proof.
  intros H. unfold removeClip.
  destruct (existsb (Track.hasClip cid) (State.tracks s)) eqn:E; [|exact H].
  apply selInv_saveHistory, selInv_updateProjectDuration, selInv_write; [exact H|].
  rewrite hasClip_allClips in E.
  destruct (find (Clip.hasId cid) (allClips (State.tracks s))) as [c|] eqn:F;
    [|apply find_none_existsb in F; congruence].
  destruct (first_with_id _ _ _ F) as (pre & post & EL & Hid & Hs).
  cbn [State.tracks State.selectedClipIds State.with_tracks State.with_selectedClipIds].
  unfold removeFirst. rewrite (allClips_subst cid (fun _ => [])), Hs. simpl.
  destruct H as [H _]. rewrite EL in H. rewrite <- Hid. apply selOk_remove. exact H.
Qed.

Lemma selInv_removeTrack (tid : string) (s : State.t) : selInv s -> selInv (removeTrack tid s).
Proof.
  intros H. unfold removeTrack.
  destruct (find (Track.hasId tid) (State.tracks s)) as [tr|] eqn:F; [|exact H].
  apply selInv_saveHistory.
  destruct (allClips_removeTrack _ _ _ F) as (l1 & l2 & E1 & E2).
  destruct H as [H1 H2]. split; [|exact H2].
  cbn [State.tracks State.selectedClipIds State.with_tracks State.with_selectedClipIds].
  rewrite E2. apply selOk_removeMany. rewrite <- E1. exact H1.
Qed.

Lemma selInv_splitClip (cid : ClipId) (m : Q) (s : State.t) :
  selInv s -> freshId s -> selInv (snd (splitClip cid m s)).
Proof.
  intros H [Hf1 Hf2]. unfold splitClip.
  destruct (getClipById cid s) as [c|] eqn:E; [|exact H].
  destruct (getTrackByClipId cid s); [|exact H].
  destruct (_ || _); [exact H|].
  cbn [generateId snd fst] in *.
  apply selInv_saveHistory.
  destruct H as [H1 H2]. split; [|exact H2].
  cbn [State.tracks State.selectedClipIds State.with_tracks State.with_draws].
  unfold getClipById in E. rewrite findClip_allClips in E.
  destruct (first_with_id _ _ _ E) as (pre & post & EL & Hid & Hs).
  rewrite (allClips_subst cid
             (fun _ => [splitFirst m c;
                        splitSecond ("clip" ++ "-" ++ State.entropy s (State.draws s)) m c])),
    Hs.
  simpl. rewrite EL in H1, Hf1.
  apply (selOk_split pre post c); try assumption; reflexivity.
Qed.

Lemma selInv_restore (e : HistoryState.t) (i : Z) (s : State.t) :
  selInv s -> In e (State.history s) -> selInv (restore e (State.with_historyIndex i s)).
Proof.
  intros [H1 H2] Hin. split; [|exact H2].
  rewrite Forall_forall in H2. exact (H2 e Hin).
Qed.

Lemma selInv_undo (s : State.t) : selInv s -> selInv (final (undo s)).
Proof.
  intro H. unfold undo. destruct (0 <? _)%Z; [|exact H].
  cbn [State.history State.historyIndex State.with_historyIndex].
  destruct (jsIndex _ _) as [e|] eqn:E; cbn [final].
  - apply selInv_restore; [exact H|]. exact (jsIndex_In _ _ _ E).
  - exact H.
Qed.

Lemma selInv_redo (s : State.t) : selInv s -> selInv (final (redo s)).
Proof.
  intro H. unfold redo. destruct (_ <? _)%Z; [|exact H].
  cbn [State.history State.historyIndex State.with_historyIndex].
  destruct (jsIndex _ _) as [e|] eqn:E; cbn [final].
  - apply selInv_restore; [exact H|]. exact (jsIndex_In _ _ _ E).
  - exact H.
Qed.

Lemma selInv_addTrack (ty : TrackType) (name : option string) (s : State.t) :
  selInv s -> selInv (snd (addTrack ty name s)).
Proof.
  intros [H1 H2]. unfold addTrack. cbn [generateId snd]. apply selInv_saveHistory.
  split; [|exact H2].
  cbn [State.tracks State.selectedClipIds State.with_tracks State.with_draws].
  unfold allClips in *. rewrite flat_map_app. simpl. rewrite app_nil_r. exact H1.
Qed.

(** A write to the found clip that keeps its id and its flag. *)
Lemma selInv_modify (cid : ClipId) (f : Clip.t -> Clip.t) (s : State.t) :
  (forall c, Clip.id (f c) = Clip.id c /\ Clip.isSelected (f c) = Clip.isSelected c) ->
  selInv s -> selInv (State.with_tracks (modifyClip cid f (State.tracks s)) s).
Proof.
  intros Hf [H1 H2]. split; [|exact H2].
  cbn [State.tracks State.selectedClipIds State.with_tracks].
  rewrite allClips_modify.
  destruct (find (Clip.hasId cid) (allClips (State.tracks s))) as [c|] eqn:F.
  - destruct (first_with_id _ _ _ F) as (pre & post & EL & Hid & Hs).
    unfold mapFirst. rewrite Hs. simpl. rewrite EL in H1.
    destruct (Hf c) as [F1 F2].
    apply (selOk_replace pre post c _ (State.selectedClipIds s)); try assumption.
    + apply H1.
    + rewrite F2. apply H1. apply In_middle. left. reflexivity.
    + intros. tauto.
  - apply find_none_existsb in F. unfold mapFirst. rewrite substFirst_none by exact F.
    exact H1.
Qed.

Lemma allClips_pushClip (tid : string) (c : Clip.t) (ts : list Track.t) (tr : Track.t) :
  find (Track.hasId tid) ts = Some tr ->
  exists l1 l2,
    allClips ts = (l1 ++ l2)%list /\ allClips (pushClip tid c ts) = (l1 ++ c :: l2)%list.
Proof.
  intro H. destruct (find_split _ _ _ H) as (t1 & t2 & -> & F & P).
  unfold pushClip, mapFirst. rewrite substFirst_at by assumption. simpl.
  exists (allClips t1 ++ Track.clips tr)%list, (allClips t2). unfold allClips.
  rewrite !flat_map_app. simpl. rewrite <- !app_assoc. auto.
Qed.

Lemma selOk_insert (l1 l2 : list Clip.t) (c : Clip.t) (ids : list ClipId) :
  selOk (l1 ++ l2) ids ->
  Clip.isSelected c = false ->
  ~ In (Clip.id c) (idsOf (l1 ++ l2)) -> ~ In (Clip.id c) ids ->
  selOk (l1 ++ c :: l2) ids.
Proof.
  intros (H1 & H2 & H3) Hsel Hf1 Hf2. split; [|split; [exact H2|]].
  - rewrite idsOf_app in *. simpl.
    apply (NoDup_Add (a := Clip.id c) (l := (idsOf l1 ++ idsOf l2)%list)); [apply Add_app|].
    split; assumption.
  - intros x Hx. apply In_middle in Hx. destruct Hx as [-> |Hx].
    + rewrite Hsel. split; [discriminate|]. intro. contradiction.
    + apply H3. exact Hx.
Qed.

Lemma selInv_addClip (tid : string) (clipData : PartialClip.t) (s : State.t) :
  selInv s ->
  PartialClip.id clipData = None ->
  PartialClip.isSelected clipData <> Some true ->
  freshId s ->
  selInv (snd (addClip tid clipData s)).
Proof.
  intros H Hid Hsel [Hf1 Hf2]. unfold addClip.
  destruct (find (Track.hasId tid) (State.tracks s)) as [tr|] eqn:F; [|exact H].
  cbn [generateId snd fst] in *.
  apply selInv_saveHistory, selInv_updateProjectDuration.
  destruct H as [H1 H2]. split; [|exact H2].
  cbn [State.tracks State.selectedClipIds State.with_tracks State.with_draws].
  destruct (allClips_pushClip tid
              (buildClip ("clip" ++ "-" ++ State.entropy s (State.draws s)) tid
                 (Track.type tr) clipData (State.currentTime s))
              _ tr F) as (l1 & l2 & E1 & E2).
  rewrite E2. rewrite E1 in H1, Hf1.
  apply selOk_insert; try assumption.
  - unfold buildClip. cbn. destruct (PartialClip.isSelected clipData) as [[|]|];
      [exfalso; apply Hsel; reflexivity|reflexivity|reflexivity].
  - unfold buildClip. cbn. rewrite Hid. exact Hf1.
  - unfold buildClip. cbn. rewrite Hid. exact Hf2.
Qed.

Lemma selInv_exec (o : Op) (s : State.t) : selInv s -> selGuard o s -> selInv (exec o s).
Proof.
  intros H Hg. destruct o; cbn [exec selGuard] in *; try contradiction.
  - apply selInv_addTrack; exact H.
  - apply selInv_removeTrack; exact H.
  - destruct Hg as (G1 & G2 & G3). apply selInv_addClip; assumption.
  - apply selInv_removeClip; exact H.
  - apply selInv_splitClip; assumption.
  - unfold trimClipStart. destruct (getClipById _ _); [|exact H].
    apply selInv_modify; [|exact H]. intro c. split; reflexivity.
  - unfold trimClipEnd. destruct (getClipById _ _); [|exact H].
    apply selInv_updateProjectDuration, selInv_modify; [|exact H]. intro c. split; reflexivity.
  - apply selInv_selectClip; exact H.
  - apply selInv_deselectClip; exact H.
  - apply selInv_deselectAll; exact H.
  - apply selInv_selectAllClips; exact H.
  - exact H.
  - apply selInv_undo; exact H.
  - apply selInv_redo; exact H.
Qed.

(** C8 without the two clipboard operations.  From a store in which the
    clips have distinct ids and flags and selected ids agree, on the tracks
    and in every history entry, any sequence of [selectClip],
    [deselectClip], [deselectAll], [selectAllClips], [removeClip],
    [removeTrack], [splitClip] (given an unused generated id), [undo],
    [redo], [addTrack], the two trims, [copySelectedClips] and [addClip]
    (given an unused generated id and data that carry no id and do not set
    the flag) leads to a store in which a clip is flagged exactly when its
    id is selected. *)
Theorem selection_consistency (ops : list Op) :
  forall s, selInv s -> selGuarded ops s -> selInv (run ops s) /\ consistent (run ops s).
Proof.
  induction ops as [|o ops IH]; intros s H Hg.
  - split; [exact H|]. intros c Hc. apply H. exact Hc.
  - destruct Hg as [Hg1 Hg2]. rewrite run_cons. apply IH; [|exact Hg2].
    apply selInv_exec; assumption.
Qed.

Lemma selInv_initialStore : selInv initialStore.
Proof.
  split; [|constructor]. split; [constructor|]. split; [constructor|]. intros c [].
Qed.

Ltac sel_steps :=
  repeat (split;
          [first [exact I
                 | solve [vm_compute; intuition discriminate]]|]);
  exact I.

Lemma selection_consistency_witness :
  selInv (run selectionSession initialStore) /\
  consistentb (run selectionSession initialStore) = true.
Proof.
  destruct (selection_consistency selectionSession initialStore) as [H1 H2].
  - exact selInv_initialStore.
  - unfold selectionSession. sel_steps.
  - split; [exact H1|]. apply consistentb_iff. exact H2.
Defined.

(** ** Remarks on the edges of C1 and C7 *)

(** [moveClip] takes no snapshot: the [undo] after a move of the clip of
    [storeA] does not bring back [storeA], it brings back the entry before
    it, the store without the clip. *)
Lemma undo_after_move_restores_older_state :
  snapshot (undoN 1 (run [OMoveClip (Some "clip-1"%string) 5 None] storeA))
    = snapshot storeV1 /\
  snapshot storeV1 <> snapshot storeA.
Proof. split; [vm_compute; reflexivity|vm_compute; discriminate]. Qed.

(** Fifty committed edits evict the entry of the state before them: fifty
    calls of [undo] stop at the state after the first edit. *)
Lemma undo_after_fifty_edits_stops_short :
  let ops := repeat (OAddTrack TAudio None) 50 in
  synced storeV1 /\
  snapshot (undoN 50 (run ops storeV1)) = snapshot (run (firstn 1 ops) storeV1) /\
  snapshot (undoN 50 (run ops storeV1)) <> snapshot storeV1.
Proof.
  split; [vm_compute; reflexivity|].
  split; [vm_compute; reflexivity|vm_compute; discriminate].
Qed.

(** ** The history within its bounds *)

Lemma noSnapshot_history (o : Op) (s : State.t) :
  takesNoSnapshot o = true ->
  State.history (exec o s) = State.history s /\
  State.historyIndex (exec o s) = State.historyIndex s.
Proof.
  destruct o; cbn [takesNoSnapshot exec]; try discriminate; intros _.
  - unfold updateClip. destruct (getClipById _ _); [|split; reflexivity].
    destruct (updateProjectDuration_history
                (State.with_tracks (modifyClip cid (PartialClip.assign updates) (State.tracks s)) s))
      as (-> & -> & _). split; reflexivity.
  - unfold moveClip. destruct (getClipById _ _); [|split; reflexivity].
    destruct (getTrackByClipId _ _); [|split; reflexivity].
    match goal with |- context [updateProjectDuration ?m] =>
      destruct (updateProjectDuration_history m) as (-> & -> & _) end.
    split; reflexivity.
  - unfold trimClipStart. destruct (getClipById _ _); split; reflexivity.
  - unfold trimClipEnd. destruct (getClipById _ _); [|split; reflexivity].
    match goal with |- context [updateProjectDuration ?m] =>
      destruct (updateProjectDuration_history m) as (-> & -> & _) end.
    split; reflexivity.
  - unfold selectClip. destruct addToSelection; destruct (getClipById _ _); split; reflexivity.
  - unfold deselectClip. destruct (getClipById _ _); split; reflexivity.
  - split; reflexivity.
  - split; reflexivity.
  - split; reflexivity.
Qed.

Lemma histOk_ext (a b : State.t) :
  State.history a = State.history b ->
  State.historyIndex a = State.historyIndex b ->
  histOk b -> histOk a.
Proof. unfold histOk, wfHist. intros -> ->. tauto. Qed.

Lemma histOk_saveHistory (s : State.t) : histOk s -> histOk (saveHistory s).
Proof.
  intros [Hwf Hlen]. split; [apply saveHistory_wf; exact Hwf|].
  pose proof (saveHistory_cases s Hwf) as [Hl H].
  unfold wfHist, maxHistorySize in *.
  destruct H as [(Hk & -> & _) | (Hk & -> & _)].
  - rewrite Hl. exact Hk.
  - destruct (firstn _ _ ++ _)%list; simpl in *; lia.
Qed.

Lemma histOk_commit (s m : State.t) :
  State.history m = State.history s ->
  State.historyIndex m = State.historyIndex s ->
  histOk s -> histOk (saveHistory m).
Proof. intros Hh Hi H. apply histOk_saveHistory. exact (histOk_ext m s Hh Hi H). Qed.

Lemma histOk_addClip (tid : string) (clipData : PartialClip.t) (s : State.t) :
  histOk s -> histOk (snd (addClip tid clipData s)).
Proof.
  intro H. unfold addClip. destruct (find _ _); [|exact H].
  cbn [generateId snd]. apply histOk_saveHistory.
  match goal with |- histOk (updateProjectDuration ?m) =>
    destruct (updateProjectDuration_history m) as (Hh & Hi & _);
    apply (histOk_ext _ s); [rewrite Hh; reflexivity|rewrite Hi; reflexivity|exact H] end.
Qed.

Lemma histOk_undo (s : State.t) :
  histOk s -> histOk (final (undo s)) /\ exists u, undo s = Returned u.
Proof.
  intros [Hwf Hlen]. unfold undo.
  destruct (0 <? State.historyIndex s)%Z eqn:E; [|split; [split; assumption|eauto]].
  apply Z.ltb_lt in E.
  cbn [State.history State.historyIndex State.with_historyIndex].
  destruct (jsIndex_in_range (State.history s) (State.historyIndex s - 1)) as [e He].
  { unfold wfHist in Hwf. lia. }
  rewrite He. split; [|eauto]. unfold histOk, wfHist in *. cbn. split; [lia|exact Hlen].
Qed.

Lemma histOk_redo (s : State.t) :
  histOk s -> histOk (final (redo s)) /\ exists r, redo s = Returned r.
Proof.
  intros [Hwf Hlen]. unfold redo.
  destruct (State.historyIndex s <? _)%Z eqn:E; [|split; [split; assumption|eauto]].
  apply Z.ltb_lt in E.
  cbn [State.history State.historyIndex State.with_historyIndex].
  destruct (jsIndex_in_range (State.history s) (State.historyIndex s + 1)) as [e He].
  { unfold wfHist in Hwf. lia. }
  rewrite He. split; [|eauto]. unfold histOk, wfHist in *. cbn. split; [lia|exact Hlen].
Qed.

Lemma histOk_fold {A : Type} (f : State.t -> A -> State.t) (l : list A) :
  (forall s a, histOk s -> histOk (f s a)) ->
  forall s, histOk s -> histOk (fold_left f l s).
Proof.
  intro Hf. induction l as [|a l IH]; intros s H; simpl; [exact H|].
  apply IH, Hf, H.
Qed.

Lemma histOk_exec (o : Op) (s : State.t) : histOk s -> histOk (exec o s).
Proof.
  intro H.
  destruct (takesNoSnapshot o) eqn:T.
  { destruct (noSnapshot_history o s T) as [Hh Hi]. exact (histOk_ext _ s Hh Hi H). }
  destruct o; cbn [takesNoSnapshot] in T; try discriminate; cbn [exec].
  - unfold addTrack. cbn [generateId snd].
    apply (histOk_commit s); [reflexivity|reflexivity|exact H].
  - unfold removeTrack. destruct (find _ _); [|exact H].
    apply (histOk_commit s); [reflexivity|reflexivity|exact H].
  - apply histOk_addClip, H.
  - unfold removeClip. destruct (existsb _ _); [|exact H].
    apply histOk_saveHistory.
    match goal with |- histOk (updateProjectDuration ?m) =>
      destruct (updateProjectDuration_history m) as (Hh & Hi & _);
      apply (histOk_ext _ s); [rewrite Hh; reflexivity|rewrite Hi; reflexivity|exact H] end.
  - unfold splitClip. destruct (getClipById _ _); [|exact H].
    destruct (getTrackByClipId _ _); [|exact H].
    destruct (_ || _); [exact H|]. cbn [generateId snd].
    apply (histOk_commit s); [reflexivity|reflexivity|exact H].
  - unfold pasteClips. destruct (State.clipboard s) as [|c0 cb]; [exact H|].
    apply histOk_fold; [|exact H].
    intros st c Hst. unfold pasteOne. destruct (find _ _); [|exact Hst].
    destruct (negb _); [|exact Hst]. apply histOk_addClip, Hst.
  - unfold duplicateSelectedClips. apply histOk_fold.
    + intros st r Hst. unfold duplicateOne. destruct (deref _ _); [|exact Hst].
      destruct (getTrackByClipId _ _) as [tr|]; [|exact Hst].
      destruct (negb _); [|exact Hst].
      pose proof (histOk_addClip (Track.id tr) (duplicateData t) st Hst) as Ha.
      destruct (addClip _ _ _) as [[nc|] s1]; cbn [snd] in Ha; [|exact Ha].
      destruct (noSnapshot_history (OSelectClip (Clip.id nc) true) s1 eq_refl) as [Hh Hi].
      exact (histOk_ext _ s1 Hh Hi Ha).
    + exact (histOk_ext (deselectAll s) s eq_refl eq_refl H).
  - apply histOk_undo, H.
  - apply histOk_redo, H.
Qed.

(** From a store whose history is within its bounds, every sequence of edit
    operations leads to a store whose history is within its bounds: the
    cursor is [-1] or the index of an entry, and there are at most 50
    entries.  In such a store [undo] and [redo] find the entry they read:
    both return, neither throws. *)
Theorem history_stays_in_bounds (ops : list Op) (s : State.t) :
  histOk s ->
  histOk (run ops s) /\
  (exists u, undo (run ops s) = Returned u) /\
  (exists r, redo (run ops s) = Returned r).
Proof.
  intro H.
  assert (Hr : histOk (run ops s)).
  { revert s H. induction ops as [|o ops IH]; intros s H; [exact H|].
    rewrite run_cons. apply IH, histOk_exec, H. }
  split; [exact Hr|]. split.
  - apply histOk_undo, Hr.
  - apply histOk_redo, Hr.
Qed.

Lemma history_stays_in_bounds_witness :
  histOk (run selectionSession initialStore) /\
  (exists u, undo (run selectionSession initialStore) = Returned u) /\
  (exists r, redo (run selectionSession initialStore) = Returned r).
Proof.
  apply (history_stays_in_bounds selectionSession initialStore).
  split; [vm_compute; split; [discriminate|reflexivity]|vm_compute; lia].
Defined.

(** An operation without a call of [saveHistory] leaves the history and its
    cursor as they were, so its effect is not an entry: with an older entry
    behind the cursor, the [undo] that follows restores what an [undo]
    before the operation would have restored. *)
Theorem unrecorded_edit_is_not_undone (o : Op) (s : State.t) :
  takesNoSnapshot o = true ->
  State.history (exec o s) = State.history s /\
  State.historyIndex (exec o s) = State.historyIndex s /\
  (wfHist s -> (0 < State.historyIndex s)%Z ->
   snapshot (final (undo (exec o s))) = snapshot (final (undo s))).
Proof.
  intro T. destruct (noSnapshot_history o s T) as [Hh Hi].
  split; [exact Hh|]. split; [exact Hi|].
  intros Hwf Hpos. unfold undo. rewrite Hi.
  destruct (0 <? State.historyIndex s)%Z eqn:E; [|apply Z.ltb_ge in E; lia].
  cbn [State.history State.historyIndex State.with_historyIndex]. rewrite Hh.
  destruct (jsIndex_in_range (State.history s) (State.historyIndex s - 1)) as [e He].
  { unfold wfHist in Hwf. lia. }
  rewrite He. cbn [final]. rewrite !snapshot_restore. reflexivity.
Qed.

Lemma unrecorded_edit_is_not_undone_witness :
  let o := OMoveClip (Some "clip-1"%string) 5 None in
  State.history (exec o storeA) = State.history storeA /\
  State.historyIndex (exec o storeA) = State.historyIndex storeA /\
  snapshot (final (undo (exec o storeA))) = snapshot (final (undo storeA)).
Proof.
  destruct (unrecorded_edit_is_not_undone (OMoveClip (Some "clip-1"%string) 5 None) storeA eq_refl)
    as (H1 & H2 & H3).
  split; [exact H1|]. split; [exact H2|].
  apply H3; [vm_compute; split; [discriminate|reflexivity]|vm_compute; reflexivity].
Defined.

(** After a committed edit the cursor is on the last entry: [redo] has
    nothing to restore and leaves the store as it is.  Entries that an
    [undo] had left ahead of the cursor are dropped by the edit. *)
Theorem redo_after_edit_does_nothing (s s' : State.t) :
  wfHist s -> commits s s' ->
  State.historyIndex s' = (Z.of_nat (List.length (State.history s')) - 1)%Z /\
  redo s' = Returned s'.
Proof.
  intros Hwf Hc. unfold commits, pushed in Hc. injection Hc as Hh Hi.
  set (m := restore (snapshot s') s) in *.
  assert (Hm : wfHist m) by exact Hwf.
  destruct (saveHistory_wf m Hm) as (_ & W & _).
  assert (E : State.historyIndex s' = (Z.of_nat (List.length (State.history s')) - 1)%Z).
  { rewrite Hh, Hi. exact W. }
  split; [exact E|].
  unfold redo. rewrite E. rewrite Z.ltb_irrefl. reflexivity.
Qed.

Lemma redo_after_edit_does_nothing_witness :
  let s := final (undo storeB) in
  let s' := exec (OSplitClip (Some "clip-1"%string) 4) s in
  State.historyIndex s' = (Z.of_nat (List.length (State.history s')) - 1)%Z /\
  redo s' = Returned s'.
Proof.
  apply (redo_after_edit_does_nothing (final (undo storeB))).
  - vm_compute. split; [discriminate|reflexivity].
  - vm_compute. reflexivity.
Defined.

(** In a store whose tracks and selection are the entry under the cursor,
    an [undo] that has an older entry to restore is taken back by the
    [redo] that follows, and a [redo] that has a newer entry to restore is
    taken back by the [undo] that follows: the store is the same again, in
    every part. *)
Theorem undo_and_redo_are_inverse (s : State.t) :
  synced s ->
  ((0 < State.historyIndex s)%Z -> final (redo (final (undo s))) = s) /\
  ((State.historyIndex s < Z.of_nat (List.length (State.history s)) - 1)%Z ->
   final (undo (final (redo s))) = s).
Proof.
  intro Hs. destruct (synced_wfHist s Hs) as [Hwf H0].
  unfold synced, back in Hs. rewrite Z.sub_0_r in Hs. unfold wfHist in Hwf.
  split; intro Hi.
  - unfold undo. destruct (0 <? State.historyIndex s)%Z eqn:E; [|apply Z.ltb_ge in E; lia].
    cbn [State.history State.historyIndex State.with_historyIndex].
    destruct (jsIndex_in_range (State.history s) (State.historyIndex s - 1)) as [e He]; [lia|].
    rewrite He. cbn [final]. unfold redo.
    cbn [State.history State.historyIndex State.with_historyIndex restore
         State.with_tracks State.with_selectedClipIds].
    assert (E2 : (State.historyIndex s - 1 <? Z.of_nat (List.length (State.history s)) - 1)%Z
                 = true) by (apply Z.ltb_lt; lia).
    rewrite E2.
    replace (State.historyIndex s - 1 + 1)%Z with (State.historyIndex s) by lia.
    rewrite Hs. cbn [final]. destruct s; reflexivity.
  - unfold redo. destruct (_ <? _)%Z eqn:E; [|apply Z.ltb_ge in E; lia].
    cbn [State.history State.historyIndex State.with_historyIndex].
    destruct (jsIndex_in_range (State.history s) (State.historyIndex s + 1)) as [e He]; [lia|].
    rewrite He. cbn [final]. unfold undo.
    cbn [State.history State.historyIndex State.with_historyIndex restore
         State.with_tracks State.with_selectedClipIds].
    assert (E2 : (0 <? State.historyIndex s + 1)%Z = true) by (apply Z.ltb_lt; lia).
    rewrite E2.
    replace (State.historyIndex s + 1 - 1)%Z with (State.historyIndex s) by lia.
    rewrite Hs. cbn [final]. destruct s; reflexivity.
Qed.

Lemma undo_and_redo_are_inverse_witness :
  final (redo (final (undo storeB))) = storeB /\
  final (undo (final (redo (final (undo storeB))))) = final (undo storeB).
Proof.
  split.
  - refine (proj1 (undo_and_redo_are_inverse storeB _) _); vm_compute; reflexivity.
  - refine (proj2 (undo_and_redo_are_inverse (final (undo storeB)) _) _);
      vm_compute; reflexivity.
Defined.

(** ** Deleting and cutting the selection *)

Lemma filter_all {A : Type} (p : A -> bool) (l : list A) :
  (forall x, In x l -> p x = true) -> filter p l = l.
Proof.
  induction l as [|a l IH]; intro H; simpl; [reflexivity|].
  rewrite (H a (or_introl eq_refl)). f_equal. apply IH. intros x Hx. apply H. right. exact Hx.
Qed.

Lemma filter_twice {A : Type} (p q : A -> bool) (l : list A) :
  filter p (filter q l) = filter (fun x => q x && p x) l.
Proof.
  induction l as [|a l IH]; simpl; [reflexivity|].
  destruct (q a); simpl; [destruct (p a)|]; rewrite IH; reflexivity.
Qed.

Lemma hasId_In (cid : ClipId) (cs : list Clip.t) :
  existsb (Clip.hasId cid) cs = true <-> In cid (idsOf cs).
Proof.
  rewrite existsb_exists. unfold idsOf. rewrite in_map_iff. unfold Clip.hasId.
  split.
  - intros (c & H1 & H2). apply ClipId_eqb_eq in H2. eauto.
  - intros (c & H1 & H2). exists c. split; [exact H2|]. apply ClipId_eqb_eq. exact H1.
Qed.

(** With distinct ids, the removal of the first clip with an id removes
    every clip with the id. *)
Lemma removeFirst_unique (cid : ClipId) (cs : list Clip.t) :
  NoDup (idsOf cs) ->
  removeFirst (Clip.hasId cid) cs = filter (fun c => negb (Clip.hasId cid c)) cs.
Proof.
  unfold removeFirst. induction cs as [|a cs IH]; intro H; simpl; [reflexivity|].
  inversion H as [|? ? Ha Hnd]; subst.
  destruct (Clip.hasId cid a) eqn:E; simpl.
  - symmetry. apply filter_all. intros x Hx.
    destruct (Clip.hasId cid x) eqn:Ex; [|reflexivity].
    unfold Clip.hasId in E, Ex. apply ClipId_eqb_eq in E. apply ClipId_eqb_eq in Ex.
    exfalso. apply Ha. rewrite E, <- Ex. unfold idsOf. apply in_map. exact Hx.
  - f_equal. apply IH. exact Hnd.
Qed.

Lemma NoDup_idsOf_filter (p : Clip.t -> bool) (cs : list Clip.t) :
  NoDup (idsOf cs) -> NoDup (idsOf (filter p cs)).
Proof.
  induction cs as [|a cs IH]; intro H; simpl; [constructor|].
  inversion H as [|? ? Ha Hnd]; subst.
  destruct (p a); simpl; [|apply IH; exact Hnd].
  constructor; [|apply IH; exact Hnd].
  intro Hin. apply Ha. unfold idsOf in *. apply in_map_iff in Hin.
  destruct Hin as (x & Hx1 & Hx2). apply filter_In in Hx2. rewrite <- Hx1.
  apply in_map. tauto.
Qed.

(** What [removeClip] does to the clips, to the selected ids and to the
    clipboard. *)
Lemma removeClip_effect (cid : ClipId) (s : State.t) :
  NoDup (idsOf (allClips (State.tracks s))) ->
  allClips (State.tracks (removeClip cid s))
    = filter (fun c => negb (Clip.hasId cid c)) (allClips (State.tracks s)) /\
  State.selectedClipIds (removeClip cid s)
    = (if existsb (Clip.hasId cid) (allClips (State.tracks s))
       then dropId cid (State.selectedClipIds s) else State.selectedClipIds s) /\
  State.clipboard (removeClip cid s) = State.clipboard s.
Proof.
  intro Hnd. unfold removeClip. rewrite hasClip_allClips.
  destruct (existsb (Clip.hasId cid) (allClips (State.tracks s))) eqn:E.
  - rewrite snapshot_saveHistory_tracks, updateProjectDuration_tracks.
    cbn [State.tracks State.with_tracks State.with_selectedClipIds].
    split; [|split].
    + rewrite (allClips_subst cid (fun _ => [])). apply removeFirst_unique, Hnd.
    + unfold saveHistory. destruct (_ <? _)%nat; cbn;
        rewrite (proj2 (proj2 (proj2 (updateProjectDuration_history _)))); reflexivity.
    + unfold saveHistory, updateProjectDuration.
      destruct (_ <? _)%nat; destruct (Qlt_bool _ _); reflexivity.
  - split; [|split; reflexivity].
    symmetry. apply filter_all. intros x Hx.
    destruct (Clip.hasId cid x) eqn:Ex; [|reflexivity].
    assert (existsb (Clip.hasId cid) (allClips (State.tracks s)) = true)
      by (apply existsb_exists; eauto).
    congruence.
Qed.

Lemma ClipId_eqb_sym (a b : ClipId) : ClipId_eqb a b = ClipId_eqb b a.
Proof.
  destruct (ClipId_eqb a b) eqn:E; symmetry.
  - apply ClipId_eqb_eq in E. subst. apply ClipId_eqb_refl.
  - destruct (ClipId_eqb b a) eqn:E'; [|reflexivity].
    apply ClipId_eqb_eq in E'. subst. rewrite ClipId_eqb_refl in E. discriminate.
Qed.

Lemma ClipId_dec (a b : ClipId) : a = b \/ a <> b.
Proof.
  destruct (ClipId_eqb a b) eqn:E.
  - left. apply ClipId_eqb_eq. exact E.
  - right. intros ->. rewrite ClipId_eqb_refl in E. discriminate.
Qed.

(** The loop of [deleteSelectedClips] over the ids [l]. *)
Lemma removeClips_effect (l : list ClipId) :
  forall s,
    NoDup (idsOf (allClips (State.tracks s))) ->
    NoDup (State.selectedClipIds s) ->
    let s' := fold_left (fun st cid => removeClip cid st) l s in
    allClips (State.tracks s')
      = filter (fun c => negb (includes (Clip.id c) l)) (allClips (State.tracks s)) /\
    NoDup (State.selectedClipIds s') /\
    (forall i, In i (State.selectedClipIds s') <->
               In i (State.selectedClipIds s) /\
               ~ (In i l /\ In i (idsOf (allClips (State.tracks s))))) /\
    State.clipboard s' = State.clipboard s.
Proof.
  induction l as [|a l IH]; intros s Hc Hs; cbn zeta; simpl fold_left.
  - split; [symmetry; apply filter_all; reflexivity|].
    split; [exact Hs|]. split; [|reflexivity]. intro i. simpl. tauto.
  - destruct (removeClip_effect a s Hc) as (E1 & E2 & E3).
    assert (Hc1 : NoDup (idsOf (allClips (State.tracks (removeClip a s))))).
    { rewrite E1. apply NoDup_idsOf_filter, Hc. }
    assert (Hs1 : NoDup (State.selectedClipIds (removeClip a s))).
    { rewrite E2. destruct (existsb _ _); [apply dropId_spec|]; exact Hs. }
    destruct (IH (removeClip a s) Hc1 Hs1) as (F1 & F2 & F3 & F4). cbn zeta in *.
    split; [|split; [exact F2|split; [|congruence]]].
    + rewrite F1, E1, filter_twice. apply filter_ext. intro c.
      unfold includes at 2. simpl. unfold Clip.hasId. rewrite (ClipId_eqb_sym a).
      fold (includes (Clip.id c) l). rewrite negb_orb. reflexivity.
    + intro i. rewrite F3. rewrite E1, E2.
      assert (Hin1 : In i (idsOf (filter (fun c => negb (Clip.hasId a c))
                                    (allClips (State.tracks s))))
                     <-> In i (idsOf (allClips (State.tracks s))) /\ i <> a).
      { unfold idsOf. rewrite !in_map_iff. split.
        - intros (c & Hid & Hin). apply filter_In in Hin. destruct Hin as [Hin Hne].
          split; [eauto|]. intros ->. unfold Clip.hasId in Hne.
          rewrite <- Hid, ClipId_eqb_refl in Hne. discriminate.
        - intros [(c & Hid & Hin) Hne]. exists c. split; [exact Hid|].
          apply filter_In. split; [exact Hin|].
          unfold Clip.hasId. destruct (ClipId_eqb (Clip.id c) a) eqn:E; [|reflexivity].
          apply ClipId_eqb_eq in E. congruence. }
      rewrite Hin1. simpl.
      destruct (existsb (Clip.hasId a) (allClips (State.tracks s))) eqn:Ex.
      * apply hasId_In in Ex. rewrite (proj2 (dropId_spec a _ Hs)).
        destruct (ClipId_dec i a) as [-> |Hne]; [tauto|].
        split; [intros [[H1 _] H2]|intros [H1 H2]].
        -- split; [exact H1|]. intros [[Heq|Hl] Hi]; [congruence|tauto].
        -- split; [tauto|]. intros [Hl [Hi _]]. tauto.
      * assert (Hna : ~ In a (idsOf (allClips (State.tracks s)))).
        { intro Hin. apply hasId_In in Hin. congruence. }
        destruct (ClipId_dec i a) as [-> |Hne].
        -- tauto.
        -- split; [intros [H1 H2]|intros [H1 H2]].
           ++ split; [exact H1|]. intros [[Heq|Hl] Hi]; [congruence|tauto].
           ++ split; [exact H1|]. intros [Hl [Hi _]]. tauto.
Qed.

Lemma selectedClips_filter (s : State.t) :
  selectedClips s
  = filter (fun c => includes (Clip.id c) (State.selectedClipIds s)) (allClips (State.tracks s)).
Proof.
  unfold selectedClips, allClips.
  induction (State.tracks s) as [|t ts IH]; simpl; [reflexivity|].
  rewrite filter_app, IH. reflexivity.
Qed.

Lemma selOk_flag (cs : list Clip.t) (ids : list ClipId) (c : Clip.t) :
  selOk cs ids -> In c cs -> includes (Clip.id c) ids = Clip.isSelected c.
Proof.
  intros (_ & _ & H) Hc. specialize (H c Hc).
  destruct (includes (Clip.id c) ids) eqn:E.
  - apply includes_iff in E. symmetry. apply H. exact E.
  - destruct (Clip.isSelected c); [|reflexivity].
    assert (Hin : In (Clip.id c) ids) by (apply H; reflexivity).
    apply includes_iff in Hin. congruence.
Qed.

Lemma distinct_NoDup (ids : list ClipId) : distinct ids = true -> NoDup ids.
Proof.
  induction ids as [|a l IH]; simpl; intro H; [constructor|].
  apply andb_true_iff in H. destruct H as [H1 H2]. constructor; [|apply IH, H2].
  intro Hin. apply includes_iff in Hin. rewrite Hin in H1. discriminate.
Qed.

Lemma selOkb_sound (cs : list Clip.t) (ids : list ClipId) :
  selOkb cs ids = true -> selOk cs ids.
Proof.
  unfold selOkb. intro H. apply andb_true_iff in H. destruct H as [H H3].
  apply andb_true_iff in H. destruct H as [H1 H2].
  split; [apply distinct_NoDup, H1|]. split; [apply distinct_NoDup, H2|].
  intros c Hc. rewrite forallb_forall in H3. specialize (H3 c Hc).
  apply Bool.eqb_prop in H3. rewrite H3. apply includes_iff.
Qed.

(** In a store whose flags and selected ids agree, [deleteSelectedClips]
    removes the flagged clips and no other: the clips left on the tracks
    are the clips that were not flagged, in their order.  The selected ids
    that remain are those that were the id of no clip, and flags and
    selected ids agree afterwards. *)
Theorem deleteSelectedClips_removes_selection (s : State.t) :
  selOk (allClips (State.tracks s)) (State.selectedClipIds s) ->
  allClips (State.tracks (deleteSelectedClips s))
    = filter (fun c => negb (Clip.isSelected c)) (allClips (State.tracks s)) /\
  (forall cid, In cid (State.selectedClipIds (deleteSelectedClips s)) <->
               In cid (State.selectedClipIds s) /\ clipMissing cid s) /\
  consistent (deleteSelectedClips s).
Proof.
  intro H. pose proof H as (Hc & Hs & Hf).
  destruct (removeClips_effect (State.selectedClipIds s) s Hc Hs) as (F1 & _ & F3 & _).
  cbn zeta in *. fold (deleteSelectedClips s) in *.
  assert (E : allClips (State.tracks (deleteSelectedClips s))
              = filter (fun c => negb (Clip.isSelected c)) (allClips (State.tracks s))).
  { rewrite F1. apply filter_ext_in. intros c Hin.
    rewrite (selOk_flag _ _ c H Hin). reflexivity. }
  assert (M : forall cid, clipMissing cid s <-> ~ In cid (idsOf (allClips (State.tracks s)))).
  { intro cid. unfold clipMissing, idsOf. rewrite in_map_iff. split.
    - intros Hm (c & Hid & Hin). exact (Hm c Hin Hid).
    - intros Hn c Hin Hid. apply Hn. eauto. }
  split; [exact E|]. split.
  - intro cid. rewrite F3, M. tauto.
  - intros c Hin. rewrite E in Hin. apply filter_In in Hin. destruct Hin as [Hin Hun].
    apply negb_true_iff in Hun. rewrite Hun. split; [discriminate|].
    intro Hsel. apply F3 in Hsel. destruct Hsel as [Hsel Hno]. exfalso. apply Hno.
    split; [exact Hsel|]. unfold idsOf. apply in_map. exact Hin.
Qed.

Lemma deleteSelectedClips_removes_selection_witness :
  let s := selectAllClips storeB in
  allClips (State.tracks (deleteSelectedClips s))
    = filter (fun c => negb (Clip.isSelected c)) (allClips (State.tracks s)) /\
  allClips (State.tracks (deleteSelectedClips s)) = [].
Proof.
  destruct (deleteSelectedClips_removes_selection (selectAllClips storeB)) as (H1 & _).
  - apply selOkb_sound. vm_compute. reflexivity.
  - split; [exact H1|]. vm_compute. reflexivity.
Defined.

(** In a store whose flags and selected ids agree, [cutSelectedClips]
    moves the flagged clips from the tracks to the clipboard: the clipboard
    holds them in their order, the tracks hold the others. *)
Theorem cutSelectedClips_moves_selection (s : State.t) :
  selOk (allClips (State.tracks s)) (State.selectedClipIds s) ->
  State.clipboard (cutSelectedClips s)
    = filter Clip.isSelected (allClips (State.tracks s)) /\
  allClips (State.tracks (cutSelectedClips s))
    = filter (fun c => negb (Clip.isSelected c)) (allClips (State.tracks s)).
Proof.
  intro H. pose proof H as (Hc & Hs & Hf).
  unfold cutSelectedClips, deleteSelectedClips.
  destruct (removeClips_effect (State.selectedClipIds (copySelectedClips s))
              (copySelectedClips s) Hc Hs) as (F1 & _ & _ & F4).
  cbn zeta in *. split.
  - rewrite F4. cbn [copySelectedClips State.clipboard State.with_clipboard].
    rewrite selectedClips_filter. apply filter_ext_in. intros c Hin.
    apply (selOk_flag _ _ c H Hin).
  - rewrite F1. cbn [copySelectedClips State.tracks State.selectedClipIds State.with_clipboard].
    apply filter_ext_in. intros c Hin. rewrite (selOk_flag _ _ c H Hin). reflexivity.
Qed.

Lemma cutSelectedClips_moves_selection_witness :
  let s := selectClip (Some "clip-2"%string) false storeB in
  idsOf (State.clipboard (cutSelectedClips s)) = [Some "clip-2"%string] /\
  idsOf (allClips (State.tracks (cutSelectedClips s))) = [Some "clip-1"%string].
Proof.
  destruct (cutSelectedClips_moves_selection
              (selectClip (Some "clip-2"%string) false storeB)) as (H1 & H2).
  - apply selOkb_sound. vm_compute. reflexivity.
  - split; [rewrite H1|rewrite H2]; vm_compute; reflexivity.
Defined.

(** ** Locked tracks *)

Lemma fold_left_fixed {A : Type} (f : State.t -> A -> State.t) (l : list A) (s : State.t) :
  (forall a, In a l -> f s a = s) -> fold_left f l s = s.
Proof.
  induction l as [|a l IH]; intro H; simpl; [reflexivity|].
  rewrite (H a (or_introl eq_refl)). apply IH. intros x Hx. apply H. right. exact Hx.
Qed.

Lemma find_In {A : Type} (p : A -> bool) (l : list A) (a : A) :
  find p l = Some a -> In a l.
Proof. intro H. apply find_some in H. tauto. Qed.

(** The lock of a track is honoured by [pasteClips] and by
    [duplicateSelectedClips].  [pasteClips] adds nothing when, for every
    clip of the clipboard, the first track of the type of the clip is
    locked, whatever other tracks there are.  [duplicateSelectedClips] on
    a store whose tracks are all locked adds nothing either, but it still
    clears the selection. *)
Theorem locked_tracks_take_no_copies (s : State.t) :
  ((forall c tr, In c (State.clipboard s) -> pasteTarget c s = Some tr ->
                 Track.isLocked tr = true) ->
   pasteClips s = s) /\
  (allLocked s -> duplicateSelectedClips s = deselectAll s).
Proof.
  split.
  - intro H. unfold pasteClips. destruct (State.clipboard s) as [|c0 cb] eqn:E; [reflexivity|].
    apply fold_left_fixed. intros c Hc. unfold pasteOne.
    fold (pasteTarget c s). destruct (pasteTarget c s) as [tr|] eqn:F; [|reflexivity].
    rewrite (H c tr Hc F). reflexivity.
  - intro H. unfold duplicateSelectedClips. apply fold_left_fixed.
    intros r _. unfold duplicateOne. destruct (deref r (deselectAll s)); [|reflexivity].
    destruct (getTrackByClipId _ _) as [tr|] eqn:F; [|reflexivity].
    unfold getTrackByClipId in F. apply find_In in F.
    cbn [deselectAll State.tracks State.with_tracks State.with_selectedClipIds
         State.with_selectedTrackId] in F.
    unfold mapClips in F. apply in_map_iff in F. destruct F as (tr0 & <- & Hin).
    unfold allLocked in H. rewrite Forall_forall in H.
    cbn. rewrite (H tr0 Hin). reflexivity.
Qed.

Lemma locked_tracks_take_no_copies_witness :
  pasteClips storeLocked = storeLocked /\
  duplicateSelectedClips (updateTrack "track-0" (lockData true) storeC)
    = deselectAll (updateTrack "track-0" (lockData true) storeC).
Proof.
  split.
  - refine (proj1 (locked_tracks_take_no_copies storeLocked) _).
    intros c tr _. unfold pasteTarget.
    assert (E : forall ty, find (fun t => TrackType_eqb (Track.type t) ty)
                             (State.tracks storeLocked) = Some tr ->
                           Track.isLocked tr = true).
    { intros [| |]; vm_compute; intro H; [injection H as <-; reflexivity|discriminate H
                                                                        |discriminate H]. }
    apply E.
  - refine (proj2 (locked_tracks_take_no_copies
                     (updateTrack "track-0" (lockData true) storeC)) _).
    unfold allLocked. vm_compute. repeat constructor.
Defined.

(** ** The end of a clip, and the length of the project *)

(** For a clip [c] found under [cid], [trimClipEnd] writes the end
    [max(startTime + 0.1, requested)] and the duration [endTime - startTime],
    which is at least [0.1]; the start, the source offset and every other
    property of the clip stay, and so does every other clip.  The requested
    end is bounded from below only: nothing keeps the clip within the length
    of its source.  Besides the tracks the call writes the two project
    lengths, through [updateProjectDuration]. *)
Theorem trimClipEnd_clamp (cid : ClipId) (requested : Q) (s : State.t) (c : Clip.t) :
  getClipById cid s = Some c ->
  exists c' before tr after pre post,
    located cid (State.tracks s) before tr after pre c post /\
    trimClipEnd cid requested s
      = updateProjectDuration
          (State.with_tracks (relocated before tr after pre [c'] post) s) /\
    Clip.endTime c' = Qmax (Clip.startTime c + 0.1) requested /\
    Clip.startTime c + 0.1 <= Clip.endTime c' /\
    requested <= Clip.endTime c' /\
    Clip.duration c' = Clip.endTime c' - Clip.startTime c' /\
    0.1 <= Clip.duration c' /\
    Clip.startTime c' = Clip.startTime c /\
    Clip.sourceStartTime c' = Clip.sourceStartTime c /\
    Clip.id c' = Clip.id c /\ Clip.isSelected c' = Clip.isSelected c /\
    Clip.trackId c' = Clip.trackId c /\ Clip.props c' = Clip.props c /\
    Clip.extra c' = Clip.extra c.
Proof.
  intro Hc. unfold trimClipEnd. rewrite Hc. unfold getClipById in Hc.
  destruct (findClip_located _ _ _ Hc) as (before & tr & after & pre & post & L).
  exists (trimEnd requested c), before, tr, after, pre, post.
  split; [exact L|]. split.
  { rewrite (located_modify cid _ before tr after pre c post _ L). reflexivity. }
  split; [reflexivity|].
  change (Clip.endTime (trimEnd requested c)) with (Qmax (Clip.startTime c + 0.1) requested).
  change (Clip.duration (trimEnd requested c))
    with (Qmax (Clip.startTime c + 0.1) requested - Clip.startTime c).
  change (Clip.startTime (trimEnd requested c)) with (Clip.startTime c).
  pose proof (Q.le_max_l (Clip.startTime c + 0.1) requested) as H1.
  pose proof (Q.le_max_r (Clip.startTime c + 0.1) requested) as H2.
  split; [exact H1|]. split; [exact H2|]. split; [reflexivity|].
  split; [lra|]. repeat split; reflexivity.
Qed.

Lemma trimClipEnd_clamp_witness :
  exists c' before tr after pre post,
    trimClipEnd (Some "clip-1"%string) 3 storeB
      = updateProjectDuration
          (State.with_tracks (relocated before tr after pre [c'] post) storeB) /\
    Clip.endTime c' == 3 /\ Clip.startTime c' = 0 /\ 0.1 <= Clip.duration c'.
Proof.
  destruct (trimClipEnd_clamp (Some "clip-1"%string) 3 storeB clipA)
    as (c' & before & tr & after & pre & post & _ & Heq & He & _ & _ & _ & Hd & Hs & _).
  - vm_compute. reflexivity.
  - exists c', before, tr, after, pre, post.
    split; [exact Heq|]. split; [|split].
    + rewrite He. vm_compute. reflexivity.
    + rewrite Hs. reflexivity.
    + exact Hd.
Defined.

Lemma fold_left_flat_map {A B C : Type} (f : A -> C -> A) (g : B -> list C) (l : list B) :
  forall a, fold_left (fun acc b => fold_left f (g b) acc) l a = fold_left f (flat_map g l) a.
Proof.
  induction l as [|b l IH]; intro a; simpl; [reflexivity|].
  rewrite fold_left_app. apply IH.
Qed.

(** The running maximum of [updateProjectDuration] over the clips [cs]. *)
Lemma maxEnd_fold (cs : list Clip.t) :
  forall m0,
    let m :=
      fold_left (fun maxEnd c => if Qlt_bool maxEnd (Clip.endTime c) then Clip.endTime c
                                 else maxEnd) cs m0 in
    m0 <= m /\
    (forall c, In c cs -> Clip.endTime c <= m) /\
    (m = m0 \/ exists c, In c cs /\ m = Clip.endTime c).
Proof.
  induction cs as [|a cs IH]; intro m0; cbn zeta; simpl fold_left.
  - split; [lra|]. split; [intros c []|left; reflexivity].
  - destruct (Qlt_bool m0 (Clip.endTime a)) eqn:E.
    + apply Qlt_bool_iff in E.
      destruct (IH (Clip.endTime a)) as (H1 & H2 & H3). cbn zeta in *.
      split; [lra|]. split.
      * intros c [<- |Hc]; [exact H1|apply H2, Hc].
      * right. destruct H3 as [H3|(c & Hc & H3)].
        -- exists a. split; [left; reflexivity|exact H3].
        -- exists c. split; [right; exact Hc|exact H3].
    + assert (Hle : Clip.endTime a <= m0).
      { destruct (Qlt_le_dec m0 (Clip.endTime a)) as [Hlt|Hle]; [|exact Hle].
        apply Qlt_bool_iff in Hlt. congruence. }
      destruct (IH m0) as (H1 & H2 & H3). cbn zeta in *.
      split; [exact H1|]. split.
      * intros c [<- |Hc]; [lra|apply H2, Hc].
      * destruct H3 as [H3|(c & Hc & H3)]; [left; exact H3|].
        right. exists c. split; [right; exact Hc|exact H3].
Qed.

Lemma maxEndTime_allClips (ts : list Track.t) :
  maxEndTime ts
  = fold_left (fun maxEnd c => if Qlt_bool maxEnd (Clip.endTime c) then Clip.endTime c
                               else maxEnd) (allClips ts) 0.
Proof. unfold maxEndTime, allClips. apply fold_left_flat_map. Qed.

(** [updateProjectDuration] sets [projectDuration] to the latest end of a
    clip: it is at least the end of every clip, it is [0] or the end of
    some clip, and it is not negative.  [duration] is raised to it when it
    was below, and is never lowered. *)
Theorem projectDuration_is_latest_end (s : State.t) :
  let s' := updateProjectDuration s in
  (forall c, In c (allClips (State.tracks s)) -> Clip.endTime c <= State.projectDuration s') /\
  (State.projectDuration s' = 0 \/
   exists c, In c (allClips (State.tracks s)) /\ State.projectDuration s' = Clip.endTime c) /\
  0 <= State.projectDuration s' /\
  State.projectDuration s' <= State.duration s' /\
  State.duration s <= State.duration s' /\
  (State.duration s' = State.duration s \/ State.duration s' = State.projectDuration s').
Proof.
  cbn zeta. unfold updateProjectDuration. rewrite maxEndTime_allClips.
  destruct (maxEnd_fold (allClips (State.tracks s)) 0) as (H1 & H2 & H3). cbn zeta in *.
  set (m := fold_left _ _ _) in *.
  cbn [State.duration State.with_projectDuration].
  destruct (Qlt_bool (State.duration s) m) eqn:E;
    cbn [State.projectDuration State.duration State.with_projectDuration State.with_duration].
  - apply Qlt_bool_iff in E. repeat split; try assumption; try lra. right. reflexivity.
  - assert (Hle : m <= State.duration s).
    { destruct (Qlt_le_dec (State.duration s) m) as [Hlt|Hle]; [|exact Hle].
      apply Qlt_bool_iff in Hlt. congruence. }
    repeat split; try assumption; try lra. left. reflexivity.
Qed.

Lemma duration_updateProjectDuration (s : State.t) :
  State.duration s <= State.duration (updateProjectDuration s).
Proof.
  unfold updateProjectDuration. cbn [State.duration State.with_projectDuration].
  destruct (Qlt_bool _ _) eqn:E; cbn; [apply Qlt_bool_iff in E; lra|lra].
Qed.

Lemma duration_saveHistory (s : State.t) :
  State.duration (saveHistory s) = State.duration s.
Proof. unfold saveHistory. destruct (_ <? _)%nat; reflexivity. Qed.

Lemma duration_addClip (tid : string) (clipData : PartialClip.t) (s : State.t) :
  State.duration s <= State.duration (snd (addClip tid clipData s)).
Proof.
  unfold addClip. destruct (find _ _); [|cbn; lra].
  cbn [generateId snd]. rewrite duration_saveHistory.
  match goal with |- _ <= State.duration (updateProjectDuration ?m) =>
    apply (Qle_trans _ (State.duration m)); [cbn; lra|apply duration_updateProjectDuration] end.
Qed.

Lemma duration_fold {A : Type} (f : State.t -> A -> State.t) (l : list A) :
  (forall s a, State.duration s <= State.duration (f s a)) ->
  forall s, State.duration s <= State.duration (fold_left f l s).
Proof.
  intro Hf. induction l as [|a l IH]; intro s; simpl; [lra|].
  apply (Qle_trans _ (State.duration (f s a))); [apply Hf|apply IH].
Qed.

Ltac dur_update :=
  match goal with |- _ <= State.duration (updateProjectDuration ?m) =>
    apply (Qle_trans _ (State.duration m)); [cbn; lra|apply duration_updateProjectDuration] end.

Lemma duration_selectClip (cid : ClipId) (add : bool) (s : State.t) :
  State.duration (selectClip cid add s) = State.duration s.
Proof. unfold selectClip. destruct add; destruct (getClipById _ _); reflexivity. Qed.

Lemma duration_exec (o : Op) (s : State.t) :
  State.duration s <= State.duration (exec o s).
Proof.
  destruct o; cbn [exec].
  - unfold addTrack. cbn [generateId snd]. rewrite duration_saveHistory. cbn. lra.
  - unfold removeTrack. destruct (find _ _); [|lra]. rewrite duration_saveHistory. cbn. lra.
  - apply duration_addClip.
  - unfold removeClip. destruct (existsb _ _); [|lra]. rewrite duration_saveHistory. dur_update.
  - unfold updateClip. destruct (getClipById _ _); [|lra]. dur_update.
  - unfold splitClip. destruct (getClipById _ _); [|cbn; lra].
    destruct (getTrackByClipId _ _); [|cbn; lra].
    destruct (_ || _); [cbn; lra|]. cbn [generateId snd]. rewrite duration_saveHistory.
    cbn. lra.
  - unfold moveClip. destruct (getClipById _ _); [|lra].
    destruct (getTrackByClipId _ _); [|lra]. dur_update.
  - unfold trimClipStart. destruct (getClipById _ _); cbn; lra.
  - unfold trimClipEnd. destruct (getClipById _ _); [|lra]. dur_update.
  - rewrite duration_selectClip. lra.
  - unfold deselectClip. destruct (getClipById _ _); cbn; lra.
  - cbn. lra.
  - cbn. lra.
  - cbn. lra.
  - unfold pasteClips. destruct (State.clipboard s) as [|c0 cb]; [lra|].
    apply duration_fold. intros st c. unfold pasteOne. destruct (find _ _); [|lra].
    destruct (negb _); [|lra]. apply duration_addClip.
  - unfold duplicateSelectedClips.
    apply (Qle_trans _ (State.duration (deselectAll s))); [cbn; lra|].
    apply duration_fold. intros st r. unfold duplicateOne. destruct (deref _ _); [|lra].
    destruct (getTrackByClipId _ _) as [tr|]; [|lra].
    destruct (negb _); [|lra].
    pose proof (duration_addClip (Track.id tr) (duplicateData t) st) as Ha.
    destruct (addClip _ _ _) as [[nc|] s1]; cbn [snd] in Ha; [|exact Ha].
    rewrite duration_selectClip. exact Ha.
  - unfold undo. destruct (0 <? _)%Z; [|cbn; lra]. destruct (jsIndex _ _); cbn; lra.
  - unfold redo. destruct (_ <? _)%Z; [|cbn; lra]. destruct (jsIndex _ _); cbn; lra.
Qed.

(** No edit operation lowers [duration], the length of the timeline: the
    removal of a clip, of a track, a trim and an undo leave it where the
    longest state had it. *)
Theorem duration_never_shrinks (ops : list Op) (s : State.t) :
  State.duration s <= State.duration (run ops s).
Proof.
  revert s. induction ops as [|o ops IH]; intro s; [cbn; lra|].
  rewrite run_cons. apply (Qle_trans _ (State.duration (exec o s))).
  - apply duration_exec.
  - apply IH.
Qed.

(** ** Updates of properties, and moves between tracks *)

Lemma located_findClip (cid : ClipId) ts before tr after pre c post :
  located cid ts before tr after pre c post -> findClip cid ts = Some c.
Proof.
  intros (-> & Hb & Hc & Hpre & Hid).
  assert (F : find (Clip.hasId cid) (Track.clips tr) = Some c).
  { rewrite Hc. clear Hc. induction Hpre as [|a pre Ha _ IHp]; simpl.
    - rewrite Hid. reflexivity.
    - rewrite Ha. exact IHp. }
  induction Hb as [|t before Ht _ IH]; simpl.
  - rewrite F. reflexivity.
  - unfold Track.hasClip in Ht. apply find_none_existsb in Ht. rewrite Ht. exact IH.
Qed.

(** An update that carries no id, no flag and no time, as the property
    panel and the drags on the canvas send them, reaches the clip found
    under the id, which receives every property of the update whatever the
    type of the clip; the update keeps a valid store valid and keeps flags
    and selected ids in agreement; it takes no snapshot. *)
Theorem property_update_keeps_invariants (cid : ClipId) (u : PartialClip.t) (s : State.t) :
  PartialClip.id u = None ->
  PartialClip.isSelected u = None ->
  PartialClip.startTime u = None ->
  PartialClip.endTime u = None ->
  PartialClip.duration u = None ->
  (validStore s -> validStore (updateClip cid u s)) /\
  (selInv s -> selInv (updateClip cid u s)) /\
  State.history (updateClip cid u s) = State.history s /\
  (forall c, getClipById cid s = Some c ->
     getClipById cid (updateClip cid u s) = Some (PartialClip.assign u c) /\
     allClips (State.tracks (updateClip cid u s))
       = mapFirst (Clip.hasId cid) (PartialClip.assign u) (allClips (State.tracks s))).
Proof.
  intros Hid Hsel Hst Hen Hdu. split; [|split; [|split]].
  - intro H. apply valid_updateClip; [exact H|].
    intros c Hc. unfold getClipById in Hc. apply findClip_In in Hc.
    destruct H as (_ & H2 & _). pose proof (validTracks_In _ _ H2 Hc) as Hv.
    unfold validClip, timed, PartialClip.assign in *. cbn.
    rewrite Hst, Hen, Hdu. exact Hv.
  - intro H. unfold updateClip. destruct (getClipById cid s); [|exact H].
    apply selInv_updateProjectDuration, selInv_modify; [|exact H].
    intro c. unfold PartialClip.assign. cbn. rewrite Hid, Hsel. split; reflexivity.
  - apply (noSnapshot_history (OUpdateClip cid u) s eq_refl).
  - intros c Hc. unfold updateClip. rewrite Hc. unfold getClipById in *.
    rewrite updateProjectDuration_tracks. cbn [State.tracks State.with_tracks].
    destruct (findClip_located _ _ _ Hc) as (before & tr & after & pre & post & L).
    rewrite (located_modify cid _ _ _ _ _ _ _ (PartialClip.assign u) L).
    destruct L as (E & Hb & Hcl & Hpre & Hh).
    split.
    + apply (located_findClip cid _ before
               (Track.with_clips (pre ++ [PartialClip.assign u c] ++ post) tr)
               after pre (PartialClip.assign u c) post).
      unfold located, relocated. repeat split; auto.
      unfold Clip.hasId, PartialClip.assign. cbn. rewrite Hid. exact Hh.
    + rewrite <- (located_modify cid _ _ _ _ _ _ _ (PartialClip.assign u)
                    (conj E (conj Hb (conj Hcl (conj Hpre Hh))))).
      apply allClips_modify.
Qed.

Lemma selInv_storeA : selInv storeA.
Proof.
  unfold storeA. apply selInv_exec.
  - unfold storeV1.
    exact (selInv_exec (OAddTrack TVideo (Some "V1"%string)) initialStore
             selInv_initialStore I).
  - split; [reflexivity|]. split; [discriminate|].
    vm_compute. intuition discriminate.
Qed.

(** [updateTextPosition] on the video clip of [storeA]: the clip is a video
    clip, [x] and [y] are properties of a video clip too, and the clip is
    moved to [(40, -25)]. *)
Lemma property_update_keeps_invariants_witness :
  let s' := updateTextPosition (Some "clip-1"%string) 40 (-25) storeA in
  validStore s' /\
  selInv s' /\
  State.history s' = State.history storeA /\
  getClipById (Some "clip-1"%string) s'
    = Some (PartialClip.assign (positionData 40 (-25)) clipA) /\
  Clip.props clipA
    = PVideo (VideoProps.mk "" "video" 0 None 0 0 1 0 false false 1 1 defaultFilters) /\
  Clip.props (PartialClip.assign (positionData 40 (-25)) clipA)
    = PVideo (VideoProps.mk "" "video" 0 None 40 (-25) 1 0 false false 1 1 defaultFilters).
Proof.
  cbv zeta.
  destruct (property_update_keeps_invariants (Some "clip-1"%string) (positionData 40 (-25))
              storeA eq_refl eq_refl eq_refl eq_refl eq_refl) as (H1 & H2 & H3 & H4).
  split; [apply H1, validStore_storeA|]. split; [apply H2, selInv_storeA|].
  split; [exact H3|].
  split; [apply (H4 clipA); vm_compute; reflexivity|].
  split; reflexivity.
Defined.

(** ** [moveClip] and the tracks *)

Lemma idsOf_mapFirst (p : Clip.t -> bool) (f : Clip.t -> Clip.t) (l : list Clip.t) :
  (forall c, Clip.id (f c) = Clip.id c) -> idsOf (mapFirst p f l) = idsOf l.
Proof.
  intro Hf. unfold mapFirst. induction l as [|a l IH]; simpl; [reflexivity|].
  destruct (p a); simpl; [rewrite Hf; reflexivity|rewrite IH; reflexivity].
Qed.

Lemma existsb_hasId_mapFirst_clip (cid : ClipId) (f : Clip.t -> Clip.t) (l : list Clip.t) :
  (forall c, Clip.id (f c) = Clip.id c) ->
  existsb (Clip.hasId cid) (mapFirst (Clip.hasId cid) f l) = existsb (Clip.hasId cid) l.
Proof.
  intro Hf. unfold mapFirst. induction l as [|a l IH]; simpl; [reflexivity|].
  destruct (Clip.hasId cid a) eqn:E; simpl.
  - unfold Clip.hasId in *. rewrite Hf, E. reflexivity.
  - rewrite E, IH. reflexivity.
Qed.

Lemma perm_removeFirst (cid : ClipId) (cs : list Clip.t) :
  existsb (Clip.hasId cid) cs = true ->
  Permutation (cid :: idsOf (removeFirst (Clip.hasId cid) cs)) (idsOf cs).
Proof.
  unfold removeFirst. induction cs as [|a cs IH]; simpl; [discriminate|].
  destruct (Clip.hasId cid a) eqn:E; simpl.
  - intros _. unfold Clip.hasId in E. apply ClipId_eqb_eq in E. rewrite E. apply Permutation_refl.
  - intro H. apply perm_trans with (Clip.id a :: cid :: idsOf (substFirst (Clip.hasId cid)
                                                                (fun _ => []) cs)).
    + apply perm_swap.
    + apply perm_skip, IH, H.
Qed.

(** [moveClip] loses no clip and makes no copy: the ids of the clips on the
    tracks are the same afterwards, each as often as before, whether the
    clip stays on its track or goes to another one. *)
Theorem moveClip_keeps_every_clip (cid : ClipId) (time : Q) (ntid : option string)
    (s : State.t) :
  Permutation (idsOf (allClips (State.tracks (moveClip cid time ntid s))))
              (idsOf (allClips (State.tracks s))).
Proof.
  unfold moveClip.
  destruct (getClipById cid s) as [clip|] eqn:E; [|apply Permutation_refl].
  destruct (getTrackByClipId cid s) as [cur|]; [|apply Permutation_refl].
  rewrite updateProjectDuration_tracks. cbn [State.tracks State.with_tracks].
  set (t' := if State.isSnappingEnabled s then getSnappedTime time cid s else time).
  assert (Hid : forall c, Clip.id (retime t' c) = Clip.id c) by reflexivity.
  assert (H1 : idsOf (allClips (modifyClip cid (retime t') (State.tracks s)))
               = idsOf (allClips (State.tracks s))).
  { rewrite allClips_modify. apply idsOf_mapFirst, Hid. }
  destruct ntid as [ntid|]; [|rewrite H1; apply Permutation_refl].
  destruct (_ && _); [|rewrite H1; apply Permutation_refl].
  destruct (find _ _) as [newTrack|] eqn:F; [|rewrite H1; apply Permutation_refl].
  destruct (TrackType_eqb _ _); [|rewrite H1; apply Permutation_refl].
  set (ts1 := modifyClip cid (retime t') (State.tracks s)) in *.
  destruct (find_hasId_mapFirst ntid (Track.hasClip cid)
              (fun tr => Track.with_clips (removeFirst (Clip.hasId cid) (Track.clips tr)) tr)
              ts1 newTrack (fun _ => eq_refl) F) as [tr' F'].
  destruct (allClips_pushClip ntid (Clip.with_trackId ntid (retime t' clip)) _ tr' F')
    as (l1 & l2 & E1 & E2).
  rewrite E2. unfold removeFirst in E1. rewrite (allClips_subst cid (fun _ => [])) in E1.
  rewrite idsOf_app. simpl.
  apply perm_trans with (Clip.id clip :: idsOf l1 ++ idsOf l2)%list.
  { apply Permutation_sym, Permutation_middle. }
  rewrite <- idsOf_app, <- E1, <- H1.
  assert (Hc : Clip.id clip = cid).
  { unfold getClipById in E. destruct (findClip_located _ _ _ E) as (? & ? & ? & ? & ? & L).
    destruct L as (_ & _ & _ & _ & L). unfold Clip.hasId in L. apply ClipId_eqb_eq. exact L. }
  rewrite Hc. apply perm_removeFirst.
  unfold ts1. rewrite allClips_modify, existsb_hasId_mapFirst_clip by exact Hid.
  unfold getClipById in E. rewrite findClip_allClips in E.
  destruct (existsb _ _) eqn:X; [reflexivity|].
  apply find_none_existsb in X. congruence.
Qed.

Lemma find_hasId_mapFirst_type (tid : string) (p : Track.t -> bool) (g : Track.t -> Track.t)
    (ts : list Track.t) :
  (forall t, Track.id (g t) = Track.id t /\ Track.type (g t) = Track.type t) ->
  match find (Track.hasId tid) ts, find (Track.hasId tid) (mapFirst p g ts) with
  | Some tr, Some tr' => Track.type tr' = Track.type tr
  | None, None => True
  | _, _ => False
  end.
Proof.
  intros Hg. unfold mapFirst. induction ts as [|t ts IH]; simpl; [exact I|].
  destruct (p t) eqn:Ep; simpl.
  - replace (Track.hasId tid (g t)) with (Track.hasId tid t)
      by (unfold Track.hasId; rewrite (proj1 (Hg t)); reflexivity).
    destruct (Track.hasId tid t); [apply Hg|].
    destruct (find (Track.hasId tid) ts); [reflexivity|exact I].
  - destruct (Track.hasId tid t); [reflexivity|exact IH].
Qed.

(** A clip changes track only within its type.  When the destination id is
    the id of no track, or of a track of another type than the track of the
    clip, [moveClip] does what it does without a destination: the clip stays
    on its track, and is still moved in time. *)
Theorem moveClip_stays_within_type (cid : ClipId) (time : Q) (ntid : string) (s : State.t)
    (cur : Track.t) :
  getTrackByClipId cid s = Some cur ->
  (forall dest, find (Track.hasId ntid) (State.tracks s) = Some dest ->
                Track.type dest <> Track.type cur) ->
  moveClip cid time (Some ntid) s = moveClip cid time None s.
Proof.
  intros Hcur H. unfold moveClip. rewrite Hcur.
  destruct (getClipById cid s); [|reflexivity].
  destruct (_ && _); [|reflexivity].
  set (t' := if State.isSnappingEnabled s then getSnappedTime time cid s else time).
  pose proof (find_hasId_mapFirst_type ntid (Track.hasClip cid)
                (fun tr => Track.with_clips (mapFirst (Clip.hasId cid) (retime t')
                                               (Track.clips tr)) tr)
                (State.tracks s) (fun _ => conj eq_refl eq_refl)) as M.
  fold (modifyClip cid (retime t') (State.tracks s)) in M.
  destruct (find (Track.hasId ntid) (State.tracks s)) as [dest|] eqn:F;
    destruct (find (Track.hasId ntid) (modifyClip cid (retime t') (State.tracks s)))
      as [dest'|]; try contradiction; [|reflexivity].
  destruct (TrackType_eqb (Track.type dest') (Track.type cur)) eqn:T; [|reflexivity].
  exfalso. apply (H dest eq_refl). rewrite <- M.
  destruct (Track.type dest'), (Track.type cur); try discriminate; reflexivity.
Qed.

Lemma moveClip_stays_within_type_witness :
  let s := snd (addTrack TAudio None storeA) in
  moveClip (Some "clip-1"%string) 5 (Some "track-2"%string) s
    = moveClip (Some "clip-1"%string) 5 None s /\
  State.tracks (moveClip (Some "clip-1"%string) 5 (Some "track-2"%string) s) <> State.tracks s.
Proof.
  cbv zeta. split.
  - eapply (moveClip_stays_within_type (Some "clip-1"%string) 5 "track-2"
              (snd (addTrack TAudio None storeA))).
    + vm_compute. reflexivity.
    + intros dest Hd. vm_compute in Hd. injection Hd as <-. vm_compute. discriminate.
  - vm_compute. discriminate.
Defined.

(** ** The settings of the view *)

Lemma settings_saveHistory (s : State.t) : settings (saveHistory s) = settings s.
Proof. unfold saveHistory. destruct (_ <? _)%nat; reflexivity. Qed.

Lemma settings_updateProjectDuration (s : State.t) :
  settings (updateProjectDuration s) = settings s.
Proof. unfold updateProjectDuration. destruct (Qlt_bool _ _); reflexivity. Qed.

Lemma settings_addClip (tid : string) (clipData : PartialClip.t) (s : State.t) :
  settings (snd (addClip tid clipData s)) = settings s.
Proof.
  unfold addClip. destruct (find _ _); [|reflexivity].
  cbn [generateId snd]. rewrite settings_saveHistory, settings_updateProjectDuration.
  reflexivity.
Qed.

Lemma settings_selectClip (cid : ClipId) (add : bool) (s : State.t) :
  settings (selectClip cid add s) = settings s.
Proof. unfold selectClip. destruct add; destruct (getClipById _ _); reflexivity. Qed.

Lemma settings_fold {A : Type} (f : State.t -> A -> State.t) (l : list A) :
  (forall s a, settings (f s a) = settings s) ->
  forall s, settings (fold_left f l s) = settings s.
Proof.
  intro Hf. induction l as [|a l IH]; intro s; simpl; [reflexivity|].
  rewrite IH. apply Hf.
Qed.

Lemma settings_exec (o : Op) (s : State.t) : settings (exec o s) = settings s.
Proof.
  destruct o; cbn [exec].
  - unfold addTrack. cbn [generateId snd]. rewrite settings_saveHistory. reflexivity.
  - unfold removeTrack. destruct (find _ _); [|reflexivity].
    rewrite settings_saveHistory. reflexivity.
  - apply settings_addClip.
  - unfold removeClip. destruct (existsb _ _); [|reflexivity].
    rewrite settings_saveHistory, settings_updateProjectDuration. reflexivity.
  - unfold updateClip. destruct (getClipById _ _); [|reflexivity].
    rewrite settings_updateProjectDuration. reflexivity.
  - unfold splitClip. destruct (getClipById _ _); [|reflexivity].
    destruct (getTrackByClipId _ _); [|reflexivity].
    destruct (_ || _); [reflexivity|]. cbn [generateId snd].
    rewrite settings_saveHistory. reflexivity.
  - unfold moveClip. destruct (getClipById _ _); [|reflexivity].
    destruct (getTrackByClipId _ _); [|reflexivity].
    rewrite settings_updateProjectDuration. reflexivity.
  - unfold trimClipStart. destruct (getClipById _ _); reflexivity.
  - unfold trimClipEnd. destruct (getClipById _ _); [|reflexivity].
    rewrite settings_updateProjectDuration. reflexivity.
  - apply settings_selectClip.
  - unfold deselectClip. destruct (getClipById _ _); reflexivity.
  - reflexivity.
  - reflexivity.
  - reflexivity.
  - unfold pasteClips. destruct (State.clipboard s) as [|c0 cb]; [reflexivity|].
    apply settings_fold. intros st c. unfold pasteOne. destruct (find _ _); [|reflexivity].
    destruct (negb _); [|reflexivity]. apply settings_addClip.
  - unfold duplicateSelectedClips. rewrite settings_fold; [reflexivity|].
    intros st r. unfold duplicateOne. destruct (deref _ _); [|reflexivity].
    destruct (getTrackByClipId _ _) as [tr|]; [|reflexivity].
    destruct (negb _); [|reflexivity].
    pose proof (settings_addClip (Track.id tr) (duplicateData t) st) as Ha.
    destruct (addClip _ _ _) as [[nc|] s1]; cbn [snd] in Ha; [|exact Ha].
    rewrite settings_selectClip. exact Ha.
  - unfold undo. destruct (0 <? _)%Z; [|reflexivity]. destruct (jsIndex _ _); reflexivity.
  - unfold redo. destruct (_ <? _)%Z; [|reflexivity]. destruct (jsIndex _ _); reflexivity.
Qed.

(** The edit operations write none of the settings of the view and of the
    playback: project name, aspect ratio, playing flag, playhead, zoom,
    scroll offset, snapping flag and snap threshold are after any sequence
    of edits what they were before. *)
Theorem edits_keep_settings (ops : list Op) (s : State.t) :
  settings (run ops s) = settings s.
Proof.
  revert s. induction ops as [|o ops IH]; intro s; [reflexivity|].
  rewrite run_cons, IH. apply settings_exec.
Qed.

Lemma zoomInRange_act (a : Action) (s : State.t) :
  zoomInRange s ->
  zoomInRange (act a s) /\ State.snapThreshold (act a s) = State.snapThreshold s.
Proof.
  intros [H1 H2]. unfold zoomInRange. destruct a; cbn [act].
  - pose proof (settings_exec o s) as E. unfold settings in E.
    injection E as _ _ _ _ Ez _ _ Et. rewrite Ez, Et. auto.
  - cbn. split; [|reflexivity]. split.
    + apply Q.min_glb; lra.
    + apply Q.le_min_r.
  - cbn. split; [|reflexivity]. split.
    + apply Q.le_max_r.
    + apply Q.max_lub; [|lra].
      apply Qle_shift_div_r; lra.
  - cbn. split; [split; lra|reflexivity].
  - cbn. auto.
  - cbn. auto.
  - cbn. auto.
Qed.

(** Zooming never leaves the range: from a zoom between [0.1] and [10], any
    sequence of edits, zoom steps, fits, toggles, ratio changes and playhead
    updates leaves the zoom between [0.1] and [10], and leaves the snap
    threshold as it was.  The threshold of snapping in seconds is then a
    finite number: its divisor [100 * timelineZoom] is not zero. *)
Theorem zoom_stays_in_range (l : list Action) (s : State.t) :
  zoomInRange s ->
  zoomInRange (perform l s) /\
  State.snapThreshold (perform l s) = State.snapThreshold s /\
  thresholdSeconds (perform l s)
    = Fin (State.snapThreshold s / (100 * State.timelineZoom (perform l s))).
Proof.
  intro H.
  assert (Hr : zoomInRange (perform l s) /\
               State.snapThreshold (perform l s) = State.snapThreshold s).
  { revert s H. induction l as [|a l IH]; intros s H; [split; [exact H|reflexivity]|].
    unfold perform. simpl. fold (perform l (act a s)).
    destruct (zoomInRange_act a s H) as [Hz Ht].
    destruct (IH _ Hz) as [Hz' Ht']. split; [exact Hz'|congruence]. }
  destruct Hr as [Hz Ht]. split; [exact Hz|]. split; [exact Ht|].
  rewrite thresholdSeconds_finite; [rewrite Ht; reflexivity|].
  destruct Hz as [Hz _]. intro E. lra.
Qed.

Lemma zoom_stays_in_range_witness :
  let l := [AZoomIn; AZoomIn; AZoomIn; AZoomIn; AZoomIn; AZoomIn; AEdit OSelectAllClips;
            AZoomOut; AToggleSnapping; AZoomToFit; AZoomOut] in
  zoomInRange (perform l storeB) /\
  State.snapThreshold (perform l storeB) = State.snapThreshold storeB /\
  thresholdSeconds (perform l storeB)
    = Fin (State.snapThreshold storeB / (100 * State.timelineZoom (perform l storeB))).
Proof.
  cbv zeta. apply zoom_stays_in_range.
  unfold zoomInRange. vm_compute. split; discriminate.
Defined.

(** ** The aspect ratio and the canvas area *)

(** [getAspectRatioDimensions] gives, for every preset [w:h], the width
    1920 and a whole height within half a pixel of [1920 * h / w]: a wide
    preset gives a frame that is wider than high, an upright preset one that
    is higher than wide, and [1:1] a square. *)
Theorem aspect_ratio_dimensions (s : State.t) :
  let d := getAspectRatioDimensions s in
  let w := fst (ratioOf (State.aspectRatio s)) in
  let h := snd (ratioOf (State.aspectRatio s)) in
  Size.width d = 1920 /\
  (exists n : Z, Size.height d = inject_Z n /\ (0 < n)%Z) /\
  Qabs (Size.height d - 1920 * h / w) <= 1 # 2 /\
  (h < w -> Size.height d < Size.width d) /\
  (w < h -> Size.width d < Size.height d) /\
  (w == h -> Size.height d == Size.width d).
Proof.
  unfold getAspectRatioDimensions. cbv zeta.
  destruct (State.aspectRatio s); cbn [ratioOf fst snd Size.width Size.height];
    (split; [reflexivity|]);
    (split; [eexists; split; [reflexivity|vm_compute; reflexivity]|]);
    (split; [vm_compute; discriminate|]);
    repeat split; intro H; vm_compute in H |- *; try reflexivity; try discriminate;
    try (exfalso; discriminate H); try (exfalso; apply H; reflexivity).
Qed.

Lemma jsDiv_finite (a b : Q) : ~ b == 0 -> jsDiv a b = Fin (a / b).
Proof.
  intro H. unfold jsDiv. destruct (Qeq_bool b 0) eqn:E; [|reflexivity].
  apply Qeq_bool_iff in E. contradiction.
Qed.

Lemma Qlt_bool_false (a b : Q) : Qlt_bool a b = false <-> b <= a.
Proof.
  split; intro H.
  - destruct (Qlt_le_dec a b) as [Hlt|Hle]; [|exact Hle].
    apply Qlt_bool_iff in Hlt. congruence.
  - destruct (Qlt_bool a b) eqn:E; [|reflexivity]. apply Qlt_bool_iff in E. lra.
Qed.

(** Inverses of numerals, computed: [lra] reads them as numbers then. *)
Ltac inv_consts :=
  unfold Qdiv in *;
  repeat match goal with
         | |- context [Qinv (Qmake ?n ?d)] =>
             let v := eval vm_compute in (Qinv (Qmake n d)) in
             change (Qinv (Qmake n d)) with v in *
         | H : context [Qinv (Qmake ?n ?d)] |- _ =>
             let v := eval vm_compute in (Qinv (Qmake n d)) in
             change (Qinv (Qmake n d)) with v in *
         end.

Lemma Qlt_div_iff (r a b : Q) : 0 < b -> (r < a / b <-> r * b < a).
Proof.
  intro Hb. assert (E : a == a / b * b) by (field; lra). split; intro H.
  - rewrite E. apply Qmult_lt_compat_r; assumption.
  - apply Qlt_shift_div_l; assumption.
Qed.

Lemma Qle_div_iff (r a b : Q) : 0 < b -> (a / b <= r <-> a <= r * b).
Proof.
  intro Hb. assert (E : a == a / b * b) by (field; lra). split; intro H.
  - rewrite E. apply Qmult_le_compat_r; lra.
  - apply Qle_shift_div_r; assumption.
Qed.

(** On a screen of positive width and height, the canvas area has the
    proportions of the preset, lies centred on the screen, and is the
    largest such area within nine tenths of the screen: it takes nine tenths
    of the width or nine tenths of the height, and no more of the other. *)
Theorem canvas_area_fits (cw ch : Q) (s : State.t) :
  0 < cw -> 0 < ch ->
  let a := getCanvasArea (Some (Size.mk cw ch)) s in
  let w := fst (ratioOf (State.aspectRatio s)) in
  let h := snd (ratioOf (State.aspectRatio s)) in
  Area.width a * h == Area.height a * w /\
  0 < Area.width a /\ Area.width a <= 0.9 * cw /\
  0 < Area.height a /\ Area.height a <= 0.9 * ch /\
  (Area.width a == 0.9 * cw \/ Area.height a == 0.9 * ch) /\
  Area.x a + Area.width a / 2 == cw / 2 /\
  Area.y a + Area.height a / 2 == ch / 2 /\
  0 < Area.x a /\ 0 < Area.y a.
Proof.
  intros Hw Hh. cbv zeta. unfold getCanvasArea.
  cbn [Size.width Size.height].
  rewrite jsDiv_finite by lra. unfold ltJs.
  destruct (State.aspectRatio s); cbn [ratioOf fst snd];
    match goal with |- context [Qlt_bool ?r (cw / ch)] =>
      destruct (Qlt_bool r (cw / ch)) eqn:E;
        [apply Qlt_bool_iff in E; apply (proj1 (Qlt_div_iff r cw ch Hh)) in E
        |apply Qlt_bool_false in E; apply (proj1 (Qle_div_iff r cw ch Hh)) in E] end;
    cbn [Area.x Area.y Area.width Area.height];
    inv_consts;
    repeat (split; [first [lra | left; lra | right; lra]|]);
    lra.
Qed.

Lemma canvas_area_fits_witness :
  let a := getCanvasArea (Some (Size.mk 1000 500)) (setAspectRatio R9_16 initialStore) in
  Area.width a * 16 == Area.height a * 9 /\
  Area.height a == 450 /\
  Area.x a + Area.width a / 2 == 500.
Proof.
  destruct (canvas_area_fits 1000 500 (setAspectRatio R9_16 initialStore))
    as (H1 & _ & _ & _ & _ & _ & H7 & _); [reflexivity|reflexivity|].
  cbv zeta. split; [exact H1|]. split; [vm_compute; reflexivity|].
  rewrite H7. vm_compute. reflexivity.
Defined.

(** ** [formatTime] *)

Lemma Qfloor_unique (x : Q) (z : Z) :
  inject_Z z <= x -> x < inject_Z (z + 1) -> Qfloor x = z.
Proof.
  intros H1 H2.
  assert (A : (z <= Qfloor x)%Z).
  { rewrite <- (Qfloor_Z z). apply Qfloor_resp_le. exact H1. }
  assert (B : (Qfloor x < z + 1)%Z).
  { apply Z.lt_nge. intro C. rewrite Zle_Qle in C.
    pose proof (Qfloor_le x). lra. }
  lia.
Qed.

Lemma padStart2_two_digits (z : Z) :
  (0 <= z < 100)%Z -> String.length (padStart2 (showZ z)) = 2%nat.
Proof.
  intro H.
  assert (F : forallb (fun n => Nat.eqb (String.length (padStart2 (showZ (Z.of_nat n)))) 2)
                (seq 0 100) = true) by (vm_compute; reflexivity).
  rewrite forallb_forall in F. specialize (F (Z.to_nat z)).
  rewrite Z2Nat.id in F by lia. apply Nat.eqb_eq, F. apply in_seq. lia.
Qed.

Lemma length_append (a b : string) :
  String.length (a ++ b) = (String.length a + String.length b)%nat.
Proof. induction a as [|c a IH]; simpl; [reflexivity|]. rewrite IH. reflexivity. Qed.

(** For a time that is not negative, [formatTime] prints the whole minutes
    [m] and the whole seconds [sec] of the time, each padded to two digits:
    [sec] is below 60 and [60 * m + sec] is the time rounded down.  Below a
    hundred minutes the text has five characters. *)
Theorem formatTime_minutes_seconds (seconds : Q) :
  0 <= seconds ->
  exists m sec : Z,
    (0 <= m)%Z /\ (0 <= sec < 60)%Z /\
    (60 * m + sec)%Z = Qfloor seconds /\
    formatTime seconds = (padStart2 (showZ m) ++ ":" ++ padStart2 (showZ sec))%string /\
    (seconds < 6000 -> String.length (formatTime seconds) = 5%nat).
Proof.
  intro H0. unfold formatTime, jsRem. cbv zeta.
  set (m := Qfloor (seconds / 60)).
  assert (Hm1 : inject_Z m <= seconds / 60) by apply Qfloor_le.
  assert (Hm2 : seconds / 60 < inject_Z (m + 1)) by apply Qlt_floor.
  rewrite inject_Z_plus in Hm2. change (inject_Z 1) with 1 in Hm2.
  assert (Hd : seconds == seconds / 60 * 60) by (field; lra).
  assert (Hq : 0 <= seconds / 60) by (apply Qle_shift_div_l; [reflexivity|lra]).
  assert (Hm0 : (0 <= m)%Z).
  { assert (0 <= Qfloor (seconds / 60))%Z; [|exact H].
    rewrite <- (Qfloor_Z 0). apply Qfloor_resp_le. exact Hq. }
  assert (Et : Qtrunc (seconds / 60) = m).
  { unfold Qtrunc. destruct (Qle_bool 0 (seconds / 60)) eqn:E; [reflexivity|].
    apply Qle_bool_iff in Hq. congruence. }
  set (q := seconds / 60) in *.
  assert (A1 : 60 * inject_Z m <= seconds) by lra.
  assert (A2 : seconds < 60 * inject_Z m + 60) by lra.
  clearbody q.
  rewrite Et.
  set (sec := Qfloor (seconds - 60 * inject_Z m)).
  assert (Hs1 : inject_Z sec <= seconds - 60 * inject_Z m) by apply Qfloor_le.
  assert (Hs2 : seconds - 60 * inject_Z m < inject_Z (sec + 1)) by apply Qlt_floor.
  assert (Hs0 : (0 <= sec)%Z).
  { assert (0 <= Qfloor (seconds - 60 * inject_Z m))%Z; [|exact H].
    rewrite <- (Qfloor_Z 0). apply Qfloor_resp_le. change (inject_Z 0) with 0. lra. }
  assert (Hs60 : (sec < 60)%Z).
  { rewrite Zlt_Qlt. change (inject_Z 60) with 60. lra. }
  assert (Hsum : (60 * m + sec)%Z = Qfloor seconds).
  { symmetry. apply Qfloor_unique.
    - rewrite inject_Z_plus, inject_Z_mult. change (inject_Z 60) with 60. lra.
    - rewrite !inject_Z_plus, inject_Z_mult in *. change (inject_Z 60) with 60.
      change (inject_Z 1) with 1 in *. lra. }
  exists m, sec. split; [exact Hm0|]. split; [lia|]. split; [exact Hsum|].
  split; [reflexivity|].
  intro Hlt.
  assert (Hm100 : (m < 100)%Z).
  { rewrite Zlt_Qlt. change (inject_Z 100) with 100. lra. }
  rewrite !length_append, !padStart2_two_digits by lia. reflexivity.
Qed.

Lemma formatTime_minutes_seconds_witness :
  exists m sec : Z,
    (60 * m + sec)%Z = Qfloor (2507 # 20) /\
    formatTime (2507 # 20) = (padStart2 (showZ m) ++ ":" ++ padStart2 (showZ sec))%string /\
    formatTime (2507 # 20) = "02:05"%string.
Proof.
  destruct (formatTime_minutes_seconds (2507 # 20)) as (m & sec & _ & _ & H1 & H2 & _).
  - discriminate.
  - exists m, sec. split; [exact H1|]. split; [exact H2|]. vm_compute. reflexivity.
Defined.

(** ** Texts on the canvas *)

(** The getter [visibleTexts] of the store, [animateTexts] and
    [updateTextVisibility] of the canvas agree on which texts show: a text
    shows from its start to its end, both included.  [visibleTexts] is the
    list of the overlays that [animateTexts] makes visible, and the two
    canvas functions leave the same objects, with the same visibility for
    every object that has an overlay.  (An object without overlay is hidden
    by [animateTexts] and left as it is by [updateTextVisibility].) *)
Theorem text_visibility_agrees (s : State.t) :
  visibleTexts s
  = filter (fun o => TextObj.visible (animateText (State.currentTime s) (Some o) blankObj))
      (textOverlays s) /\
  forall hasContainer textObjects,
    Forall2
      (fun p q =>
         fst p = fst q /\
         (overlayGet (fst p) (textOverlays s) <> None ->
          TextObj.visible (snd p) = TextObj.visible (snd q)))
      (animateTexts hasContainer s textObjects)
      (updateTextVisibility hasContainer s textObjects).
Proof.
  assert (E : forall o textObj,
             TextObj.visible (animateText (State.currentTime s) (Some o) textObj)
             = Qle_bool (TextOverlay.startTime o) (State.currentTime s)
               && Qle_bool (State.currentTime s) (TextOverlay.endTime o)).
  { intros o textObj. unfold animateText, isVisibleAt, Qlt_bool.
    destruct (Qle_bool (TextOverlay.startTime o) (State.currentTime s));
      destruct (Qle_bool (State.currentTime s) (TextOverlay.endTime o)); reflexivity. }
  split.
  - unfold visibleTexts. apply filter_ext. intro o. rewrite E. reflexivity.
  - intros hasContainer textObjects. unfold animateTexts, updateTextVisibility.
    destruct (negb hasContainer || Nat.eqb (List.length textObjects) 0).
    + induction textObjects as [|p l IH]; constructor; [split; reflexivity|exact IH].
    + cbv zeta. induction textObjects as [|[cid obj] l IH]; simpl; constructor; [|exact IH].
      split; [reflexivity|]. cbn [fst snd].
      destruct (overlayGet cid (textOverlays s)) as [o|]; [|intro H; contradiction].
      intros _. rewrite E. reflexivity.
Qed.

Lemma clamp01_range (p : Q) : 0 <= clamp01 p /\ clamp01 p <= 1.
Proof.
  unfold clamp01. split; [apply Q.le_max_l|].
  apply Q.max_lub; [lra|apply Q.le_min_l].
Qed.

Lemma prefix_substring (n : nat) (s : string) :
  String.prefix (String.substring 0 n s) s = true.
Proof.
  revert s. induction n as [|n IH]; intros [|c s]; simpl; try reflexivity.
  destruct (Ascii.ascii_dec c c); [apply IH|contradiction].
Qed.

Lemma prefix_refl (s : string) : String.prefix s s = true.
Proof.
  induction s as [|c s IH]; simpl; [reflexivity|].
  destruct (Ascii.ascii_dec c c); [exact IH|contradiction].
Qed.

Lemma animateIn_bounds (currentTime : Q) (o : TextOverlay.t) :
  animBounds o 0 (animateIn currentTime o (animInit o)).
Proof.
  assert (B0 : animBounds o 0 (animInit o)).
  { unfold animBounds, animInit. cbn. destruct (TextOverlay.isSelected o).
    - repeat split; try lra; try reflexivity. apply prefix_refl.
    - repeat split; try lra; try reflexivity. apply prefix_refl. }
  unfold animateIn.
  set (t := clamp01 _). destruct (clamp01_range
    ((currentTime - TextOverlay.startTime o) / TextAnimation.duration (TextOverlay.animationIn o)))
    as [T0 T1]. fold t in T0, T1. clearbody t.
  destruct (TextAnimation.type (TextOverlay.animationIn o)); try exact B0;
    destruct (Qlt_bool _ _); try exact B0;
    destruct B0 as ((A0 & A1) & Bx & (By0 & By1) & (S0 & S1) & Bs & Bt);
    unfold animBounds, entranceEffect; cbn in *.
  - destruct (TextOverlay.isSelected o); repeat split; try assumption; try lra; nra.
  - repeat split; try assumption; try lra; nra.
  - repeat split; try assumption; try lra.
  - repeat split; try assumption; try lra. apply prefix_substring.
Qed.

Lemma animateOut_bounds (currentTime : Q) (o : TextOverlay.t) (a : Anim.t) :
  animBounds o 0 a -> animBounds o 50 (animateOut currentTime o a).
Proof.
  intro B0.
  assert (B1 : animBounds o 50 a).
  { destruct B0 as ((A0 & A1) & Bx & (By0 & By1) & (S0 & S1) & Bs & Bt).
    unfold animBounds. repeat split; try assumption; lra. }
  unfold animateOut.
  set (t := clamp01 _). destruct (clamp01_range
    ((TextAnimation.duration (TextOverlay.animationOut o)
      - (TextOverlay.endTime o - currentTime))
     / TextAnimation.duration (TextOverlay.animationOut o))) as [T0 T1].
  fold t in T0, T1. clearbody t.
  destruct (TextAnimation.type (TextOverlay.animationOut o)); try exact B1;
    destruct (Qlt_bool _ _); try exact B1;
    destruct B0 as ((A0 & A1) & Bx & (By0 & By1) & (S0 & S1) & Bs & Bt);
    unfold animBounds, exitEffect; cbn in *.
  - repeat split; try assumption; try lra; nra.
  - repeat split; try assumption; try lra; nra.
  - repeat split; try assumption; try lra.
Qed.

(** What [animateTexts] writes to a text it shows stays within bounds, at
    every time and for every pair of animations: the alpha and the scale
    are between 0 and 1, the two scales are equal, the horizontal position
    is the one of the overlay, the vertical position is within 50 pixels of
    it, and the text is the text of the overlay or, under the typewriter,
    the beginning of it. *)
Theorem animated_text_within_bounds (currentTime : Q) (o : TextOverlay.t)
    (textObj : TextObj.t) :
  let r := animateText currentTime (Some o) textObj in
  TextObj.visible r = true ->
  (0 <= TextObj.alpha r /\ TextObj.alpha r <= 1) /\
  TextObj.x r = TextOverlay.x o /\
  (TextOverlay.y o - 50 <= TextObj.y r /\ TextObj.y r <= TextOverlay.y o + 50) /\
  (0 <= TextObj.scaleX r /\ TextObj.scaleX r <= 1) /\
  TextObj.scaleY r = TextObj.scaleX r /\
  String.prefix (TextObj.text r) (TextOverlay.text o) = true.
Proof.
  cbv zeta. unfold animateText. destruct (isVisibleAt currentTime o).
  - intros _. cbn [TextObj.alpha TextObj.x TextObj.y TextObj.scaleX TextObj.scaleY
                   TextObj.text].
    apply (animateOut_bounds currentTime o), animateIn_bounds.
  - cbn. discriminate.
Qed.

Lemma animated_text_within_bounds_witness :
  let o := shortOverlay (TextAnimation.mk ATypewriter 1 None) (TextAnimation.mk ASlide 1 None) in
  let r := animateText (1 # 2) (Some o) blankObj in
  (0 <= TextObj.alpha r /\ TextObj.alpha r <= 1) /\
  TextObj.x r = TextOverlay.x o /\
  (TextOverlay.y o - 50 <= TextObj.y r /\ TextObj.y r <= TextOverlay.y o + 50) /\
  (0 <= TextObj.scaleX r /\ TextObj.scaleX r <= 1) /\
  TextObj.scaleY r = TextObj.scaleX r /\
  String.prefix (TextObj.text r) (TextOverlay.text o) = true.
Proof.
  cbv zeta. apply animated_text_within_bounds. vm_compute. reflexivity.
Defined.

(** ** The text actions of the store *)

Lemma find_hasId_In (tr : Track.t) (ts : list Track.t) :
  In tr ts -> exists tr', find (Track.hasId (Track.id tr)) ts = Some tr'.
Proof.
  intro H. destruct (find (Track.hasId (Track.id tr)) ts) eqn:F; [eauto|].
  exfalso. apply (find_none _ _ F) in H. unfold Track.hasId in H.
  rewrite String.eqb_refl in H. discriminate.
Qed.

(** The track [addText] adds its clip to, found again by its id. *)
Lemma addText_track (s : State.t) :
  let r :=
    match find (fun t => TrackType_eqb (Track.type t) TText) (State.tracks s) with
    | Some tr => (tr, s)
    | None => addTrack TText (Some "Text 1"%string) s
    end in
  (exists tr', find (Track.hasId (Track.id (fst r))) (State.tracks (snd r)) = Some tr') /\
  State.currentTime (snd r) = State.currentTime s /\
  State.duration (snd r) = State.duration s.
Proof.
  cbv zeta.
  destruct (find (fun t => TrackType_eqb (Track.type t) TText) (State.tracks s))
    as [tr|] eqn:F; cbn [fst snd].
  - split; [|split; reflexivity]. apply find_hasId_In. apply find_In in F. exact F.
  - unfold addTrack. cbn [generateId fst snd].
    rewrite snapshot_saveHistory_tracks. cbn [State.tracks State.with_tracks].
    split; [|split; unfold saveHistory; destruct (_ <? _)%nat; reflexivity].
    apply find_hasId_In. apply in_or_app. right. left. reflexivity.
Qed.

Lemma with_isSelected_same (c : Clip.t) :
  Clip.isSelected c = false -> Clip.with_isSelected false c = c.
Proof. destruct c. cbn. intros ->. reflexivity. Qed.

Lemma In_mapFirst {A : Type} (p : A -> bool) (f : A -> A) (l : list A) (a : A) :
  In a l -> In a (mapFirst p f l) \/ In (f a) (mapFirst p f l).
Proof.
  unfold mapFirst. induction l as [|x l IH]; simpl; [tauto|].
  intros [-> |H].
  - destruct (p a); simpl; auto.
  - destruct (p x); simpl; [auto|]. destruct (IH H); auto.
Qed.

(** [addText] puts a text clip on the first text track, which it makes when
    there is none, and selects it alone.  The clip starts at the playhead
    and carries the duration 3, but it ends at the end of the media when
    the media is set and ends earlier than that: the clip satisfies the time
    relation of clips exactly when no media length is set or the playhead is
    at least 3 seconds before the end of the media. *)
Theorem addText_clip_times (text : option string) (s : State.t) :
  exists c s',
    addText text s = (Some (Clip.id c), s') /\
    In c (allClips (State.tracks s')) /\
    State.selectedClipIds s' = [Clip.id c] /\
    Clip.startTime c = State.currentTime s /\
    Clip.endTime c
      = Qmin (State.currentTime s + 3)
          (orNum (Some (State.duration s)) (State.currentTime s + 3)) /\
    Clip.duration c = 3 /\
    (timed c <-> State.duration s == 0 \/ State.currentTime s + 3 <= State.duration s).
Proof.
  unfold addText. cbv zeta.
  pose proof (addText_track s) as T. cbv zeta in T.
  destruct (match find _ (State.tracks s) with Some tr => (tr, s) | None => _ end)
    as [textTrack s1]. cbn [fst snd] in T. destruct T as ((tr' & F) & Ect & Edur).
  unfold addClip. rewrite F. cbn [generateId fst snd].
  set (newId := ("clip" ++ "-" ++ State.entropy s1 (State.draws s1))%string).
  set (c := buildClip newId (Track.id textTrack) (Track.type tr')
              (addTextData (spread text defaultText) s1) (State.currentTime s1)).
  set (s2 := saveHistory _).
  assert (Hts : State.tracks s2 = pushClip (Track.id textTrack) c (State.tracks s1)).
  { unfold s2. rewrite snapshot_saveHistory_tracks, updateProjectDuration_tracks. reflexivity. }
  assert (Hin : In c (allClips (State.tracks s2))).
  { rewrite Hts. apply (In_pushClip _ _ _ tr'). exact F. }
  assert (Hfind : exists c0, getClipById (Clip.id c) s2 = Some c0).
  { unfold getClipById. rewrite findClip_allClips.
    destruct (find (Clip.hasId (Clip.id c)) (allClips (State.tracks s2))) eqn:X; [eauto|].
    exfalso. apply (find_none _ _ X) in Hin. unfold Clip.hasId in Hin.
    rewrite ClipId_eqb_refl in Hin. discriminate. }
  assert (Htimes :
    forall c', Clip.startTime c' = Clip.startTime c ->
               Clip.endTime c' = Clip.endTime c ->
               Clip.duration c' = Clip.duration c ->
      Clip.startTime c' = State.currentTime s /\
      Clip.endTime c'
        = Qmin (State.currentTime s + 3)
            (orNum (Some (State.duration s)) (State.currentTime s + 3)) /\
      Clip.duration c' = 3 /\
      (timed c' <-> State.duration s == 0 \/ State.currentTime s + 3 <= State.duration s)).
  { intros c' E1 E2 E3.
    assert (C1 : Clip.startTime c = State.currentTime s) by (rewrite <- Ect; reflexivity).
    assert (C2 : Clip.endTime c
                 = Qmin (State.currentTime s + 3)
                     (orNum (Some (State.duration s)) (State.currentTime s + 3)))
      by (rewrite <- Ect, <- Edur; reflexivity).
    assert (C3 : Clip.duration c = 3) by reflexivity.
    unfold timed. rewrite E1, E2, E3, C1, C2, C3. clear E1 E2 E3 C1 C2 C3.
    split; [reflexivity|]. split; [reflexivity|]. split; [reflexivity|].
    unfold orNum. destruct (Qeq_bool (State.duration s) 0) eqn:Z.
    - apply Qeq_bool_iff in Z.
      destruct (Q.min_spec (State.currentTime s + 3) (State.currentTime s + 3))
        as [[_ M]|[_ M]]; rewrite M; split; auto; intros _; split; lra.
    - assert (Hnz : ~ State.duration s == 0).
      { intro E. apply Qeq_bool_iff in E. congruence. }
      destruct (Q.min_spec (State.currentTime s + 3) (State.duration s)) as [[M' M]|[M' M]];
        rewrite M; split.
      + intros _. right. lra.
      + intros _. split; lra.
      + intros [H1 H2]. right. lra.
      + intros [H|H]; [contradiction|]. split; lra. }
  assert (Hflag : Clip.isSelected c = false) by reflexivity.
  destruct Hfind as [c0 Hc0].
  assert (Hsel : selectClip (Clip.id c) false s2
                 = State.with_selectedClipIds [Clip.id c]
                     (State.with_tracks
                        (modifyClip (Clip.id c) (Clip.with_isSelected true)
                           (mapClips (Clip.with_isSelected false) (State.tracks s2))) s2)).
  { unfold selectClip.
    assert (G : exists c1,
               getClipById (Clip.id c)
                 (State.with_selectedClipIds []
                    (State.with_tracks
                       (mapClips (Clip.with_isSelected false) (State.tracks s2)) s2))
               = Some c1).
    { unfold getClipById. cbn [State.tracks State.with_tracks State.with_selectedClipIds].
      rewrite findClip_allClips, allClips_mapClips.
      destruct (find _ (map _ _)) eqn:X; [eauto|].
      exfalso. apply (in_map (Clip.with_isSelected false)) in Hin.
      apply (find_none _ _ X) in Hin.
      change (ClipId_eqb (Clip.id c) (Clip.id c) = false) in Hin.
      rewrite ClipId_eqb_refl in Hin. discriminate. }
    destruct G as [c1 G]. rewrite G. reflexivity. }
  assert (Hin' : In c (allClips (mapClips (Clip.with_isSelected false) (State.tracks s2)))).
  { rewrite allClips_mapClips. rewrite <- (with_isSelected_same c Hflag).
    apply in_map. exact Hin. }
  destruct (In_mapFirst (Clip.hasId (Clip.id c)) (Clip.with_isSelected true) _ c Hin')
    as [H|H].
  - exists c. eexists. split; [reflexivity|].
    rewrite Hsel. cbn [State.tracks State.selectedClipIds State.with_tracks
                       State.with_selectedClipIds].
    rewrite allClips_modify. split; [exact H|]. split; [reflexivity|].
    apply Htimes; reflexivity.
  - exists (Clip.with_isSelected true c). eexists. split; [reflexivity|].
    rewrite Hsel. cbn [State.tracks State.selectedClipIds State.with_tracks
                       State.with_selectedClipIds].
    rewrite allClips_modify. split; [exact H|]. split; [reflexivity|].
    apply Htimes; reflexivity.
Qed.

(** On a valid store, [updateTextTiming] of a clip that exists keeps the
    store valid exactly when the new span is a span: [0 <= startTime <
    endTime].  It checks neither, and writes what it is given. *)
Theorem updateTextTiming_valid_iff (cid : ClipId) (a b : Q) (s : State.t) (c : Clip.t) :
  validStore s ->
  getClipById cid s = Some c ->
  (validStore (updateTextTiming cid a b s) <-> 0 <= a /\ a < b).
Proof.
  intros Hv Hc. unfold updateTextTiming. split.
  - intros (_ & H & _). unfold updateClip in H. rewrite Hc in H.
    rewrite updateProjectDuration_tracks in H. cbn [State.tracks State.with_tracks] in H.
    unfold getClipById in Hc.
    destruct (findClip_located _ _ _ Hc) as (before & tr & after & pre & post & L).
    rewrite (located_modify cid _ before tr after pre c post _ L) in H.
    assert (Hin : In (PartialClip.assign (timingData a b) c)
                    (allClips (relocated before tr after pre
                                 [PartialClip.assign (timingData a b) c] post))).
    { apply In_relocated. left. reflexivity. }
    destruct (validTracks_In _ _ H Hin) as (H0 & H1 & _). cbn in H0, H1. split; assumption.
  - intros [H0 H1]. apply valid_updateClip; [exact Hv|].
    intros c' _. unfold validClip, timed. cbn. repeat split; try assumption; lra.
Qed.

Lemma updateTextTiming_valid_iff_witness :
  validStore (updateTextTiming (Some "clip-1"%string) 2 6 storeA) /\
  ~ validStore (updateTextTiming (Some "clip-1"%string) 6 2 storeA).
Proof.
  split.
  - apply (updateTextTiming_valid_iff (Some "clip-1"%string) 2 6 storeA clipA
             validStore_storeA); [vm_compute; reflexivity|].
    split; [discriminate|reflexivity].
  - intro H.
    apply (updateTextTiming_valid_iff (Some "clip-1"%string) 6 2 storeA clipA
             validStore_storeA) in H; [|vm_compute; reflexivity].
    destruct H as [_ H]. vm_compute in H. discriminate H.
Defined.

(** ** [splitSelectedClipsAtPlayhead] *)

Lemma splitClip_frame (cid : ClipId) (m : Q) (s : State.t) :
  State.selectedClipIds (snd (splitClip cid m s)) = State.selectedClipIds s /\
  State.currentTime (snd (splitClip cid m s)) = State.currentTime s.
Proof.
  unfold splitClip. destruct (getClipById _ _); [|split; reflexivity].
  destruct (getTrackByClipId _ _); [|split; reflexivity].
  destruct (_ || _); [split; reflexivity|]. cbn [generateId snd].
  unfold saveHistory. destruct (_ <? _)%nat; split; reflexivity.
Qed.

(** [splitSelectedClipsAtPlayhead] keeps a valid store valid and writes
    neither the selection nor the playhead: the new second halves are not
    selected.  When the playhead is strictly inside no selected clip, it
    changes nothing. *)
Theorem splitSelectedClipsAtPlayhead_keeps_store (s : State.t) :
  validStore s ->
  validStore (splitSelectedClipsAtPlayhead s) /\
  State.selectedClipIds (splitSelectedClipsAtPlayhead s) = State.selectedClipIds s /\
  State.currentTime (splitSelectedClipsAtPlayhead s) = State.currentTime s /\
  ((forall c, In c (selectedClips s) ->
              ~ (Clip.startTime c < State.currentTime s /\ State.currentTime s < Clip.endTime c)) ->
   splitSelectedClipsAtPlayhead s = s).
Proof.
  intro Hv. unfold splitSelectedClipsAtPlayhead.
  assert (G : forall l st, validStore st ->
            validStore (fold_left (fun st clip =>
                          snd (splitClip (Clip.id clip) (State.currentTime st) st)) l st) /\
            State.selectedClipIds (fold_left (fun st clip =>
                          snd (splitClip (Clip.id clip) (State.currentTime st) st)) l st)
              = State.selectedClipIds st /\
            State.currentTime (fold_left (fun st clip =>
                          snd (splitClip (Clip.id clip) (State.currentTime st) st)) l st)
              = State.currentTime st).
  { induction l as [|c l IH]; intros st H; simpl; [auto|].
    destruct (IH _ (valid_splitClip (Clip.id c) (State.currentTime st) st H)) as (I1 & I2 & I3).
    destruct (splitClip_frame (Clip.id c) (State.currentTime st) st) as [F1 F2].
    split; [exact I1|]. split; congruence. }
  destruct (G (clipsToSplit s) s Hv) as (G1 & G2 & G3).
  split; [exact G1|]. split; [exact G2|]. split; [exact G3|].
  intro H. assert (E : clipsToSplit s = []).
  { unfold clipsToSplit. destruct (filter _ _) as [|c l] eqn:F; [reflexivity|].
    assert (Hin : In c (c :: l)) by (left; reflexivity).
    rewrite <- F in Hin. apply filter_In in Hin. destruct Hin as [Hin Hc].
    apply andb_true_iff in Hc. destruct Hc as [H1 H2].
    apply Qlt_bool_iff in H1, H2. exfalso. apply (H c Hin). split; assumption. }
  rewrite E. reflexivity.
Qed.

Lemma splitSelectedClipsAtPlayhead_keeps_store_witness :
  let s := updateTime 22 (selectAllClips storeB) in
  validStore (splitSelectedClipsAtPlayhead s) /\
  State.selectedClipIds (splitSelectedClipsAtPlayhead s) = State.selectedClipIds s /\
  clipSpans (splitSelectedClipsAtPlayhead s)
    = [(Some "clip-1"%string, 0, 10); (Some "clip-2"%string, 20, 22);
       (Some "clip-3"%string, 22, 25)].
Proof.
  cbv zeta.
  destruct (splitSelectedClipsAtPlayhead_keeps_store (updateTime 22 (selectAllClips storeB)))
    as (H1 & H2 & _).
  - apply valid_updateTime; [|lra]. apply valid_selectAllClips.
    unfold storeB. apply valid_exec; [apply validStore_storeA|].
    apply guard_addClip_videoSpan; lra.
  - split; [exact H1|]. split; [exact H2|]. vm_compute. reflexivity.
Defined.

(** ** [reorderTracks] *)

Lemma removeAt_perm {A : Type} (n : nat) (l : list A) (x : A) :
  nth_error l n = Some x ->
  Permutation (x :: removeAt n l) l /\ S (List.length (removeAt n l)) = List.length l.
Proof.
  revert n. induction l as [|a l IH]; intros [|n] H; simpl in *; try discriminate.
  - injection H as ->. split; [apply Permutation_refl|reflexivity].
  - destruct (IH n H) as [P L]. split; [|rewrite L; reflexivity].
    apply perm_trans with (a :: x :: removeAt n l); [apply perm_swap|apply perm_skip, P].
Qed.

Lemma insertAt_perm {A : Type} (n : nat) (a : A) (l : list A) :
  Permutation (insertAt n a l) (a :: l).
Proof.
  unfold insertAt. apply Permutation_sym.
  rewrite <- (firstn_skipn n l) at 1. apply Permutation_middle.
Qed.

Lemma renumberFrom_facts (ts : list Track.t) :
  forall i,
    map unordered (renumberFrom i ts) = map unordered ts /\
    map Track.order (renumberFrom i ts) = map Z.of_nat (seq i (List.length ts)) /\
    allClips (renumberFrom i ts) = allClips ts.
Proof.
  induction ts as [|t ts IH]; intro i; simpl; [auto|].
  destruct (IH (S i)) as (H1 & H2 & H3). unfold allClips in *. simpl.
  rewrite H1, H2, H3. auto.
Qed.

(** [reorderTracks] with a source index that points at a track (the tracks
    are not empty and the index is below their number; an index below zero
    counts from the end) moves that track and loses none: the tracks are
    the same afterwards up to their order, with the same clips, they are
    numbered from 0 in their new order, and the step is one committed edit.
    With any other source index the call throws. *)
Theorem reorderTracks_permutes (fromIndex toIndex : Z) (s : State.t) :
  (State.tracks s <> [] /\ (fromIndex < Z.of_nat (List.length (State.tracks s)))%Z ->
   exists s',
     reorderTracks fromIndex toIndex s = Some s' /\
     Permutation (map unordered (State.tracks s')) (map unordered (State.tracks s)) /\
     Permutation (allClips (State.tracks s')) (allClips (State.tracks s)) /\
     map Track.order (State.tracks s')
       = map Z.of_nat (seq 0 (List.length (State.tracks s))) /\
     commits s s') /\
  (~ (State.tracks s <> [] /\ (fromIndex < Z.of_nat (List.length (State.tracks s)))%Z) ->
   reorderTracks fromIndex toIndex s = None).
Proof.
  unfold reorderTracks. cbv zeta.
  set (len := List.length (State.tracks s)).
  set (from := spliceStart len fromIndex).
  split.
  - intros [Hne Hlt].
    assert (Hlen : (0 < len)%nat).
    { unfold len. destruct (State.tracks s); [contradiction|simpl; lia]. }
    assert (Hfrom : (from < len)%nat).
    { unfold from, spliceStart. destruct (fromIndex <? 0)%Z eqn:E.
      - apply Z.ltb_lt in E. lia.
      - apply Z.ltb_ge in E. lia. }
    destruct (nth_error (State.tracks s) from) as [track|] eqn:N;
      [|apply nth_error_None in N; fold len in N; lia].
    destruct (removeAt_perm from (State.tracks s) track N) as [P L].
    eexists. split; [reflexivity|].
    rewrite snapshot_saveHistory_tracks. cbn [State.tracks State.with_tracks].
    set (to := spliceStart _ toIndex).
    destruct (renumberFrom_facts (insertAt to track (removeAt from (State.tracks s))) 0)
      as (R1 & R2 & R3).
    assert (Q : Permutation (insertAt to track (removeAt from (State.tracks s)))
                  (State.tracks s)).
    { apply perm_trans with (track :: removeAt from (State.tracks s));
        [apply insertAt_perm|exact P]. }
    split; [rewrite R1; apply Permutation_map, Q|].
    split; [rewrite R3; unfold allClips; apply Permutation_flat_map, Q|].
    split.
    + rewrite R2. f_equal. f_equal. rewrite (Permutation_length Q). reflexivity.
    + apply commits_saveHistory; reflexivity.
  - intro H.
    destruct (nth_error (State.tracks s) from) as [track|] eqn:N; [|reflexivity].
    exfalso. apply H.
    assert (Hfrom : (from < len)%nat) by (apply nth_error_Some; congruence).
    split.
    + intro E. unfold len in Hfrom. rewrite E in Hfrom. simpl in Hfrom. lia.
    + unfold from, spliceStart in Hfrom. destruct (fromIndex <? 0)%Z eqn:E.
      * apply Z.ltb_lt in E. lia.
      * apply Z.ltb_ge in E. lia.
Qed.

Lemma reorderTracks_permutes_witness :
  let s := snd (addTrack TAudio None (snd (addTrack TText None storeB))) in
  (exists s',
     reorderTracks 2 0 s = Some s' /\
     map Track.type (State.tracks s') = [TAudio; TVideo; TText] /\
     map Track.order (State.tracks s') = [0; 1; 2]%Z) /\
  reorderTracks 3 0 s = None /\
  reorderTracks 0 0 initialStore = None.
Proof.
  cbv zeta. split; [|split].
  - destruct (proj1 (reorderTracks_permutes 2 0
                       (snd (addTrack TAudio None (snd (addTrack TText None storeB))))))
      as (s' & E & _ & _ & O & _).
    + split; [vm_compute; discriminate|vm_compute; reflexivity].
    + exists s'. split; [exact E|]. split; [|exact O].
      vm_compute in E. injection E as <-. reflexivity.
  - apply (proj2 (reorderTracks_permutes 3 0
                    (snd (addTrack TAudio None (snd (addTrack TText None storeB)))))).
    intros [_ H]. vm_compute in H. discriminate H.
  - apply (proj2 (reorderTracks_permutes 0 0 initialStore)).
    intros [H _]. apply H. reflexivity.
Defined.

(** ** Loading a video *)

Lemma addTrack_tracks (ty : TrackType) (name : option string) (s : State.t) :
  State.tracks (snd (addTrack ty name s)) = (State.tracks s ++ [fst (addTrack ty name s)])%list /\
  Track.type (fst (addTrack ty name s)) = ty /\
  Track.clips (fst (addTrack ty name s)) = [].
Proof.
  unfold addTrack. cbn [generateId fst snd]. rewrite snapshot_saveHistory_tracks.
  split; [reflexivity|]. split; reflexivity.
Qed.

Lemma ensureTrack_facts (ty : TrackType) (name : string) (s : State.t) :
  hasTrackOfType ty (ensureTrack ty name s) = true /\
  (forall ty', hasTrackOfType ty' s = true -> hasTrackOfType ty' (ensureTrack ty name s) = true) /\
  (hasTrackOfType ty s = true -> ensureTrack ty name s = s) /\
  exists added, State.tracks (ensureTrack ty name s) = (State.tracks s ++ added)%list.
Proof.
  unfold ensureTrack. destruct (hasTrackOfType ty s) eqn:E; cbn [negb].
  - split; [exact E|]. split; [auto|]. split; [reflexivity|].
    exists []. rewrite app_nil_r. reflexivity.
  - destruct (addTrack_tracks ty (Some name) s) as (T1 & T2 & _).
    unfold hasTrackOfType in *. rewrite T1.
    split; [|split; [|split]].
    + rewrite existsb_app. cbn [existsb]. rewrite T2.
      destruct ty; cbn [TrackType_eqb orb]; rewrite orb_true_r; reflexivity.
    + intros ty' H. rewrite existsb_app, H. reflexivity.
    + discriminate.
    + eexists. reflexivity.
Qed.

(** After [setVideoFile] the store has a track of each type; the tracks it
    had are still there, in their places, with what was missing added
    behind them.  A second call adds no track: the store is the one the
    first call left, whatever the second file is. *)
Theorem setVideoFile_makes_tracks_once (fileName url fileName2 url2 : string)
    (st : Media.t * State.t) :
  let st1 := setVideoFile fileName url st in
  (forall ty, hasTrackOfType ty (snd st1) = true) /\
  (exists added, State.tracks (snd st1) = (State.tracks (snd st) ++ added)%list) /\
  snd (setVideoFile fileName2 url2 st1) = snd st1 /\
  Media.videoUrl (fst (setVideoFile fileName2 url2 st1)) = url2.
Proof.
  cbv zeta. destruct st as [m s]. unfold setVideoFile. cbn [fst snd].
  set (s1 := ensureTrack TVideo "Video 1" s).
  set (s2 := ensureTrack TAudio "Audio 1" s1).
  set (s3 := ensureTrack TText "Text 1" s2).
  destruct (ensureTrack_facts TVideo "Video 1" s) as (V1 & _ & _ & (a1 & A1)).
  destruct (ensureTrack_facts TAudio "Audio 1" s1) as (V2 & K2 & _ & (a2 & A2)).
  destruct (ensureTrack_facts TText "Text 1" s2) as (V3 & K3 & _ & (a3 & A3)).
  fold s1 in V1, A1, K2. fold s2 in V2, A2, K3. fold s3 in V3, A3.
  assert (Hall : forall ty, hasTrackOfType ty s3 = true).
  { intros [| |]; [apply K3, K2, V1|apply K3, V2|exact V3]. }
  split; [exact Hall|]. split.
  - exists (a1 ++ a2 ++ a3)%list. rewrite A3, A2, A1, <- !app_assoc. reflexivity.
  - split; [|reflexivity].
    rewrite (proj1 (proj2 (proj2 (ensureTrack_facts TVideo "Video 1" s3))) (Hall TVideo)).
    rewrite (proj1 (proj2 (proj2 (ensureTrack_facts TAudio "Audio 1" s3))) (Hall TAudio)).
    rewrite (proj1 (proj2 (proj2 (ensureTrack_facts TText "Text 1" s3))) (Hall TText)).
    reflexivity.
Qed.

Lemma reset_tracks (st : Media.t * State.t) : State.tracks (snd (reset st)) = [].
Proof. destruct st. reflexivity. Qed.

Lemma ensureTrack_new (ty : TrackType) (name : string) (s : State.t) :
  hasTrackOfType ty s = false ->
  State.tracks (ensureTrack ty name s)
  = (State.tracks s ++ [fst (addTrack ty (Some name) s)])%list.
Proof.
  intro H. unfold ensureTrack. rewrite H. apply addTrack_tracks.
Qed.

Lemma ensureTrack_new_frame (ty : TrackType) (name : string) (s : State.t) :
  hasTrackOfType ty s = false ->
  State.draws (ensureTrack ty name s) = S (State.draws s) /\
  State.entropy (ensureTrack ty name s) = State.entropy s /\
  State.currentTime (ensureTrack ty name s) = State.currentTime s.
Proof.
  intro H. unfold ensureTrack. rewrite H. cbn [negb]. unfold addTrack.
  cbn [generateId snd]. unfold saveHistory. destruct (_ <? _)%nat; cbn; auto.
Qed.

(** The main clip of the video is made once.  After [reset], [setVideoFile]
    with a URL that is not empty and [setDuration] leave a video, an audio
    and a text track, and one clip: the video clip of the file, from 0 to
    the duration of the media.  Loading a second file afterwards changes no
    track and no clip: the second file gets no clip, and the clip of the
    first one keeps its length and its source, while the media URL and the
    length of the timeline are those of the second file. *)
Theorem main_clip_is_made_once (st : Media.t * State.t)
    (fileName url fileName2 url2 : string) (dur dur2 : Q) :
  url <> EmptyString ->
  let st1 := setDuration dur (setVideoFile fileName url (reset st)) in
  let st2 := setDuration dur2 (setVideoFile fileName2 url2 st1) in
  map Track.type (State.tracks (snd st1)) = [TVideo; TAudio; TText] /\
  (exists c,
     allClips (State.tracks (snd st1)) = [c] /\
     Clip.startTime c = 0 /\ Clip.endTime c = dur /\ Clip.duration c = dur /\
     Clip.sourceStartTime c = 0 /\
     exists p, Clip.props c = PVideo p /\ VideoProps.src p = url /\
               VideoProps.fileName p = orStr (Some fileName) "video" /\
               VideoProps.originalDuration p = dur) /\
  State.tracks (snd st2) = State.tracks (snd st1) /\
  State.duration (snd st2) = dur2 /\
  Media.videoUrl (fst st2) = url2 /\
  Media.videoUrl (fst st1) = url.
Proof.
  intro Hu. cbv zeta.
  assert (Hnu : String.eqb url EmptyString = false).
  { destruct (String.eqb url EmptyString) eqn:E; [|reflexivity].
    apply String.eqb_eq in E. contradiction. }
  assert (E1 : exists m1 sA v a t c,
             setDuration dur (setVideoFile fileName url (reset st)) = (m1, sA) /\
             State.tracks sA = [Track.with_clips [c] v; a; t] /\
             Track.type v = TVideo /\
             (Track.type a = TAudio /\ Track.clips a = []) /\
             (Track.type t = TText /\ Track.clips t = []) /\
             c = buildClip ("clip" ++ "-"
                            ++ State.entropy (snd (reset st)) (3 + State.draws (snd (reset st))))
                   (Track.id v) TVideo
                   (mainClipData (Media.mk (Some fileName) url false) dur) 0 /\
             Media.videoUrl m1 = url).
  { pose proof (reset_tracks st) as R0.
    assert (Rm : fst (reset st) = Media.mk None "" false) by (destruct st; reflexivity).
    assert (Rt : State.currentTime (snd (reset st)) = 0) by (destruct st; reflexivity).
    destruct (reset st) as [m0 s0]. cbn [fst snd] in *. subst m0.
    unfold setVideoFile. cbn [Media.videoElement].
    set (s1 := ensureTrack TVideo "Video 1" s0).
    set (s2 := ensureTrack TAudio "Audio 1" s1).
    set (s3 := ensureTrack TText "Text 1" s2).
    set (m1 := Media.mk (Some fileName) url false).
    assert (N1 : hasTrackOfType TVideo s0 = false)
      by (unfold hasTrackOfType; rewrite R0; reflexivity).
    assert (T1 : State.tracks s1 = [fst (addTrack TVideo (Some "Video 1"%string) s0)]).
    { unfold s1. rewrite ensureTrack_new; [rewrite R0; reflexivity|exact N1]. }
    assert (N2 : hasTrackOfType TAudio s1 = false)
      by (unfold hasTrackOfType; rewrite T1; reflexivity).
    assert (T2 : State.tracks s2
                 = [fst (addTrack TVideo (Some "Video 1"%string) s0);
                    fst (addTrack TAudio (Some "Audio 1"%string) s1)]).
    { unfold s2. rewrite ensureTrack_new; [rewrite T1; reflexivity|exact N2]. }
    assert (N3 : hasTrackOfType TText s2 = false)
      by (unfold hasTrackOfType; rewrite T2; reflexivity).
    assert (T3 : State.tracks s3
                 = [fst (addTrack TVideo (Some "Video 1"%string) s0);
                    fst (addTrack TAudio (Some "Audio 1"%string) s1);
                    fst (addTrack TText (Some "Text 1"%string) s2)]).
    { unfold s3. rewrite ensureTrack_new; [rewrite T2; reflexivity|exact N3]. }
    assert (D3 : State.draws s3 = (3 + State.draws s0)%nat /\
                 State.entropy s3 = State.entropy s0 /\
                 State.currentTime s3 = State.currentTime s0).
    { destruct (ensureTrack_new_frame TVideo "Video 1" s0 N1) as (F1 & F2 & F3).
      destruct (ensureTrack_new_frame TAudio "Audio 1" s1 N2) as (G1 & G2 & G3).
      destruct (ensureTrack_new_frame TText "Text 1" s2 N3) as (I1 & I2 & I3).
      fold s1 in F1, F2, F3, G1, G2, G3. fold s2 in G1, G2, G3, I1, I2, I3.
      fold s3 in I1, I2, I3.
      split; [rewrite I1, G1, F1; reflexivity|]. split; congruence. }
    destruct D3 as (D3 & D4 & D5).
    set (v := fst (addTrack TVideo (Some "Video 1"%string) s0)) in *.
    set (a := fst (addTrack TAudio (Some "Audio 1"%string) s1)) in *.
    set (t := fst (addTrack TText (Some "Text 1"%string) s2)) in *.
    assert (Hv : Track.type v = TVideo /\ Track.clips v = []) by (split; reflexivity).
    assert (Ha : Track.type a = TAudio /\ Track.clips a = []) by (split; reflexivity).
    assert (Ht : Track.type t = TText /\ Track.clips t = []) by (split; reflexivity).
    clearbody v a t. destruct Hv as [Hv1 Hv2].
    unfold setDuration. cbn [State.tracks State.with_duration].
    rewrite T3. cbn [find]. rewrite Hv1. cbn [TrackType_eqb]. rewrite Hv2.
    cbn [List.length Nat.eqb andb]. unfold m1 at 1. cbn [Media.videoUrl]. rewrite Hnu.
    cbn [negb]. unfold addClip. cbn [State.tracks State.with_duration]. rewrite T3.
    cbn [find]. unfold Track.hasId at 1. rewrite String.eqb_refl.
    cbn [generateId fst snd].
    eexists. eexists. exists v, a, t. eexists.
    split; [reflexivity|].
    split.
    { rewrite snapshot_saveHistory_tracks, updateProjectDuration_tracks.
      cbn [State.tracks State.with_tracks State.with_draws State.with_duration].
      rewrite T3. unfold pushClip, mapFirst. cbn [substFirst].
      unfold Track.hasId at 1. rewrite String.eqb_refl. rewrite Hv2. reflexivity. }
    split; [exact Hv1|]. split; [exact Ha|]. split; [exact Ht|].
    split; [|reflexivity].
    cbn [State.entropy State.draws State.currentTime State.with_duration].
    rewrite Hv1, D3, D4, D5, Rt. reflexivity. }
  destruct E1 as (m1 & sA & v & a & t & c & E1 & TA & Hv1 & (Ha1 & Ha2) & (Ht1 & Ht2) & Ec & Em).
  rewrite E1. cbn [fst snd].
  split; [rewrite TA; cbn [map Track.type Track.with_clips]; rewrite Hv1, Ha1, Ht1; reflexivity|].
  split.
  { exists c. split.
    - rewrite TA. unfold allClips. cbn [flat_map Track.clips Track.with_clips].
      rewrite Ha2, Ht2. reflexivity.
    - rewrite Ec. unfold buildClip. cbn.
      repeat split; try reflexivity. eexists. split; [reflexivity|].
      cbn. repeat split; reflexivity. }
  (* the second load *)
  assert (Hall : forall ty, hasTrackOfType ty sA = true).
  { unfold hasTrackOfType. rewrite TA. intros [| |];
      cbn [existsb Track.type Track.with_clips]; rewrite ?Hv1, ?Ha1, ?Ht1; cbn; reflexivity. }
  unfold setVideoFile. cbn [fst snd].
  rewrite (proj1 (proj2 (proj2 (ensureTrack_facts TVideo "Video 1" sA))) (Hall TVideo)).
  rewrite (proj1 (proj2 (proj2 (ensureTrack_facts TAudio "Audio 1" sA))) (Hall TAudio)).
  rewrite (proj1 (proj2 (proj2 (ensureTrack_facts TText "Text 1" sA))) (Hall TText)).
  unfold setDuration. cbn [State.tracks State.with_duration]. rewrite TA.
  cbn [find Track.type Track.with_clips]. rewrite Hv1.
  cbn [TrackType_eqb Track.clips Track.with_clips List.length Nat.eqb andb fst snd
       State.tracks State.duration State.with_duration Media.videoUrl].
  rewrite TA. repeat split; try reflexivity. exact Em.
Qed.

Lemma main_clip_is_made_once_witness :
  let st := (Media.mk None "" false, storeC) in
  let st1 := setDuration 12 (setVideoFile "a.mp4" "blob:1" (reset st)) in
  let st2 := setDuration 30 (setVideoFile "b.mp4" "blob:2" st1) in
  map Track.type (State.tracks (snd st1)) = [TVideo; TAudio; TText] /\
  State.tracks (snd st2) = State.tracks (snd st1) /\
  State.duration (snd st2) = 30 /\
  clipSpans (snd st2) = [(Some "clip-6"%string, 0, 12)].
Proof.
  cbv zeta.
  destruct (main_clip_is_made_once (Media.mk None "" false, storeC)
              "a.mp4" "blob:1" "b.mp4" "blob:2" 12 30) as (H1 & _ & H3 & H4 & _).
  - discriminate.
  - split; [exact H1|]. split; [exact H3|]. split; [exact H4|]. vm_compute. reflexivity.
Defined.

(** ** The clipboard *)

Lemma shape_mapFirst (p : Track.t -> bool) (g : Track.t -> Track.t) (ts : list Track.t) :
  (forall t, Track.id (g t) = Track.id t /\ Track.type (g t) = Track.type t /\
             Track.isLocked (g t) = Track.isLocked t) ->
  shape (mapFirst p g ts) = shape ts.
Proof.
  intro Hg. unfold shape, mapFirst. induction ts as [|t ts IH]; simpl; [reflexivity|].
  destruct (p t); simpl.
  - destruct (Hg t) as (-> & -> & ->). reflexivity.
  - rewrite IH. reflexivity.
Qed.

Lemma addClip_shape (tid : string) (clipData : PartialClip.t) (s : State.t) :
  shape (State.tracks (snd (addClip tid clipData s))) = shape (State.tracks s) /\
  State.currentTime (snd (addClip tid clipData s)) = State.currentTime s /\
  forall c0, In c0 (allClips (State.tracks s)) ->
             In c0 (allClips (State.tracks (snd (addClip tid clipData s)))).
Proof.
  unfold addClip. destruct (find (Track.hasId tid) (State.tracks s)) as [tr|] eqn:F;
    [|cbn [snd]; auto].
  cbn [generateId snd].
  rewrite snapshot_saveHistory_tracks, updateProjectDuration_tracks.
  cbn [State.tracks State.with_tracks State.with_draws].
  split; [|split].
  - unfold pushClip. apply shape_mapFirst. intro t. repeat split; reflexivity.
  - unfold saveHistory, updateProjectDuration.
    destruct (_ <? _)%nat; destruct (Qlt_bool _ _); reflexivity.
  - intros c0 H0.
    match goal with |- In c0 (allClips (pushClip tid ?c _)) =>
      destruct (allClips_pushClip tid c _ tr F) as (l1 & l2 & E1 & E2) end.
    rewrite E2. rewrite E1 in H0. apply in_app_or in H0. apply in_or_app.
    destruct H0; [left|right; right]; assumption.
Qed.

Lemma find_type_shape (ty : TrackType) (ts ts' : list Track.t) (tr : Track.t) :
  shape ts' = shape ts ->
  find (fun t => TrackType_eqb (Track.type t) ty) ts = Some tr ->
  exists tr', find (fun t => TrackType_eqb (Track.type t) ty) ts' = Some tr' /\
              Track.id tr' = Track.id tr /\ Track.isLocked tr' = Track.isLocked tr.
Proof.
  revert ts'. induction ts as [|t ts IH]; intros [|t' ts'] E H; simpl in *; try discriminate.
  injection E as E1 E2 E3 E4. rewrite E2.
  destruct (TrackType_eqb (Track.type t) ty).
  - injection H as <-. exists t'. auto.
  - apply IH; assumption.
Qed.

Lemma pasteOne_keeps (pasteTime minStartTime : Q) (st : State.t) (c : Clip.t) :
  shape (State.tracks (pasteOne pasteTime minStartTime st c)) = shape (State.tracks st) /\
  State.currentTime (pasteOne pasteTime minStartTime st c) = State.currentTime st /\
  forall c0, In c0 (allClips (State.tracks st)) ->
             In c0 (allClips (State.tracks (pasteOne pasteTime minStartTime st c))).
Proof.
  unfold pasteOne. destruct (find _ _); [|auto]. destruct (negb _); [|auto].
  apply addClip_shape.
Qed.

Lemma paste_fold_keeps (pasteTime minStartTime : Q) (l : list Clip.t) :
  forall st,
    shape (State.tracks (fold_left (pasteOne pasteTime minStartTime) l st))
      = shape (State.tracks st) /\
    forall c0, In c0 (allClips (State.tracks st)) ->
               In c0 (allClips (State.tracks (fold_left (pasteOne pasteTime minStartTime) l st))).
Proof.
  induction l as [|c l IH]; intro st; simpl; [auto|].
  destruct (pasteOne_keeps pasteTime minStartTime st c) as (K1 & _ & K3).
  destruct (IH (pasteOne pasteTime minStartTime st c)) as (I1 & I2).
  split; [congruence|]. intros c0 H0. apply I2, K3, H0.
Qed.

(** [pasteClips] keeps the layout of what was copied.  For every clip of
    the clipboard whose target, the first track of its type, is not locked,
    the tracks hold a copy afterwards that starts as far behind the
    playhead as the clip started behind the earliest clip of the clipboard,
    has the length its [duration] gives and is not selected; the clips that
    were on the tracks are still there.  The copy carries the [trackId] of
    the original, also when its target is another track, and its id is
    [undefined]. *)
Theorem pasteClips_keeps_layout (s : State.t) (c : Clip.t) (tr : Track.t) :
  In c (State.clipboard s) ->
  pasteTarget c s = Some tr ->
  Track.isLocked tr = false ->
  (exists c',
     In c' (allClips (State.tracks (pasteClips s))) /\
     Clip.startTime c'
       = State.currentTime s
         + (Clip.startTime c - minOf (map Clip.startTime (State.clipboard s))) /\
     State.currentTime s <= Clip.startTime c' /\
     Clip.endTime c' = Clip.startTime c' + Clip.duration c /\
     Clip.duration c' = Clip.duration c /\
     Clip.isSelected c' = false /\
     Clip.trackId c' = Clip.trackId c /\
     Clip.id c' = None) /\
  (forall c0, In c0 (allClips (State.tracks s)) ->
              In c0 (allClips (State.tracks (pasteClips s)))).
Proof.
  intros Hin Ht Hl. unfold pasteClips.
  destruct (State.clipboard s) as [|c1 cb] eqn:Ecb; [contradiction|].
  rewrite <- Ecb in *. clear c1 cb Ecb.
  set (pt := State.currentTime s). set (mn := minOf (map Clip.startTime (State.clipboard s))).
  assert (Hmn : mn <= Clip.startTime c).
  { unfold mn. apply minOf_le. apply in_map. exact Hin. }
  split; [|apply paste_fold_keeps].
  assert (G : forall l st,
            shape (State.tracks st) = shape (State.tracks s) ->
            In c l ->
            exists c',
              In c' (allClips (State.tracks (fold_left (pasteOne pt mn) l st))) /\
              Clip.startTime c' = pt + (Clip.startTime c - mn) /\
              Clip.endTime c' = Clip.startTime c' + Clip.duration c /\
              Clip.duration c' = Clip.duration c /\
              Clip.isSelected c' = false /\
              Clip.trackId c' = Clip.trackId c /\
              Clip.id c' = None).
  { induction l as [|x l IH]; intros st Hs Hx; [contradiction|]. simpl.
    destruct (pasteOne_keeps pt mn st x) as (K1 & _ & _).
    destruct Hx as [-> |Hx]; [|apply IH; [congruence|exact Hx]].
    unfold pasteTarget in Ht.
    destruct (find_type_shape (Clip.type c) (State.tracks s) (State.tracks st) tr Hs Ht)
      as (tr' & F' & Hid & Hlock).
    assert (E : exists newId ty,
               In (buildClip newId (Track.id tr') ty (pasteData pt mn c) (State.currentTime st))
                  (allClips (State.tracks (pasteOne pt mn st c)))).
    { unfold pasteOne. rewrite F', Hlock, Hl. cbn [negb].
      destruct (find_hasId_In tr' (State.tracks st) (find_In _ _ _ F')) as [tr2 F2].
      unfold addClip. rewrite F2. cbn [generateId snd].
      rewrite snapshot_saveHistory_tracks, updateProjectDuration_tracks.
      cbn [State.tracks State.with_tracks State.with_draws].
      eexists. eexists. apply (In_pushClip _ _ _ tr2). exact F2. }
    destruct E as (newId & ty & E).
    eexists. split; [apply paste_fold_keeps; exact E|].
    repeat split; reflexivity. }
  destruct (G (State.clipboard s) s eq_refl Hin) as (c' & H1 & H2 & H3 & H4 & H5 & H6 & H7).
  exists c'. split; [exact H1|]. split; [exact H2|].
  split; [rewrite H2; unfold pt; lra|]. auto.
Qed.

Lemma pasteClips_keeps_layout_witness :
  exists c',
    In c' (allClips (State.tracks (pasteClips storeP))) /\
    Clip.startTime c' == 13 /\ Clip.endTime c' == 16 /\ Clip.id c' = None.
Proof.
  destruct (pasteClips_keeps_layout storeP
              (Clip.with_isSelected true (buildClip "clip-2" "track-0" TVideo (videoSpan 5 8) 0))
              (hd (Track.mk "" TVideo "" 0 false false false []) (State.tracks storeP)))
    as ((c' & H1 & H2 & _ & H4 & H5 & _ & _ & H8) & _).
  - vm_compute. right. left. reflexivity.
  - vm_compute. reflexivity.
  - vm_compute. reflexivity.
  - exists c'. split; [exact H1|]. split; [rewrite H2; vm_compute; reflexivity|].
    split; [rewrite H4, H2; vm_compute; reflexivity|exact H8].
Defined.

Lemma clipboard_saveHistory (s : State.t) :
  State.clipboard (saveHistory s) = State.clipboard s.
Proof. unfold saveHistory. destruct (_ <? _)%nat; reflexivity. Qed.

Lemma clipboard_updateProjectDuration (s : State.t) :
  State.clipboard (updateProjectDuration s) = State.clipboard s.
Proof. unfold updateProjectDuration. destruct (Qlt_bool _ _); reflexivity. Qed.

Lemma clipboard_addClip (tid : string) (clipData : PartialClip.t) (s : State.t) :
  State.clipboard (snd (addClip tid clipData s)) = State.clipboard s.
Proof.
  unfold addClip. destruct (find _ _); [|reflexivity]. cbn [generateId snd].
  rewrite clipboard_saveHistory, clipboard_updateProjectDuration. reflexivity.
Qed.

Lemma clipboard_selectClip (cid : ClipId) (add : bool) (s : State.t) :
  State.clipboard (selectClip cid add s) = State.clipboard s.
Proof. unfold selectClip. destruct add; destruct (getClipById _ _); reflexivity. Qed.

Lemma clipboard_fold {A : Type} (f : State.t -> A -> State.t) (l : list A) :
  (forall s a, State.clipboard (f s a) = State.clipboard s) ->
  forall s, State.clipboard (fold_left f l s) = State.clipboard s.
Proof.
  intro Hf. induction l as [|a l IH]; intro s; simpl; [reflexivity|].
  rewrite IH. apply Hf.
Qed.

Lemma clipboard_exec (o : Op) (s : State.t) :
  o <> OCopySelectedClips -> State.clipboard (exec o s) = State.clipboard s.
Proof.
  intro Ho. destruct o; cbn [exec]; try (exfalso; apply Ho; reflexivity).
  - unfold addTrack. cbn [generateId snd]. rewrite clipboard_saveHistory. reflexivity.
  - unfold removeTrack. destruct (find _ _); [|reflexivity].
    rewrite clipboard_saveHistory. reflexivity.
  - apply clipboard_addClip.
  - unfold removeClip. destruct (existsb _ _); [|reflexivity].
    rewrite clipboard_saveHistory, clipboard_updateProjectDuration. reflexivity.
  - unfold updateClip. destruct (getClipById _ _); [|reflexivity].
    rewrite clipboard_updateProjectDuration. reflexivity.
  - unfold splitClip. destruct (getClipById _ _); [|reflexivity].
    destruct (getTrackByClipId _ _); [|reflexivity].
    destruct (_ || _); [reflexivity|]. cbn [generateId snd].
    rewrite clipboard_saveHistory. reflexivity.
  - unfold moveClip. destruct (getClipById _ _); [|reflexivity].
    destruct (getTrackByClipId _ _); [|reflexivity].
    rewrite clipboard_updateProjectDuration. reflexivity.
  - unfold trimClipStart. destruct (getClipById _ _); reflexivity.
  - unfold trimClipEnd. destruct (getClipById _ _); [|reflexivity].
    rewrite clipboard_updateProjectDuration. reflexivity.
  - apply clipboard_selectClip.
  - unfold deselectClip. destruct (getClipById _ _); reflexivity.
  - reflexivity.
  - reflexivity.
  - unfold pasteClips. destruct (State.clipboard s) as [|c0 cb] eqn:E; [exact E|].
    rewrite clipboard_fold; [exact E|].
    intros st c. unfold pasteOne. destruct (find _ _); [|reflexivity].
    destruct (negb _); [|reflexivity]. apply clipboard_addClip.
  - unfold duplicateSelectedClips. rewrite clipboard_fold; [reflexivity|].
    intros st r. unfold duplicateOne. destruct (deref _ _); [|reflexivity].
    destruct (getTrackByClipId _ _) as [tr|]; [|reflexivity].
    destruct (negb _); [|reflexivity].
    pose proof (clipboard_addClip (Track.id tr) (duplicateData t) st) as Ha.
    destruct (addClip _ _ _) as [[nc|] s1]; cbn [snd] in Ha; [|exact Ha].
    rewrite clipboard_selectClip. exact Ha.
  - unfold undo. destruct (0 <? _)%Z; [|reflexivity]. destruct (jsIndex _ _); reflexivity.
  - unfold redo. destruct (_ <? _)%Z; [|reflexivity]. destruct (jsIndex _ _); reflexivity.
Qed.

(** The clipboard holds what was copied until the next copy: no other
    operation writes it.  A paste does not use it up, an edit of a copied
    clip does not reach its copy, and an undo does not bring an older
    clipboard back. *)
Theorem clipboard_is_written_by_copy_only (ops : list Op) (s : State.t) :
  ~ In OCopySelectedClips ops ->
  State.clipboard (run ops s) = State.clipboard s.
Proof.
  revert s. induction ops as [|o ops IH]; intros s H; [reflexivity|].
  rewrite run_cons, IH.
  - apply clipboard_exec. intros ->. apply H. left. reflexivity.
  - intro Hin. apply H. right. exact Hin.
Qed.

Lemma clipboard_is_written_by_copy_only_witness :
  let ops := [OPasteClips; OTrimClipEnd (Some "clip-1"%string) 3;
              ORemoveClip (Some "clip-2"%string); OUndo; OPasteClips] in
  State.clipboard (run ops storeC) = State.clipboard storeC.
Proof.
  cbv zeta. apply clipboard_is_written_by_copy_only.
  intros [H|[H|[H|[H|[H|[]]]]]]; discriminate H.
Defined.

(** ** The overlays are the clips of the first text track *)

Lemma find_type_pushClip (ty : TrackType) (tid : string) (c : Clip.t) (ts : list Track.t)
    (tr0 : Track.t) :
  find (fun t => TrackType_eqb (Track.type t) ty) ts = Some tr0 ->
  Track.id tr0 <> tid ->
  find (fun t => TrackType_eqb (Track.type t) ty) (pushClip tid c ts) = Some tr0.
Proof.
  intros F Hid. unfold pushClip, mapFirst.
  induction ts as [|t ts IH]; simpl in *; [discriminate|].
  destruct (Track.hasId tid t) eqn:E; simpl.
  - destruct (TrackType_eqb (Track.type t) ty) eqn:T; [|exact F].
    injection F as <-. unfold Track.hasId in E. apply String.eqb_eq in E. contradiction.
  - destruct (TrackType_eqb (Track.type t) ty); [exact F|apply IH, F].
Qed.

(** Clips added to another track than the first text track are no
    overlays. *)
Lemma addClip_other_track (tid : string) (clipData : PartialClip.t) (s : State.t)
    (tr0 : Track.t) :
  find (fun t => TrackType_eqb (Track.type t) TText) (State.tracks s) = Some tr0 ->
  Track.id tr0 <> tid ->
  find (fun t => TrackType_eqb (Track.type t) TText)
    (State.tracks (snd (addClip tid clipData s))) = Some tr0.
Proof.
  intros F Hid. unfold addClip. destruct (find (Track.hasId tid) _); [|exact F].
  cbn [generateId snd]. rewrite snapshot_saveHistory_tracks, updateProjectDuration_tracks.
  cbn [State.tracks State.with_tracks State.with_draws].
  apply find_type_pushClip; assumption.
Qed.

Lemma find_app_first {A : Type} (p : A -> bool) (l1 l2 : list A) (a : A) :
  find p l1 = Some a -> find p (l1 ++ l2) = Some a.
Proof.
  induction l1 as [|x l1 IH]; simpl; [discriminate|].
  destruct (p x); [auto|exact IH].
Qed.

(** The canvas draws the clips of the first text track only.  In a store
    that has a text track, as every store has after [setVideoFile], and with
    a generated track id that no track has yet, the captions of
    [generateCaptions] and the placeholder of a stock image go to a new text
    track behind it: they are on the timeline, and they are no overlays, so
    the canvas never shows them. *)
Theorem captions_behind_a_text_track_are_not_drawn (title : string) (s : State.t) :
  hasTrackOfType TText s = true ->
  trackMissing (fst (generateId "track" s)) s ->
  textOverlays (generateCaptions s) = textOverlays s /\
  textOverlays (addStockImage title s) = textOverlays s /\
  List.length (allClips (State.tracks (generateCaptions s)))
    = (2 + List.length (allClips (State.tracks s)))%nat.
Proof.
  intros Ht Hf.
  destruct (find (fun t => TrackType_eqb (Track.type t) TText) (State.tracks s))
    as [tr0|] eqn:F.
  2:{ apply find_none_existsb in F. unfold hasTrackOfType in Ht. congruence. }
  assert (Hid : Track.id tr0 <> fst (generateId "track" s)).
  { apply Hf. apply find_In in F. exact F. }
  assert (F1 : forall name,
             find (fun t => TrackType_eqb (Track.type t) TText)
               (State.tracks (snd (addTrack TText name s))) = Some tr0).
  { intro name. rewrite (proj1 (addTrack_tracks TText name s)).
    apply find_app_first, F. }
  assert (O : forall s', find (fun t => TrackType_eqb (Track.type t) TText) (State.tracks s')
                         = Some tr0 -> textOverlays s' = textOverlays s).
  { intros s' F'. unfold textOverlays. rewrite F', F. reflexivity. }
  split; [|split].
  - apply O. unfold generateCaptions.
    pose proof (F1 (Some "AI Subtitles"%string)) as G.
    destruct (addTrack TText (Some "AI Subtitles"%string) s) as [track s1] eqn:A.
    assert (Et : Track.id track = fst (generateId "track" s)).
    { unfold addTrack in A. cbn [generateId] in A. injection A as <- _. reflexivity. }
    cbn [snd] in G. rewrite Et.
    apply addClip_other_track; [|exact Hid]. apply addClip_other_track; [exact G|exact Hid].
  - apply O. unfold addStockImage.
    pose proof (F1 (Some "Stock Images"%string)) as G.
    destruct (addTrack TText (Some "Stock Images"%string) s) as [track s1] eqn:A.
    assert (Et : Track.id track = fst (generateId "track" s)).
    { unfold addTrack in A. cbn [generateId] in A. injection A as <- _. reflexivity. }
    cbn [snd] in G. rewrite Et.
    apply addClip_other_track; [exact G|exact Hid].
  - unfold generateCaptions.
    destruct (addTrack_tracks TText (Some "AI Subtitles"%string) s) as (T1 & _ & T3).
    destruct (addTrack TText (Some "AI Subtitles"%string) s) as [track s1] eqn:A.
    cbn [fst snd] in T1, T3.
    assert (L : forall tid d st tr,
               find (Track.hasId tid) (State.tracks st) = Some tr ->
               List.length (allClips (State.tracks (snd (addClip tid d st))))
               = S (List.length (allClips (State.tracks st))) /\
               exists tr', find (Track.hasId tid) (State.tracks (snd (addClip tid d st)))
                           = Some tr').
    { intros tid d st tr Ft. unfold addClip. rewrite Ft. cbn [generateId snd].
      rewrite snapshot_saveHistory_tracks, updateProjectDuration_tracks.
      cbn [State.tracks State.with_tracks State.with_draws]. split.
      - match goal with |- context [pushClip tid ?c _] =>
          destruct (allClips_pushClip tid c _ tr Ft) as (l1 & l2 & E1 & E2) end.
        rewrite E2, E1, !length_app. simpl. lia.
      - unfold pushClip.
        apply (find_hasId_mapFirst tid _ _ _ tr); [intro; reflexivity|exact Ft]. }
    assert (Ft : exists tr, find (Track.hasId (Track.id track)) (State.tracks s1) = Some tr).
    { apply find_hasId_In. rewrite T1. apply in_or_app. right. left. reflexivity. }
    destruct Ft as [tr Ft].
    destruct (L (Track.id track) captionData1 s1 tr Ft) as (L1 & tr' & Ft').
    destruct (L (Track.id track) captionData2 _ tr' Ft') as (L2 & _).
    rewrite L2, L1, T1. unfold allClips. rewrite flat_map_app, length_app. simpl.
    rewrite T3. simpl. lia.
Qed.

Lemma captions_behind_a_text_track_are_not_drawn_witness :
  let s := snd (setVideoFile "a.mp4" "blob:1" (Media.mk None "" false, initialStore)) in
  textOverlays (generateCaptions s) = textOverlays s /\
  overlaySpans (generateCaptions s) = [] /\
  List.length (allClips (State.tracks (generateCaptions s))) = 2%nat /\
  List.length (overlaySpans (generateCaptions initialStore)) = 2%nat.
Proof.
  cbv zeta.
  destruct (captions_behind_a_text_track_are_not_drawn "sky"
              (snd (setVideoFile "a.mp4" "blob:1" (Media.mk None "" false, initialStore))))
    as (H1 & _ & H3).
  - vm_compute. reflexivity.
  - apply existsb_trackMissing. vm_compute. reflexivity.
  - split; [exact H1|]. split; [unfold overlaySpans; rewrite H1; vm_compute; reflexivity|].
    split; [rewrite H3; vm_compute; reflexivity|vm_compute; reflexivity].
Defined.
